(** * FlipSketch: the modified text-to-video sampling pipeline

    A shallow embedding of [text2vid_torch2.py]: the attention arithmetic
    ([scaled_dot_product_attention]), the attention memory cell and its
    injection function ([AttnProcessor2_0.get_qk]), the flag toggles over the
    network's modules ([init_attention_func], [init_attention_params],
    [use_last_self_attention], [save_last_self_attention]), the processor's
    call of the attention ([AttnProcessor2_0.__call__], from the projections
    to the attention output), the dual-branch step driver ([call_network]),
    the latent optimizer ([optimize_latents]), the top-level sampling loop
    ([__call__]) and the postprocessing of the video ([tensor2vid]).

    Numbers.  Tensor entries are values of an abstract scalar type with the
    arithmetic the code uses (class [Scalar]); floating-point rounding, dtype
    conversion ([.to(dtype)]) and device moves ([.cuda()]) are not modelled:
    they leave the modelled value unchanged.

    Exceptions.  Fallible code returns [result]; [Raise e] is a Python
    exception propagating out of the function. *)

From Stdlib Require Import ZArith QArith String.
From stdpp Require Import base list strings.

Local Open Scope nat_scope.

(** ** Exceptions and the error monad *)

Inductive exn : Type :=
  | AttributeError
  | AssertionError
  | IndexError
  | RuntimeError
  | TypeError
  | UnboundLocalError
  | ValueError
  | ZeroDivisionError.

Inductive result (A : Type) : Type :=
  | Ok (a : A)
  | Raise (e : exn).
Arguments Ok {A} a.
Arguments Raise {A} e.

#[global] Instance result_ret : MRet result := fun A a => Ok a.
#[global] Instance result_bind : MBind result := fun A B f m =>
  match m with
  | Ok a => f a
  | Raise e => Raise e
  end.
#[global] Instance result_fmap : FMap result := fun A B f m =>
  match m with
  | Ok a => Ok (f a)
  | Raise e => Raise e
  end.

Definition is_ok {A} (r : result A) : bool :=
  match r with Ok _ => true | Raise _ => false end.

(** ** Scalars *)

Class Scalar (R : Type) : Type := {
  rzero : R;
  rone : R;
  radd : R -> R -> R;
  rsub : R -> R -> R;
  rmul : R -> R -> R;
  rdiv : R -> R -> R;
  rltb : R -> R -> bool;
  of_nat : nat -> R;
}.

(** Rationals, used to run the definitions on concrete inputs. *)
#[global] Instance Q_scalar : Scalar Q := {|
  rzero := 0%Q;
  rone := 1%Q;
  radd := Qplus;
  rsub := Qminus;
  rmul := Qmult;
  rdiv := Qdiv;
  rltb := fun a b => if Qlt_le_dec a b then true else false;
  of_nat := fun n => inject_Z (Z.of_nat n);
|}.

(** ** Tensors of the attention arithmetic

    Inside [scaled_dot_product_attention] the operands are the rank-4
    tensors that [AttnProcessor2_0.__call__] builds with
    [view(batch_size, -1, attn.heads, head_dim).transpose(1, 2)]: axes
    (batch, heads, sequence position, head_dim); the scores are
    (batch, heads, query position, key position).  They are nested lists,
    outermost axis first; sizes of inner axes are read off the first
    element, so every axis but the last is taken non-empty. *)

Abbreviation row R := (list R).
Abbreviation matrix R := (list (list R)).
Abbreviation tensor3 R := (list (list (list R))).
Abbreviation tensor4 R := (list (list (list (list R)))).

Section AttentionArithmetic.
Context {R : Type} `{Scalar R}.

(** [t.size(-1)], [t.size(-2)], [t.size(-3)] of a rank-4 tensor. *)
Definition size_m3 (t : tensor4 R) : nat := length (hd [] t).
Definition size_m2 (t : tensor4 R) : nat := length (hd [] (hd [] t)).
Definition size_m1 (t : tensor4 R) : nat := length (hd [] (hd [] (hd [] t))).

Definition dot (u v : row R) : R := foldr radd rzero (zip_with rmul u v).

(** [q @ k.transpose(-2, -1)] on one (L x D) and one (S x D) matrix. *)
Definition matmul_T (q k : matrix R) : matrix R :=
  map (fun qi => map (fun kj => dot qi kj) k) q.

(** [query @ key.transpose(-2, -1)] on rank-4 operands with equal batch
    and head counts. *)
Definition similarity (query key : tensor4 R) : tensor4 R :=
  zip_with (zip_with matmul_T) query key.

Definition scale_by (s : R) (t : tensor4 R) : tensor4 R :=
  map (map (map (map (fun x => rmul x s)))) t.

(** Entry [i] of a vector under broadcasting: a vector of length one is
    read at 0 whatever the index. *)
Definition bget (v : row R) (i : nat) : R :=
  match v with
  | [x] => x
  | _ => nth i v rzero
  end.

(** Size of the broadcast of two trailing axes of sizes [a] and [b]. *)
Definition broadcast (a b : nat) : result nat :=
  if a =? b then Ok a
  else if a =? 1 then Ok b
  else if b =? 1 then Ok a
  else Raise RuntimeError.

(** A source axis of size [src] can be copied into a destination axis of
    size [dst]. *)
Definition expandable (src dst : nat) : bool := (src =? dst) || (src =? 1).

(** [attn_weight[:, :len(d_l), 0] = attn_k1[:, :len(d_l), 0] * d_l] on the
    rank-4 scores.  The three indices address the first three axes:
    every batch entry, the heads below [len(d_l)], query position 0; the
    last axis (key positions) is left whole, and [d_l] is broadcast
    against it.  [X] is the key-axis size of the right-hand side
    [attn_k1[...] * d_l] and [S] that of [attn_weight], into which the
    right-hand side is expanded. *)
Definition blend_row (k1row : row R) (d_l : row R) (X S : nat) : row R :=
  let rhs := map (fun x => rmul (bget k1row x) (bget d_l x)) (seq 0 X) in
  map (fun s => bget rhs s) (seq 0 S).

Definition blend_head (X S : nat) (d_l : row R) (w k : matrix R) : matrix R :=
  match w with
  | _ :: wrest => blend_row (hd [] k) d_l X S :: wrest
  | [] => []
  end.

Definition blend_heads (X S : nat) (d_l : row R) (w k : tensor3 R) : tensor3 R :=
  let n := length d_l in
  zip_with (blend_head X S d_l) (take n w) (take n k) ++ drop n w.

Definition assign_blend (attn_weight attn_k1 : tensor4 R) (d_l : row R)
  : result (tensor4 R) :=
  let n := length d_l in
  if (size_m2 attn_k1 =? 0) || (size_m2 attn_weight =? 0) then Raise IndexError
  else
    X ← broadcast (size_m1 attn_k1) n;
    if expandable X (size_m1 attn_weight)
       && expandable (min (size_m3 attn_k1) n) (min (size_m3 attn_weight) n)
    then Ok (zip_with (blend_heads X (size_m1 attn_weight) d_l)
               attn_weight attn_k1)
    else Raise RuntimeError.

(** Lines 56-62: the attention logits before the bias and the softmax. *)
Definition attn_logits (query key : tensor4 R) (k1 : option (tensor4 R))
    (d_l : option (row R)) (scale_factor : R) : result (tensor4 R) :=
  match k1 with
  | Some k1 =>
      let attn_k1 := similarity query k1 in
      let attn_weight := similarity query key in
      match d_l with
      | Some d_l =>
          attn_weight ← assign_blend attn_weight attn_k1 d_l;
          Ok (scale_by scale_factor attn_weight)
      | None => Raise TypeError
      end
  | None => Ok (scale_by scale_factor (similarity query key))
  end.

(** *** The rest of [scaled_dot_product_attention] *)

Variable inv_sqrt : nat -> R.          (* 1 / math.sqrt(n) *)
Variable neg_inf : R.                  (* float("-inf") *)
Variable softmax : row R -> row R.         (* torch.softmax over the last axis *)
Variable dropout : R -> tensor4 R -> tensor4 R. (* torch.dropout(_, p, train=True) *)

Inductive mask : Type :=
  | BoolMask (m : list (list bool))
  | FloatMask (m : matrix R).

Definition zeros (L S : nat) : matrix R := replicate L (replicate S rzero).

Definition masked_fill (keep : list (list bool)) (b : matrix R) : matrix R :=
  zip_with (zip_with (fun (kp : bool) x => if kp then x else neg_inf)) keep b.

(** [torch.ones(L, S).tril(diagonal=0)]. *)
Definition tril (L S : nat) : list (list bool) :=
  map (fun i => map (fun j => j <=? i) (seq 0 S)) (seq 0 L).

(** [attn_bias]; masks are taken of the shape (L, S) of the bias. *)
Definition attn_bias_of (L S : nat) (is_causal : bool) (attn_mask : option mask)
  : result (matrix R) :=
  bias ← (if is_causal then
            match attn_mask with
            | None => Ok (masked_fill (tril L S) (zeros L S))
            | Some _ => Raise AssertionError
            end
          else Ok (zeros L S));
  match attn_mask with
  | None => Ok bias
  | Some (BoolMask m) => Ok (masked_fill m bias)
  | Some (FloatMask m) => Ok (zip_with (zip_with radd) bias m)
  end.

(** [t.repeat_interleave(r, -3)]. *)
Definition repeat_interleave (r : nat) (t : tensor4 R) : tensor4 R :=
  map (fun heads => mjoin (map (replicate r) heads)) t.

Definition floordiv (a b : nat) : result nat :=
  if b =? 0 then Raise ZeroDivisionError else Ok (a / b).

(** [attn_weight @ value]. *)
Definition matmul (a v : matrix R) : matrix R :=
  map (fun ai =>
         map (fun j => foldr radd rzero
                         (zip_with (fun x vr => rmul x (nth j vr rzero)) ai v))
             (seq 0 (length (hd [] v)))) a.

Definition scaled_dot_product_attention (query key value : tensor4 R)
    (attn_mask : option mask) (dropout_p : R) (is_causal : bool)
    (scale : option R) (enable_gqa : bool)
    (k1 : option (tensor4 R)) (d_l : option (row R)) : result (tensor4 R) :=
  let L := size_m2 query in
  let S := size_m2 key in
  let scale_factor :=
    match scale with None => inv_sqrt (size_m1 query) | Some s => s end in
  attn_bias ← attn_bias_of L S is_causal attn_mask;
  '(k1, key, value) ←
    (if enable_gqa then
       k1 ← match k1, d_l with
            | Some k, Some _ =>
                r ← floordiv (size_m3 query) (size_m3 k);
                Ok (Some (repeat_interleave r k))
            | _, _ => Ok k1
            end;
       rk ← floordiv (size_m3 query) (size_m3 key);
       rv ← floordiv (size_m3 query) (size_m3 value);
       Ok (k1, repeat_interleave rk key, repeat_interleave rv value)
     else Ok (k1, key, value));
  attn_weight ← attn_logits query key k1 d_l scale_factor;
  let attn_weight :=
    map (map (fun m => zip_with (zip_with radd) m attn_bias)) attn_weight in
  let attn_weight := map (map (map softmax)) attn_weight in
  let attn_weight := dropout dropout_p attn_weight in
  Ok (zip_with (zip_with matmul) attn_weight value).

End AttentionArithmetic.

Arguments mask R : clear implicits.

(** ** The attention memory cell and the injection function

    [get_qk] receives the rank-3 query and key (batch, sequence, inner_dim)
    of one attention module.  It writes into [query] in place and keeps
    references to [query] and [key] in the cell, so tensors live in a store
    and are passed by reference.  A rank-3 tensor carries its shape (torch
    keeps it also when an axis is empty) and its entries as nested lists. *)

Section Injection.
Context {R : Type} `{Scalar R}.

Record Tensor3 : Type := mkTensor3 {
  t_shape : nat * nat * nat;
  t_data : list (list (list R));
}.

#[global] Instance Tensor3_inhabited : Inhabited Tensor3 :=
  populate (mkTensor3 (0, 0, 0) []).

Definition shape0 (t : Tensor3) : nat := (t_shape t).1.1.
Definition shape1 (t : Tensor3) : nat := (t_shape t).1.2.
Definition shape2 (t : Tensor3) : nat := (t_shape t).2.

Definition shape_eqb (a b : Tensor3) : bool :=
  (shape0 a =? shape0 b) && (shape1 a =? shape1 b) && (shape2 a =? shape2 b).

(** [t[a:b]] (axis 0) and [t[:, :n]] (axis 1); bounds are clamped as
    Python slices clamp them. *)
Definition slice0 (a b : nat) (t : Tensor3) : Tensor3 :=
  {| t_shape := (min b (shape0 t) - min a (shape0 t), shape1 t, shape2 t);
     t_data := take (b - a) (drop a (t_data t)) |}.

Definition slice1 (n : nat) (t : Tensor3) : Tensor3 :=
  {| t_shape := (shape0 t, min n (shape1 t), shape2 t);
     t_data := map (take n) (t_data t) |}.

(** Index along a source axis of size [size] when it is broadcast. *)
Definition pick (size i : nat) : nat := if size =? 1 then 0 else i.

Definition src_at (src : Tensor3) (i j k : nat) (dflt : R) : R :=
  match t_data src !! pick (shape0 src) i with
  | Some m =>
      match m !! pick (shape1 src) j with
      | Some r => default dflt (r !! pick (shape2 src) k)
      | None => dflt
      end
  | None => dflt
  end.

(** [dst[b0:b1, :n1, :n2] = src]: the source is broadcast to the shape of
    the destination slice, or the assignment raises. *)
Definition setitem (dst : Tensor3) (b0 b1 n1 n2 : nat) (src : Tensor3)
  : result Tensor3 :=
  let db := min b1 (shape0 dst) - min b0 (shape0 dst) in
  if expandable (shape0 src) db
     && expandable (shape1 src) (min n1 (shape1 dst))
     && expandable (shape2 src) (min n2 (shape2 dst))
  then
    Ok {| t_shape := t_shape dst;
          t_data :=
            imap (fun b m =>
              if (b0 <=? b) && (b <? b1) then
                imap (fun s r =>
                  if s <? n1 then
                    imap (fun d x => if d <? n2 then src_at src (b - b0) s d x
                                     else x) r
                  else r) m
              else m) (t_data dst) |}
  else Raise RuntimeError.

Definition loc := nat.
Definition heap := list Tensor3.

(** The attributes [init_attention_func] puts on every processor. *)
Record processor : Type := mkProcessor {
  last_attn_slice : option (loc * loc);
  use_last_attn_slice : bool;
  save_last_attn_slice : bool;
  LAMBDA : R;
  num_frames : option nat;
  bs : nat;
}.

(** [[1 + self.LAMBDA * (i/50) for i in range(self.num_frames)]]. *)
Definition dynamic_lambda_of (lam : R) (n : nat) : row R :=
  map (fun i => radd rone (rmul lam (rdiv (of_nat i) (of_nat 50)))) (seq 0 n).

(** [shape[1] == self.num_frames], [False] while [num_frames] is [None]. *)
Definition eq_num_frames (s : nat) (nf : option nat) : bool :=
  match nf with Some n => s =? n | None => false end.

(** The loop of Case B, [for i in range(self.bs)], from iteration [i] on
    with [remaining] iterations to go.  [query] is written in place;
    [query_list] is read through its reference at every iteration, as it
    may be the very tensor being written. *)
Fixpoint inject_query (remaining i all_dim batch_dim : nat)
    (ql query : loc) (h : heap) : result heap :=
  match remaining with
  | 0 => Ok h
  | S remaining' =>
      let query_list := h !!! ql in
      q ← setitem (h !!! query) (i * all_dim) (i * all_dim + batch_dim)
            (shape1 query_list) (shape2 query_list)
            (slice0 (i * batch_dim) ((i + 1) * batch_dim) query_list);
      inject_query remaining' (S i) all_dim batch_dim ql query
        (<[query := q]> h)
  end.

(** [if self.save_last_attn_slice: self.last_attn_slice = [query, key];
    self.save_last_attn_slice = False]: the cell keeps the two references. *)
Definition capture (self : processor) (query key : loc) : processor :=
  if save_last_attn_slice self then
    {| last_attn_slice := Some (query, key);
       use_last_attn_slice := use_last_attn_slice self;
       save_last_attn_slice := false;
       LAMBDA := LAMBDA self;
       num_frames := num_frames self;
       bs := bs self |}
  else self.

(** What [get_qk] returns: [query], [key] (the references it was given),
    [dynamic_lambda] and [key1] (fresh tensors, returned by value). *)
Definition qk_out : Type := loc * loc * option (row R) * option Tensor3.

Definition get_qk (self : processor) (h : heap) (query key : loc)
  : result (qk_out * processor * heap) :=
  let q_old := h !!! query in
  let k_old := h !!! key in
  '(dynamic_lambda, key1, h) ←
    (if use_last_attn_slice self then
       match last_attn_slice self with
       | Some (ql, kl) =>
           let query_list := h !!! ql in
           let key_list := h !!! kl in
           '(dynamic_lambda, key1) ←
             (if eq_num_frames (shape1 (h !!! query)) (num_frames self)
                 && shape_eqb (h !!! query) (h !!! key)
              then
                key1 ← setitem (h !!! key) 0 (shape0 (h !!! key)) 1
                         (shape2 key_list) (slice1 1 key_list);
                Ok (Some (dynamic_lambda_of (LAMBDA self)
                            (default 0 (num_frames self))),
                    Some key1)
              else Ok (None, None));
           if shape_eqb q_old k_old
              && negb (eq_num_frames (shape1 q_old) (num_frames self))
           then
             batch_dim ← floordiv (shape0 query_list) (bs self);
             all_dim ← floordiv (shape0 (h !!! query)) (bs self);
             h ← inject_query (bs self) 0 all_dim batch_dim ql query h;
             Ok (dynamic_lambda, key1, h)
           else Ok (dynamic_lambda, key1, h)
       | None => Ok (None, None, h)
       end
     else Ok (None, None, h));
  Ok ((query, key, dynamic_lambda, key1), capture self query key, h).

End Injection.

Arguments Tensor3 R : clear implicits.
Arguments heap R : clear implicits.
Arguments processor R : clear implicits.
Arguments qk_out R : clear implicits.

(** ** The network's modules and the flag toggles

    [unet.named_modules()] enumerates qualified names with their modules.
    An [Attention] module refers to its processor object; the processors
    live in a store, so that two modules holding the same processor object
    are told apart from two modules with equal processors. *)

(** ["attn1" in name]: substring test. *)
Fixpoint contains (p s : string) : bool :=
  String.prefix p s ||
  match s with
  | EmptyString => false
  | String _ s' => contains p s'
  end.

Inductive module : Type :=
  | AttentionModule (processor_ref : nat)  (* type(module).__name__ == "Attention" *)
  | OtherModule (type_name : string).

Section Network.
Context {R : Type} `{Scalar R}.

Record network : Type := mkNetwork {
  named_modules : list (string * module);
  processors : list (processor R);
  tensors : heap R;
}.

Definition set_use (use : bool) (p : processor R) : processor R :=
  {| last_attn_slice := last_attn_slice p;
     use_last_attn_slice := use;
     save_last_attn_slice := save_last_attn_slice p;
     LAMBDA := LAMBDA p;
     num_frames := num_frames p;
     bs := bs p |}.

Definition set_save (save : bool) (p : processor R) : processor R :=
  {| last_attn_slice := last_attn_slice p;
     use_last_attn_slice := use_last_attn_slice p;
     save_last_attn_slice := save;
     LAMBDA := LAMBDA p;
     num_frames := num_frames p;
     bs := bs p |}.

Definition set_params (nf : nat) (lambda_ : R) (b : nat) (p : processor R)
  : processor R :=
  {| last_attn_slice := last_attn_slice p;
     use_last_attn_slice := use_last_attn_slice p;
     save_last_attn_slice := save_last_attn_slice p;
     LAMBDA := lambda_;
     num_frames := Some nf;
     bs := b |}.

(** The loop body shared by the three setters: visit one named module. *)
Definition visit (selected : string -> bool) (f : processor R -> processor R)
    (ps : list (processor R)) (nm : string * module) : list (processor R) :=
  match nm.2 with
  | AttentionModule p => if selected nm.1 then alter f p ps else ps
  | OtherModule _ => ps
  end.

Definition update_processors (selected : string -> bool)
    (f : processor R -> processor R) (unet : network) : network :=
  {| named_modules := named_modules unet;
     processors := foldl (visit selected f) (processors unet) (named_modules unet);
     tensors := tensors unet |}.

Definition init_attention_params (unet : network) (nf : nat) (lambda_ : R)
    (b : nat) : network :=
  update_processors (fun _ => true) (set_params nf lambda_ b) unet.

Definition use_last_self_attention (unet : network) (use : bool) : network :=
  update_processors (contains "attn1") (set_use use) unet.

Definition save_last_self_attention (unet : network) (save : bool) : network :=
  update_processors (contains "attn1") (set_save save) unet.

(** The processor [init_attention_func] installs. *)
Definition fresh_processor : processor R :=
  {| last_attn_slice := None;
     use_last_attn_slice := false;
     save_last_attn_slice := false;
     LAMBDA := rzero;
     num_frames := None;
     bs := 0 |}.

(** [module.set_processor(AttnProcessor2_0())]: a new processor object
    per [Attention] module, allocated at the end of the store. *)
Fixpoint install (ms : list (string * module)) (ps : list (processor R))
  : list (string * module) * list (processor R) :=
  match ms with
  | [] => ([], ps)
  | (name, AttentionModule _) :: ms' =>
      let '(ms'', ps') := install ms' (ps ++ [fresh_processor]) in
      ((name, AttentionModule (length ps)) :: ms'', ps')
  | (name, OtherModule c) :: ms' =>
      let '(ms'', ps') := install ms' ps in
      ((name, OtherModule c) :: ms'', ps')
  end.

Definition init_attention_func (unet : network) : network :=
  let '(ms, ps) := install (named_modules unet) (processors unet) in
  {| named_modules := ms; processors := ps; tensors := tensors unet |}.

End Network.

Arguments network R : clear implicits.

(** ** Latents

    A latent is a rank-5 tensor (batch, channel, frame, height, width).  The
    pipeline only ever cuts, joins and repeats it along the frame axis, so a
    latent is its four other sizes and the list of its frames; a frame (the
    block [x[:, :, f]]) is a value of the abstract type [Slab].
    [l_attached] tells whether the tensor takes part in the autograd graph
    ([requires_grad], or a [grad_fn]). *)

Record latent (Slab : Type) : Type := mkLatent {
  l_batch : nat;
  l_chan : nat;
  l_dim3 : nat;
  l_dim4 : nat;
  l_frames : list Slab;
  l_attached : bool;
}.
Arguments mkLatent {Slab}.
Arguments l_batch {Slab}.
Arguments l_chan {Slab}.
Arguments l_dim3 {Slab}.
Arguments l_dim4 {Slab}.
Arguments l_frames {Slab}.
Arguments l_attached {Slab}.

(** The rank-4 tensors (batch * frames, channel, _, _) handed to the
    scheduler: every frame has become a sample of the batch. *)
Record samples (Slab : Type) : Type := mkSamples {
  s_count : nat;
  s_chan : nat;
  s_dim2 : nat;
  s_dim3 : nat;
  s_items : list Slab;
}.
Arguments mkSamples {Slab}.
Arguments s_count {Slab}.
Arguments s_chan {Slab}.
Arguments s_dim2 {Slab}.
Arguments s_dim3 {Slab}.
Arguments s_items {Slab}.

Section LatentOps.
Context {Slab : Type}.
Implicit Types x y : latent Slab.

Definition n_frames x : nat := length (l_frames x).

Definition same_dims x y : bool :=
  (l_batch x =? l_batch y) && (l_chan x =? l_chan y)
  && (l_dim3 x =? l_dim3 y) && (l_dim4 x =? l_dim4 y).

Definition same_shape x y : bool :=
  same_dims x y && (n_frames x =? n_frames y).

Definition with_frames x (fs : list Slab) (attached : bool) : latent Slab :=
  {| l_batch := l_batch x; l_chan := l_chan x; l_dim3 := l_dim3 x;
     l_dim4 := l_dim4 x; l_frames := fs; l_attached := attached |}.

(** [x[:, :, a:b]], [x[:, :, a:]] and [x[:, :, :b]]. *)
Definition frames_range (a b : nat) x : latent Slab :=
  with_frames x (take (b - a) (drop a (l_frames x))) (l_attached x).
Definition frames_from (a : nat) x : latent Slab :=
  with_frames x (drop a (l_frames x)) (l_attached x).
Definition frames_to (b : nat) x : latent Slab :=
  with_frames x (take b (l_frames x)) (l_attached x).

(** [x[:, :, 0]]. *)
Definition frame0 x : result Slab :=
  match l_frames x with
  | s :: _ => Ok s
  | [] => Raise IndexError
  end.

Definition detach x : latent Slab := with_frames x (l_frames x) false.
Definition requires_grad_ x : latent Slab := with_frames x (l_frames x) true.

(** [torch.cat([x, y], dim=2)]. *)
Definition cat_frames x y : result (latent Slab) :=
  if same_dims x y
  then Ok (with_frames x (l_frames x ++ l_frames y)
             (l_attached x || l_attached y))
  else Raise RuntimeError.

(** [x.repeat(1, 1, n, 1, 1)]. *)
Definition repeat_frames (n : nat) x : latent Slab :=
  with_frames x (mjoin (replicate n (l_frames x))) (l_attached x).

(** [x.permute(0, 2, 1, 3, 4).reshape(bsz * frames, channel, a, b)]. *)
Definition merge_frames (a b : nat) x : samples Slab :=
  {| s_count := l_batch x * n_frames x; s_chan := l_chan x;
     s_dim2 := a; s_dim3 := b; s_items := l_frames x |}.

(** The same reshape applied to a prediction [y], with the sizes of [x].
    The network is shape preserving; a prediction of another shape makes
    the reshape raise (one of another shape with as many elements, which
    torch would accept, is not modelled). *)
Definition merge_like (a b : nat) x y : result (samples Slab) :=
  if same_shape y x then Ok (merge_frames a b y) else Raise RuntimeError.

(** [s[None, :].reshape(bsz, frames, channel, a, b).permute(0, 2, 1, 3, 4)]. *)
Definition unmerge (bsz channel a b : nat) (s : samples Slab) : latent Slab :=
  {| l_batch := bsz; l_chan := channel; l_dim3 := a; l_dim4 := b;
     l_frames := s_items s; l_attached := false |}.

(** [s[None, :].reshape((bsz, frames, -1) + s.shape[2:]).permute(0, 2, 1, 3, 4)]:
    the channel size is inferred, which torch refuses for a tensor
    without elements. *)
Definition unmerge_inferred (bsz frames : nat) (s : samples Slab)
  : result (latent Slab) :=
  if s_count s * s_chan s * s_dim2 s * s_dim3 s =? 0 then Raise RuntimeError
  else Ok {| l_batch := bsz; l_chan := s_count s * s_chan s / (bsz * frames);
             l_dim3 := s_dim2 s; l_dim4 := s_dim3 s;
             l_frames := s_items s; l_attached := false |}.

End LatentOps.

(** ** The collaborators

    The text encoder, the denoising network, the scheduler, the optimizer,
    the decoder and the postprocessor are outside the repository; the
    pipeline is modelled over any implementation of them.  The pass-through
    arguments [cross_attention_kwargs], [extra_step_kwargs], [eta],
    [generator], [clip_skip] and the device are part of the collaborators. *)

Definition TAU_2 : nat := 15.
Definition TAU_1 : nat := 10.

Class Collaborators (R Slab Timestep Cond Prompt Opt Out : Type) : Type := {
  (* scheduler *)
  scale_model_input : latent Slab -> Timestep -> latent Slab;
  scheduler_step : Timestep -> Slab -> Slab -> Slab; (* noise, sample: per sample *)
  timesteps_of : nat -> list Timestep;   (* set_timesteps(n); .timesteps *)
  scheduler_order : nat;
  init_noise_sigma : Slab -> Slab;       (* latents * init_noise_sigma *)
  (* denoising network: a forward pass reads and writes the memory cells *)
  unet_forward : network R -> latent Slab -> Timestep -> Cond
                 -> latent Slab * network R;
  sample_size : nat;
  in_channels : nat;
  vae_scale_factor : nat;
  (* tensor arithmetic on frames *)
  slab_add : Slab -> Slab -> Slab;
  slab_sub : Slab -> Slab -> Slab;
  slab_scale : R -> Slab -> Slab;
  (* autograd and Adam *)
  mse_loss : Slab -> Slab -> R;
  backward : network R -> latent Slab -> Timestep -> Cond -> Slab -> latent Slab;
  adam_init : R -> latent Slab -> Opt;
  adam_update : Opt -> latent Slab -> nat -> Slab -> Slab;
  adam_next : Opt -> latent Slab -> Opt;
  (* text encoder *)
  empty_prompt : Prompt;
  encode_prompt : list Prompt -> bool -> option (list Prompt)
                  -> option Cond -> option Cond -> Cond * Cond;
  (* random latents: draw number, frame index *)
  randn_slab : nat -> nat -> Slab;
  generator_len : option nat;            (* len(generator) when it is a list *)
  (* decoder and postprocessor *)
  decode_latents : latent Slab -> latent Slab;
  postprocess : latent Slab -> nat -> string -> Out;
}.

Section Pipeline.
Context {R Slab Timestep Cond Prompt Opt Out : Type}.
Context `{Scalar R} `{!Collaborators R Slab Timestep Cond Prompt Opt Out}.

Local Abbreviation latent := (latent Slab).
Local Abbreviation samples := (samples Slab).

(** *** The world: network state, forward-pass counter, output *)

Inductive event : Type :=
  | PrintText (s : string)
  | PrintPrompt (p : Prompt)
  | PrintBatch (n : nat)
  | PrintFrames (n : nat)
  | PrintLambda (l : R)
  | PrintIteration (i j : nat) (loss : R)
  | CallbackCall (step_idx : nat) (t : Timestep) (latents : latent).

Record world : Type := mkWorld {
  w_unet : network R;
  w_forward_calls : nat;       (* forward passes of the network so far *)
  w_log : list event;          (* printed lines and callback calls, latest first *)
}.

Definition M (A : Type) : Type := world -> result A * world.

#[local] Instance M_ret : MRet M := fun A a w => (Ok a, w).
#[local] Instance M_bind : MBind M := fun A B f m w =>
  match m w with
  | (Ok a, w') => f a w'
  | (Raise e, w') => (Raise e, w')
  end.

Definition lift {A} (r : result A) : M A := fun w => (r, w).
Definition raise {A} (e : exn) : M A := fun w => (Raise e, w).

Definition forward (x : latent) (t : Timestep) (c : Cond) : M latent :=
  fun w =>
    let '(y, net) := unet_forward (w_unet w) x t c in
    (Ok y, {| w_unet := net; w_forward_calls := S (w_forward_calls w);
              w_log := w_log w |}).

Definition on_unet (f : network R -> network R) : M unit :=
  fun w => (Ok tt, {| w_unet := f (w_unet w);
                      w_forward_calls := w_forward_calls w;
                      w_log := w_log w |}).

Definition emit (e : event) : M unit :=
  fun w => (Ok tt, {| w_unet := w_unet w;
                      w_forward_calls := w_forward_calls w;
                      w_log := e :: w_log w |}).

(** *** Tensor arithmetic of the step driver *)

(** [u + guidance_scale * (c - u)]. *)
Definition guide (u : latent) (s : R) (c : latent) : result latent :=
  if same_shape u c
  then Ok (with_frames u
             (zip_with (fun a b => slab_add a (slab_scale s (slab_sub b a)))
                (l_frames u) (l_frames c)) false)
  else Raise RuntimeError.

(** [scheduler.step(noise, t, sample).prev_sample]. *)
Definition step_samples (t : Timestep) (noise sample : samples) : samples :=
  {| s_count := s_count sample; s_chan := s_chan sample;
     s_dim2 := s_dim2 sample; s_dim3 := s_dim3 sample;
     s_items := zip_with (scheduler_step t) (s_items noise) (s_items sample) |}.

(** *** The dual-branch step driver *)

Record step_output : Type := mkStepOutput {
  out_latents : latent;
  out_inv_latents : latent;
  out_noise_pred : samples;
  out_noise_null_pred : option samples;
}.

Definition call_network (negative_prompt_embeds prompt_embeds : Cond)
    (latents inv_latents : latent) (t : Timestep) (i : nat)
    (null_embeds : Cond) (do_classifier_free_guidance : bool)
    (guidance_scale : R) : M step_output :=
  let inv_latent_model_input := scale_model_input inv_latents t in
  let latent_model_input := scale_model_input latents t in
  uncond ←
    (if do_classifier_free_guidance then
       noise_pred_uncond ← forward latent_model_input t negative_prompt_embeds;
       noise_null_pred_uncond ←
         forward inv_latent_model_input t negative_prompt_embeds;
       mret (Some (noise_pred_uncond, noise_null_pred_uncond))
     else mret None);
  '(inv_latents, noise_null_pred) ←
    (if i <=? TAU_2 then
       on_unet (fun u => save_last_self_attention u true);;
       noise_null_pred ← forward inv_latent_model_input t null_embeds;
       noise_null_pred ←
         lift (match uncond with
               | Some (_, noise_null_pred_uncond) =>
                   guide noise_null_pred_uncond guidance_scale noise_null_pred
               | None => Ok noise_null_pred
               end);
       let bsz := l_batch inv_latents in
       let frames := n_frames inv_latents in
       let width := l_dim3 inv_latents in
       let height := l_dim4 inv_latents in
       let sample := merge_frames height width inv_latents in
       noise_null_pred ← lift (merge_like height width inv_latents noise_null_pred);
       let prev_sample := step_samples t noise_null_pred sample in
       inv_latents ← lift (unmerge_inferred bsz frames prev_sample);
       on_unet (fun u => use_last_self_attention u true);;
       mret (inv_latents, Some noise_null_pred)
     else mret (inv_latents, None));
  noise_pred ← forward latent_model_input t prompt_embeds;
  on_unet (fun u => use_last_self_attention u false);;
  noise_pred ←
    lift (match uncond with
          | Some (noise_pred_uncond, _) =>
              guide noise_pred_uncond guidance_scale noise_pred
          | None => Ok noise_pred
          end);
  let bsz := l_batch latents in
  let channel := l_chan latents in
  let width := l_dim3 latents in
  let height := l_dim4 latents in
  let sample := merge_frames width height latents in
  noise_pred ← lift (merge_like width height latents noise_pred);
  let prev_sample := step_samples t noise_pred sample in
  let latents := unmerge bsz channel width height prev_sample in
  mret {| out_latents := latents;
          out_inv_latents := inv_latents;
          out_noise_pred := noise_pred;
          out_noise_null_pred := noise_null_pred |}.

(** *** The latent optimizer *)

Definition learning_rate : R := rdiv rone (of_nat 1000).

Definition optimize_iteration (inv_latents : latent) (t : Timestep) (i : nat)
    (prompt_embeds : Cond) (noise_null_pred : latent) (j : nat)
    (latent_train : latent) (optimizer : Opt) : M (latent * Opt * latent) :=
  latent_in ← lift (cat_frames (detach (frames_range 0 1 inv_latents))
                      latent_train);
  let latent_input_unet := scale_model_input latent_in t in
  net ← (fun w => (Ok (w_unet w), w));
  noise_pred ← forward latent_input_unet t prompt_embeds;
  predicted ← lift (frame0 noise_pred);
  target ← lift (frame0 noise_null_pred);
  let loss := mse_loss predicted target in
  (* loss.backward(); optimizer.step(); optimizer.zero_grad() *)
  let grad := backward net latent_in t prompt_embeds target in
  let latent_train :=
    with_frames latent_train
      (imap (adam_update optimizer grad) (l_frames latent_train)) true in
  let optimizer := adam_next optimizer grad in
  emit (PrintIteration i j loss);;
  mret (latent_train, optimizer, latent_in).

(** [for j in range(10)]: [js] are the values of [j] still to run.  The
    loop leaves its variables behind: the trained frames, the optimizer,
    and [latent_in], unbound until the first iteration has run. *)
Fixpoint optimize_loop (inv_latents : latent) (t : Timestep) (i : nat)
    (prompt_embeds : Cond) (noise_null_pred : latent) (js : list nat)
    (latent_train : latent) (optimizer : Opt) (latent_in : option latent)
  : M (latent * Opt * option latent) :=
  match js with
  | [] => mret (latent_train, optimizer, latent_in)
  | j :: js' =>
      '(latent_train, optimizer, latent_in) ←
        optimize_iteration inv_latents t i prompt_embeds noise_null_pred j
          latent_train optimizer;
      optimize_loop inv_latents t i prompt_embeds noise_null_pred js'
        latent_train optimizer (Some latent_in)
  end.

Definition optimize_latents (latents inv_latents : latent) (t : Timestep)
    (i : nat) (null_embeds prompt_embeds : Cond) : M latent :=
  let inv_scaled := scale_model_input inv_latents t in
  noise_null_pred ← forward (frames_range 0 1 inv_scaled) t null_embeds;
  let latent_train := requires_grad_ (detach (frames_from 1 latents)) in
  let optimizer := adam_init learning_rate latent_train in
  '(_, _, latent_in) ←
    optimize_loop inv_latents t i prompt_embeds noise_null_pred
      (seq 0 10) latent_train optimizer None;
  match latent_in with
  | Some latent_in => mret (detach latent_in)
  | None => raise UnboundLocalError
  end.

(** *** The top-level sampling loop *)

Record call_args : Type := mkCallArgs {
  prompt : Prompt;
  height : option nat;
  width : option nat;
  a_num_frames : nat;
  num_inference_steps : nat;
  guidance_scale : R;
  negative_prompt : option Prompt;
  latents : option latent;
  inv_latents : option latent;
  prompt_embeds : option Cond;
  negative_prompt_embeds : option Cond;
  output_type : string;
  return_dict : bool;
  callback : bool;                (* whether a callback is supplied *)
  callback_steps : nat;
  lambda_ : R;
}.

(** [self.check_inputs], inherited from the library pipeline: it raises or
    returns. *)
Variable check_inputs : call_args -> nat -> nat -> result unit.

(** Python's [x or y] on an optional integer. *)
Definition or_default (x : option nat) (y : nat) : nat :=
  match x with
  | Some (S n) => S n
  | _ => y
  end.

(** Modelled from the spec: [prepare_latents] is inherited from the library
    pipeline and is not among the repository's files.  "Initialize/validate
    ... two latent buffers (random or caller-supplied)": a caller-supplied
    tensor is kept with the shape it has, a missing one is drawn at random
    with the requested shape (after the library's check of a list of
    generators against the batch size); either is scaled by the scheduler's
    initial noise sigma. *)
Definition prepare_latents (draw batch_size num_channels_latents nframes
    height width : nat) (supplied : option latent) : result latent :=
  match generator_len with
  | Some n => if n =? batch_size then Ok tt else Raise ValueError
  | None => Ok tt
  end;;
  let drawn :=
    match supplied with
    | None =>
        {| l_batch := batch_size; l_chan := num_channels_latents;
           l_dim3 := height / vae_scale_factor;
           l_dim4 := width / vae_scale_factor;
           l_frames := map (randn_slab draw) (seq 0 nframes);
           l_attached := false |}
    | Some given => given
    end in
  Ok (with_frames drawn (map init_noise_sigma (l_frames drawn)) false).

(** [latents = inv_latents * mask_in + latents * (1 - mask_in)], where
    [mask_in] has the shape of [latents], ones in frame 0 and zeros
    elsewhere; the operands are taken of one shape (broadcasting of
    singleton axes is not modelled). *)
Definition seed (inv_latents latents : latent) : result latent :=
  if same_shape inv_latents latents then
    Ok (with_frames latents
          (imap (fun f (vl : Slab * Slab) =>
                   let m := if f =? 0 then rone else rzero in
                   slab_add (slab_scale m vl.1) (slab_scale (rsub rone m) vl.2))
             (zip (l_frames inv_latents) (l_frames latents))) false)
  else Raise RuntimeError.

Definition iters_to_alter : list Z := [(-1)%Z].

Definition modulo (a b : nat) : result nat :=
  if b =? 0 then Raise ZeroDivisionError else Ok (a mod b).

(** One iteration of [for i, t in enumerate(timesteps)]. *)
Definition loop_body (a : call_args) (prompt_embeds negative_prompt_embeds
    null_embeds : Cond) (do_classifier_free_guidance : bool)
    (n_timesteps : nat) (num_warmup_steps : Z)
    (i : nat) (t : Timestep) (st : latent * latent) : M (latent * latent) :=
  let '(latents, inv_latents) := st in
  let curr_copy := max 1 (a_num_frames a - i) in
  let inv_latents := frames_to curr_copy inv_latents in
  latents ←
    (if bool_decide (Z.of_nat i ∈ iters_to_alter)
     then optimize_latents latents inv_latents t i null_embeds prompt_embeds
     else mret latents);
  output_dict ←
    call_network negative_prompt_embeds prompt_embeds latents inv_latents t i
      null_embeds do_classifier_free_guidance (guidance_scale a);
  let latents := out_latents output_dict in
  let inv_latents := out_inv_latents output_dict in
  update ←
    lift (if i =? n_timesteps - 1 then Ok true
          else if (num_warmup_steps <? Z.of_nat (i + 1))%Z then
            r ← modulo (i + 1) scheduler_order; Ok (r =? 0)
          else Ok false);
  (if update && callback a then
     r ← lift (modulo i (callback_steps a));
     if r =? 0 then
       step_idx ← lift (floordiv i scheduler_order);
       emit (CallbackCall step_idx t latents)
     else mret tt
   else mret tt);;
  mret (latents, inv_latents).

Fixpoint denoise_loop (a : call_args) (prompt_embeds negative_prompt_embeds
    null_embeds : Cond) (do_classifier_free_guidance : bool)
    (n_timesteps : nat) (num_warmup_steps : Z)
    (i : nat) (ts : list Timestep) (st : latent * latent)
  : M (latent * latent) :=
  match ts with
  | [] => mret st
  | t :: ts' =>
      st ← loop_body a prompt_embeds negative_prompt_embeds null_embeds
             do_classifier_free_guidance n_timesteps num_warmup_steps i t st;
      denoise_loop a prompt_embeds negative_prompt_embeds null_embeds
        do_classifier_free_guidance n_timesteps num_warmup_steps (S i) ts' st
  end.

Inductive video : Type :=
  | RawLatents (x : latent)
  | NpStack (frames : list Out)
  | PtStack (frames : list Out)
  | PilList (frames : list Out).

Definition tensor2vid (v : latent) (output_type : string) : result video :=
  let outputs :=
    map (fun batch_idx => postprocess v batch_idx output_type)
      (seq 0 (l_batch v)) in
  if String.eqb output_type "np" then
    match outputs with [] => Raise ValueError | _ => Ok (NpStack outputs) end
  else if String.eqb output_type "pt" then
    match outputs with [] => Raise RuntimeError | _ => Ok (PtStack outputs) end
  else if negb (String.eqb output_type "pil") then Raise ValueError
  else Ok (PilList outputs).

Inductive pipeline_output : Type :=
  | AsTuple (v : video)
  | TextToVideoSDPipelineOutput (frames : video).

(** Steps 8 and 9 of [__call__]: decode unless raw latents are asked for,
    then wrap the result. *)
Definition postprocessing (a : call_args) (latents : latent)
  : M pipeline_output :=
  v ← (if String.eqb (output_type a) "latent" then mret (RawLatents latents)
       else lift (tensor2vid (decode_latents latents) (output_type a)));
  if negb (return_dict a) then mret (AsTuple v)
  else mret (TextToVideoSDPipelineOutput v).

Definition pipeline_call (a : call_args) : M pipeline_output :=
  let height := or_default (height a) (sample_size * vae_scale_factor) in
  let width := or_default (width a) (sample_size * vae_scale_factor) in
  let num_images_per_prompt := 1 in
  lift (check_inputs a height width);;
  batch_size ←
    match inv_latents a with
    | Some v => mret (l_batch v)
    | None => raise AttributeError
    end;
  let do_classifier_free_guidance := rltb rone (guidance_scale a) in
  let negatives := replicate batch_size <$> negative_prompt a in
  let '(prompt_embeds, negative_prompt_embeds) :=
    encode_prompt (replicate batch_size (prompt a)) do_classifier_free_guidance
      negatives (prompt_embeds a) (negative_prompt_embeds a) in
  let '(null_embeds, negative_prompt_embeds) :=
    encode_prompt (replicate batch_size empty_prompt) do_classifier_free_guidance
      negatives None (Some negative_prompt_embeds) in
  let timesteps := timesteps_of (num_inference_steps a) in
  let num_channels_latents := in_channels in
  latents ←
    lift (prepare_latents 0 (batch_size * num_images_per_prompt)
            num_channels_latents (a_num_frames a) height width (latents a));
  inv_latents ←
    lift (prepare_latents 1 (batch_size * num_images_per_prompt)
            num_channels_latents (a_num_frames a) height width (inv_latents a));
  let num_warmup_steps :=
    (Z.of_nat (length timesteps)
     - Z.of_nat (num_inference_steps a * scheduler_order))%Z in
  on_unet init_attention_func;;
  emit (PrintText "Setup for Current Run");;
  emit (PrintText "----------------------");;
  emit (PrintPrompt (prompt a));;
  emit (PrintBatch batch_size);;
  emit (PrintFrames (n_frames latents));;
  emit (PrintLambda (lambda_ a));;
  on_unet (fun u => init_attention_params u (n_frames latents) (lambda_ a)
                      batch_size);;
  (* mask_in = torch.zeros(latents.shape); mask_in[:, :, 0, :, :] = 1 *)
  (if n_frames latents =? 0 then raise IndexError else mret tt);;
  (if l_batch latents =? l_batch inv_latents then mret tt
   else raise AssertionError);;
  let inv_latents := repeat_frames (a_num_frames a) inv_latents in
  latents ← lift (seed inv_latents latents);
  '(latents, inv_latents) ←
    denoise_loop a prompt_embeds negative_prompt_embeds null_embeds
      do_classifier_free_guidance (length timesteps) num_warmup_steps
      0 timesteps (latents, inv_latents);
  postprocessing a latents.

End Pipeline.

Arguments call_args : clear implicits.
Arguments world : clear implicits.
Arguments step_output : clear implicits.
Arguments event : clear implicits.

(** ** The generation-only step, in the specification's words

    "If [i > TAU_2]: skip inversion-branch denoising this step (returns
    [None] for its noise prediction)", the unconditional predictions being
    computed for both branches whenever guidance is enabled, and the
    generation branch denoised, guided and advanced one scheduler step. *)

Section GenerationOnly.
Context {R Slab Timestep Cond Prompt Opt Out : Type}.
Context `{Scalar R} `{!Collaborators R Slab Timestep Cond Prompt Opt Out}.

Definition generation_only_step (negative_prompt_embeds prompt_embeds : Cond)
    (latents inv_latents : latent Slab) (t : Timestep)
    (do_classifier_free_guidance : bool) (guidance_scale : R)
    (w : world R Slab Timestep Prompt)
  : result (step_output Slab) * world R Slab Timestep Prompt :=
  let x := scale_model_input latents t in
  let v := scale_model_input inv_latents t in
  (* unconditional predictions of both branches *)
  let '(uncond, net, calls) :=
    if do_classifier_free_guidance then
      let '(u, net1) := unet_forward (w_unet w) x t negative_prompt_embeds in
      let '(_, net2) := unet_forward net1 v t negative_prompt_embeds in
      (Some u, net2, 2 + w_forward_calls w)
    else (None, w_unet w, w_forward_calls w) in
  (* denoise the generation branch, then clear the use flags *)
  let '(c, net) := unet_forward net x t prompt_embeds in
  let w' := {| w_unet := use_last_self_attention net false;
               w_forward_calls := S calls;
               w_log := w_log w |} in
  (* guide *)
  match (match uncond with
         | Some u => guide u guidance_scale c
         | None => Ok c
         end) with
  | Raise e => (Raise e, w')
  | Ok guided =>
      (* advance one scheduler step, frame by frame *)
      match merge_like (l_dim3 latents) (l_dim4 latents) latents guided with
      | Raise e => (Raise e, w')
      | Ok noise =>
          (Ok {| out_latents :=
                   with_frames latents
                     (zip_with (scheduler_step t) (s_items noise)
                        (l_frames latents)) false;
                 out_inv_latents := inv_latents;
                 out_noise_pred := noise;
                 out_noise_null_pred := None |}, w')
      end
  end.

End GenerationOnly.

(** ** The gradient descent, in the specification's words

    "Detach all latent frames except frame 0 of the generation branch;
    treat them as trainable parameters; run a fixed 10-iteration
    gradient-descent loop (first-order adaptive optimizer, learning rate
    1e-3) minimizing mean-squared error between the generation branch's
    first-frame noise prediction (recomputed each iteration, conditioned
    on the positive prompt, latent frame 0 fixed from the inversion branch)
    and the target."  A state of the descent is the trainable frames, the
    optimizer and the network (whose memory cells every prediction may
    write); a step recomputes the prediction and updates the trainable
    frames and the optimizer with the gradient of the loss. *)

Section GradientDescent.
Context {R Slab Timestep Cond Prompt Opt Out : Type}.
Context `{Scalar R} `{!Collaborators R Slab Timestep Cond Prompt Opt Out}.

Record descent : Type := mkDescent {
  d_train : latent Slab;
  d_opt : Opt;
  d_net : network R;
}.

(** Frame 0 fixed from the inversion branch, then the trainable frames. *)
Definition descent_input (inv : latent Slab) (d : descent) : latent Slab :=
  with_frames inv (take 1 (l_frames inv) ++ l_frames (d_train d))
    (l_attached (d_train d)).

(** The noise prediction, recomputed from the current frames and
    conditioned on the positive prompt. *)
Definition descent_prediction (inv : latent Slab) (t : Timestep) (pe : Cond)
    (d : descent) : latent Slab * network R :=
  unet_forward (d_net d) (scale_model_input (descent_input inv d) t) t pe.

(** The mean-squared error between the first-frame prediction and the
    target. *)
Definition descent_loss (inv : latent Slab) (t : Timestep) (pe : Cond)
    (target : Slab) (d : descent) : option R :=
  (fun p => mse_loss p target) <$> head (l_frames (descent_prediction inv t pe d).1).

(** One step of the optimizer on the trainable frames. *)
Definition gradient_step (inv : latent Slab) (t : Timestep) (pe : Cond)
    (target : Slab) (d : descent) : descent :=
  let grad := backward (d_net d) (descent_input inv d) t pe target in
  {| d_train :=
       with_frames (d_train d)
         (imap (adam_update (d_opt d) grad) (l_frames (d_train d))) true;
     d_opt := adam_next (d_opt d) grad;
     d_net := (descent_prediction inv t pe d).2 |}.

End GradientDescent.

Arguments descent : clear implicits.

(** ** The logits, in the specification's words

    "for each frame index within the blend vector's length, replace the
    primary similarity at sequence-position 0 with
    [secondary_similarity_at_position_0 * blend_weight[frame_index]]":
    in the scores of every batch entry and head, row [i] is the frame
    index and column 0 the sequence position. *)

Section SpecLogits.
Context {R : Type} `{Scalar R}.

Definition spec_blend_matrix (primary secondary : matrix R) (d_l : row R)
  : matrix R :=
  imap (fun i prow =>
          if i <? length d_l then
            match prow with
            | _ :: rest =>
                rmul (nth 0 (nth i secondary []) rzero) (nth i d_l rzero) :: rest
            | [] => []
            end
          else prow) primary.

Definition spec_logits (query key k1 : tensor4 R) (d_l : row R)
    (scale_factor : R) : tensor4 R :=
  scale_by scale_factor
    (zip_with (zip_with (fun p s => spec_blend_matrix p s d_l))
       (similarity query key) (similarity query k1)).

End SpecLogits.

(** ** A stub of the collaborators over rationals

    Frames are single rationals; the network halves its input and leaves
    the memory cells alone; the scheduler subtracts the prediction. *)

Definition stub_unet (net : network Q) (x : latent Q) (t c : nat)
  : latent Q * network Q :=
  (with_frames x (map (fun s => s / 2)%Q (l_frames x)) false, net).

#[global] Instance stub : Collaborators Q Q nat nat string nat Q := {|
  scale_model_input := fun x _ => x;
  scheduler_step := fun _ noise sample => (sample - noise)%Q;
  timesteps_of := fun n => rev (seq 0 n);
  scheduler_order := 1;
  init_noise_sigma := fun s => s;
  unet_forward := stub_unet;
  sample_size := 2;
  in_channels := 4;
  vae_scale_factor := 1;
  slab_add := Qplus;
  slab_sub := Qminus;
  slab_scale := Qmult;
  mse_loss := fun a b => ((a - b) * (a - b))%Q;
  backward := fun _ x _ _ target =>
    with_frames x (map (fun s => s - target)%Q (drop 1 (l_frames x))) false;
  adam_init := fun _ _ => 0;
  adam_update := fun _ g f s => (s - nth f (l_frames g) 0 / 1000)%Q;
  adam_next := fun o _ => S o;
  empty_prompt := "";
  encode_prompt := fun ps _ _ _ _ => (1, 0);
  randn_slab := fun draw f => inject_Z (Z.of_nat (draw + f));
  generator_len := None;
  decode_latents := fun x => x;
  postprocess := fun x b _ => nth b (l_frames x) 0%Q;
|}.

Definition stub_network : network Q :=
  {| named_modules :=
       [("down_blocks.0.attentions.0.transformer_blocks.0.attn1", AttentionModule 0);
        ("down_blocks.0.attentions.0.transformer_blocks.0.attn1.to_q", OtherModule "Linear");
        ("down_blocks.0.attentions.0.transformer_blocks.0.attn2", AttentionModule 1);
        ("down_blocks.0.temp_attentions.0.transformer_blocks.0.attn1", AttentionModule 2)];
     processors := [fresh_processor; fresh_processor; fresh_processor];
     tensors := [] |}.

Definition stub_world : world Q Q nat string :=
  {| w_unet := stub_network; w_forward_calls := 0; w_log := [] |}.

Definition stub_latent (b : nat) (fs : list Q) : latent Q :=
  {| l_batch := b; l_chan := 4; l_dim3 := 2; l_dim4 := 2;
     l_frames := fs; l_attached := false |}.

Definition stub_args (lat inv : option (latent Q)) : call_args Q Q nat string :=
  {| prompt := "a cat"; height := None; width := None; a_num_frames := 3;
     num_inference_steps := 2; guidance_scale := 9%Q; negative_prompt := None;
     latents := lat; inv_latents := inv;
     prompt_embeds := None; negative_prompt_embeds := None;
     output_type := "latent"; return_dict := true; callback := false;
     callback_steps := 1; lambda_ := (1 # 2)%Q |}.

(** A cell whose flags are both set, with a cached slice, and a store
    holding the query, the key and the cached pair: two frames, so Case A. *)
Definition example_heap : heap Q :=
  [ mkTensor3 (1, 2, 2) [[[1; 2]; [3; 4]]]%Q;
    mkTensor3 (1, 2, 2) [[[5; 6]; [7; 8]]]%Q;
    mkTensor3 (1, 2, 2) [[[10; 20]; [30; 40]]]%Q;
    mkTensor3 (1, 2, 2) [[[50; 60]; [70; 80]]]%Q ].

Definition example_cell (slice : option (loc * loc)) (nf : nat) : processor Q :=
  {| last_attn_slice := slice;
     use_last_attn_slice := true;
     save_last_attn_slice := true;
     LAMBDA := (1 # 2)%Q;
     num_frames := Some nf;
     bs := 1 |}.

(** The processor objects the [Attention] modules refer to, in the order
    of [named_modules]; a processor is [held] by the modules [selected]
    when one of them refers to it. *)
Definition processor_refs (ms : list (string * module)) : list nat :=
  omap (fun nm : string * module =>
          match nm.2 with
          | AttentionModule p => Some p
          | OtherModule _ => None
          end) ms.

Definition held (selected : string -> bool) (ms : list (string * module))
    (p : nat) : Prop :=
  exists name, (name, AttentionModule p) ∈ ms /\ selected name = true.

(** ** The call site of the attention arithmetic

    Lines 126-151 of [AttnProcessor2_0.__call__]: the injection function,
    the split into heads, and the call of [scaled_dot_product_attention]
    with or without the secondary key and the blend weights. *)

Section ProcessorCall.
Context {R : Type} `{Scalar R}.
Variable inv_sqrt : nat -> R.
Variable neg_inf : R.
Variable softmax : row R -> row R.
Variable dropout : R -> tensor4 R -> tensor4 R.

(** [t.view(batch_size, -1, heads, head_dim).transpose(1, 2)] of a tensor
    (batch_size, L, heads * head_dim), as the projections of the module
    are; the result is (batch_size, heads, L, head_dim). *)
Definition split_heads (batch_size heads head_dim : nat) (t : Tensor3 R)
  : result (tensor4 R) :=
  if (shape0 t =? batch_size) && (shape2 t =? heads * head_dim) then
    Ok (map (fun m =>
               map (fun hd =>
                      map (fun r => take head_dim (drop (hd * head_dim) r)) m)
                 (seq 0 heads))
          (t_data t))
  else Raise RuntimeError.

Definition attention (self : processor R) (h : heap R) (heads batch_size : nat)
    (query key : loc) (value : Tensor3 R) (attention_mask : option (mask R))
  : result (tensor4 R * processor R * heap R) :=
  let inner_dim := shape2 (h !!! key) in
  head_dim ← floordiv inner_dim heads;
  '(out, self, h) ← get_qk self h query key;
  let '(query, key, d_l, k1) := out in
  query ← split_heads batch_size heads head_dim (h !!! query);
  key ← split_heads batch_size heads head_dim (h !!! key);
  value ← split_heads batch_size heads head_dim value;
  hidden_states ←
    match d_l with
    | Some d_l =>
        k1 ← match k1 with
             | Some k1 => split_heads batch_size heads head_dim k1
             | None => Raise AttributeError
             end;
        scaled_dot_product_attention inv_sqrt neg_inf softmax dropout
          query key value attention_mask rzero false None false
          (Some k1) (Some d_l)
    | None =>
        scaled_dot_product_attention inv_sqrt neg_inf softmax dropout
          query key value attention_mask rzero false None false None None
    end;
  Ok (hidden_states, self, h).

End ProcessorCall.

(** ** Shapes and entries of rank-4 tensors *)

Section Rank4.
Context {R : Type}.

(** [t] is a (B, Hd, L, S) tensor. *)
Definition shaped4 (B Hd L S : nat) (t : tensor4 R) : bool :=
  (length t =? B) &&
  forallb (fun t3 =>
    (length t3 =? Hd) &&
    forallb (fun m =>
      (length m =? L) && forallb (fun r : row R => length r =? S) m) t3) t.

(** [t[b, h, l, s]]. *)
Definition entry4 (t : tensor4 R) (b h l s : nat) : option R :=
  match t !! b with
  | Some t3 =>
      match t3 !! h with
      | Some m =>
          match m !! l with
          | Some r => r !! s
          | None => None
          end
      | None => None
      end
  | None => None
  end.

End Rank4.

(** ** What the theorems ask of the collaborators

    The network and the scheduler's input scaling are shape preserving
    ("denoise: shape-preserving map"). *)

Section Contracts.
Context {R Slab Timestep Cond Prompt Opt Out : Type}.
Context `{!Collaborators R Slab Timestep Cond Prompt Opt Out}.

Definition shape_preserving_unet : Prop :=
  forall net (x : latent Slab) (t : Timestep) (c : Cond),
    same_shape (unet_forward net x t c).1 x = true.

Definition shape_preserving_scaling : Prop :=
  forall (x : latent Slab) (t : Timestep),
    same_shape (scale_model_input x t) x = true.

End Contracts.

Definition positive_dims {Slab} (x : latent Slab) : Prop :=
  0 < l_batch x /\ 0 < l_chan x /\ 0 < l_dim3 x /\ 0 < l_dim4 x.

(** A [check_inputs] that accepts everything. *)
Definition stub_check (a : call_args Q Q nat string) (h w : nat) : result unit :=
  Ok tt.

(** One batch entry, one head, two frames, head_dim 1: the query, the key,
    the secondary key (the key with the cached frame-0 entry) and the blend
    weights [[1 + 50 * (i/50) for i in range(2)]]. *)
Definition example_query : tensor4 Q := [[[[1]; [2]]]]%Q.
Definition example_key : tensor4 Q := [[[[3]; [5]]]]%Q.
Definition example_k1 : tensor4 Q := [[[[7]; [5]]]]%Q.
Definition example_d_l : row Q := [1; 2]%Q.

(** ** Entries of rank-3 tensors

    [t[b, s, d]], and what it is for the nested lists of a tensor to have
    the sizes its shape tells. *)

Section Rank3.
Context {R : Type}.

Definition entry3 (t : Tensor3 R) (b s d : nat) : option R :=
  match t_data t !! b with
  | Some m =>
      match m !! s with
      | Some r => r !! d
      | None => None
      end
  | None => None
  end.

Definition well_shaped (t : Tensor3 R) : bool :=
  (length (t_data t) =? shape0 t) &&
  forallb (fun m =>
    (length m =? shape1 t) &&
    forallb (fun r : list R => length r =? shape2 t) m) (t_data t).

End Rank3.

(** ** More concrete inputs

    A store for a cross-attention call (the key has three positions, the
    query two); a cell that has captured a slice but was never given the
    parameters of a run; stand-ins over the rationals for the numeric
    primitives of the attention (no softmax, no dropout); a value tensor. *)

Definition example_cross_heap : heap Q :=
  [ mkTensor3 (1, 2, 2) [[[1; 2]; [3; 4]]]%Q;
    mkTensor3 (1, 3, 2) [[[5; 6]; [7; 8]; [9; 10]]]%Q;
    mkTensor3 (1, 2, 2) [[[10; 20]; [30; 40]]]%Q;
    mkTensor3 (1, 3, 2) [[[50; 60]; [70; 80]; [90; 100]]]%Q ].

Definition example_unset_cell : processor Q :=
  {| last_attn_slice := Some (2, 3);
     use_last_attn_slice := true;
     save_last_attn_slice := false;
     LAMBDA := 0%Q;
     num_frames := None;
     bs := 0 |}.

Definition stub_inv_sqrt (n : nat) : Q := 1%Q.
Definition stub_neg_inf : Q := (-1000)%Q.
Definition stub_softmax (r : row Q) : row Q := r.
Definition stub_dropout (p : Q) (t : tensor4 Q) : tensor4 Q := t.

Definition example_value : tensor4 Q := [[[[1; 0; 2]; [0; 1; 3]]]]%Q.

(** The arguments of [stub_args] with a callback, called every other
    step. *)
Definition stub_callback_args (lat inv : option (latent Q))
  : call_args Q Q nat string :=
  {| prompt := "a cat"; height := None; width := None; a_num_frames := 3;
     num_inference_steps := 2; guidance_scale := 9%Q; negative_prompt := None;
     latents := lat; inv_latents := inv;
     prompt_embeds := None; negative_prompt_embeds := None;
     output_type := "latent"; return_dict := true; callback := true;
     callback_steps := 2; lambda_ := (1 # 2)%Q |}.

(** * Properties *)

(** ** The injection function *)

Section InjectionFacts.
Context {R : Type} `{Scalar R}.
Implicit Types (self : processor R) (h : heap R).

Lemma bind_Ok {A B} (m : result A) (f : A -> result B) (b : B) :
  m ≫= f = Ok b -> exists a, m = Ok a /\ f a = Ok b.
Proof. destruct m as [a|e]; simpl; [eauto | discriminate]. Qed.

Lemma capture_set self query key :
  save_last_attn_slice self = true ->
  capture self query key =
    {| last_attn_slice := Some (query, key);
       use_last_attn_slice := use_last_attn_slice self;
       save_last_attn_slice := false;
       LAMBDA := LAMBDA self;
       num_frames := num_frames self;
       bs := bs self |}.
Proof. intros Hs. unfold capture. by rewrite Hs. Qed.

Lemma capture_unset self query key :
  save_last_attn_slice self = false -> capture self query key = self.
Proof. intros Hs. unfold capture. by rewrite Hs. Qed.

(** Whatever the injection does, [get_qk] hands back the two references it
    was given and leaves the cell as [capture] leaves it. *)
Lemma get_qk_returns self h query key out self' h' :
  get_qk self h query key = Ok (out, self', h') ->
  out.1.1.1 = query /\ out.1.1.2 = key /\ self' = capture self query key.
Proof.
  unfold get_qk. intros Hrun.
  apply bind_Ok in Hrun as ([[d k1] h1] & _ & Hret).
  by simplify_eq/=.
Qed.

(** With the use flag off nothing is injected and nothing can raise. *)
Lemma get_qk_capture_only self h query key :
  use_last_attn_slice self = false ->
  get_qk self h query key =
    Ok ((query, key, None, None), capture self query key, h).
Proof. intros Hu. unfold get_qk. by rewrite Hu. Qed.

(** Case A: the secondary key and the blend weights are produced. *)
Lemma get_qk_case_A self h query key ql kl n key1 :
  use_last_attn_slice self = true ->
  last_attn_slice self = Some (ql, kl) ->
  num_frames self = Some n ->
  shape1 (h !!! query) = n ->
  shape_eqb (h !!! query) (h !!! key) = true ->
  setitem (h !!! key) 0 (shape0 (h !!! key)) 1 (shape2 (h !!! kl))
    (slice1 1 (h !!! kl)) = Ok key1 ->
  get_qk self h query key =
    Ok ((query, key, Some (dynamic_lambda_of (LAMBDA self) n), Some key1),
        capture self query key, h).
Proof.
  intros Hu Hs Hn Hq Hqk Hset. unfold get_qk.
  rewrite Hu, Hs, Hn, Hqk, Hset. simpl.
  by rewrite Hq, Nat.eqb_refl.
Qed.

Lemma dynamic_lambda_of_lookup (lam : R) (n i : nat) :
  i < n ->
  dynamic_lambda_of lam n !! i
  = Some (radd rone (rmul lam (rdiv (of_nat i) (of_nat 50)))).
Proof.
  intros Hi. unfold dynamic_lambda_of.
  change (map ?f ?l) with (f <$> l).
  by rewrite list_lookup_fmap, lookup_seq_lt.
Qed.

(** C2. Whenever [get_qk] returns a blend weight vector, the vector is
    [[1 + LAMBDA * (i/50) for i in range(num_frames)]]: it has [num_frames]
    entries, entry [i] is [1 + LAMBDA * (i/50)], and it depends on nothing
    but [LAMBDA] and [num_frames]. *)
Theorem get_qk_blend_weights self h query key out self' h' d :
  get_qk self h query key = Ok (out, self', h') ->
  out.1.2 = Some d ->
  exists n,
    num_frames self = Some n /\
    d = dynamic_lambda_of (LAMBDA self) n /\
    length d = n /\
    forall i, i < n ->
      d !! i = Some (radd rone (rmul (LAMBDA self) (rdiv (of_nat i) (of_nat 50)))).
Proof.
  unfold get_qk. intros Hrun Hd.
  apply bind_Ok in Hrun as ([[d0 k1] h1] & Hinj & Hret).
  assert (d0 = Some d) as -> by by simplify_eq/=.
  clear Hret Hd.
  destruct (use_last_attn_slice self); [|discriminate].
  destruct (last_attn_slice self) as [[ql kl]|]; [|discriminate].
  apply bind_Ok in Hinj as ([d1 k2] & HA & HB).
  assert (d1 = Some d) as ->.
  { destruct (shape_eqb _ _ && _) in HB; [|by simplify_eq/=].
    apply bind_Ok in HB as (? & _ & HB). apply bind_Ok in HB as (? & _ & HB).
    apply bind_Ok in HB as (? & _ & HB). by simplify_eq/=. }
  clear HB.
  destruct (eq_num_frames _ _ && _) eqn:HcA; [|discriminate].
  apply bind_Ok in HA as (key1 & _ & HA).
  apply andb_prop in HcA as [Hnf _].
  destruct (num_frames self) as [n|]; [|discriminate].
  exists n. simplify_eq/=. split_and!; [done..| |].
  - unfold dynamic_lambda_of. by rewrite length_map, length_seq.
  - apply dynamic_lambda_of_lookup.
Qed.

(** C3. A call with the save flag set that returns leaves the flag cleared
    and the cell caching the very pair [(query, key)] it was called with,
    whatever slice the cell held before; the other attributes of the cell
    are untouched, and the references are handed back. *)
Theorem get_qk_single_shot_save self h query key out self' h' :
  save_last_attn_slice self = true ->
  get_qk self h query key = Ok (out, self', h') ->
  save_last_attn_slice self' = false /\
  last_attn_slice self' = Some (query, key) /\
  out.1.1.1 = query /\ out.1.1.2 = key /\
  use_last_attn_slice self' = use_last_attn_slice self /\
  LAMBDA self' = LAMBDA self /\
  num_frames self' = num_frames self /\
  bs self' = bs self.
Proof.
  intros Hsave Hrun.
  apply get_qk_returns in Hrun as (Hq & Hk & ->).
  by rewrite capture_set.
Qed.

(** C6. On a cell without a cached slice [get_qk] returns
    [(query, key, None, None)] and the store is unchanged, whatever the two
    flags are. *)
Theorem get_qk_without_slice self h query key :
  last_attn_slice self = None ->
  get_qk self h query key =
    Ok ((query, key, None, None), capture self query key, h).
Proof.
  intros Hnone. unfold get_qk. rewrite Hnone.
  by destruct (use_last_attn_slice self).
Qed.

End InjectionFacts.

Lemma get_qk_blend_weights_witness :
  exists n,
    num_frames (example_cell (Some (2, 3)) 2) = Some n /\
    dynamic_lambda_of (1 # 2)%Q 2 = dynamic_lambda_of (1 # 2)%Q n /\
    length (dynamic_lambda_of (1 # 2)%Q 2) = n /\
    forall i, i < n ->
      dynamic_lambda_of (1 # 2)%Q 2 !! i
      = Some (1 + (1 # 2) * (inject_Z (Z.of_nat i) / inject_Z 50))%Q.
Proof.
  assert (get_qk (example_cell (Some (2, 3)) 2) example_heap 0 1
          = Ok ((0, 1, Some (dynamic_lambda_of (1 # 2)%Q 2),
                 Some (mkTensor3 (1, 2, 2) [[[50; 60]; [7; 8]]]%Q)),
                capture (example_cell (Some (2, 3)) 2) 0 1, example_heap))
    as Hrun by (vm_compute; reflexivity).
  exact (get_qk_blend_weights _ _ _ _ _ _ _ _ Hrun eq_refl).
Defined.

Lemma get_qk_single_shot_save_witness :
  exists out self' h',
    get_qk (example_cell (Some (2, 3)) 5) example_heap 0 1 = Ok (out, self', h') /\
    save_last_attn_slice self' = false /\
    last_attn_slice self' = Some (0, 1).
Proof.
  assert (get_qk (example_cell (Some (2, 3)) 5) example_heap 0 1
          = Ok ((0, 1, None, None),
                capture (example_cell (Some (2, 3)) 5) 0 1,
                <[0 := mkTensor3 (1, 2, 2) [[[10; 20]; [30; 40]]]%Q]> example_heap))
    as Hrun by (vm_compute; reflexivity).
  eexists _, _, _. split; [exact Hrun|].
  pose proof (get_qk_single_shot_save (example_cell (Some (2, 3)) 5)
                _ _ _ _ _ _ eq_refl Hrun) as (Hs & Hl & _).
  exact (conj Hs Hl).
Defined.

Lemma get_qk_without_slice_witness :
  get_qk (example_cell None 2) example_heap 0 1 =
    Ok ((0, 1, None, None), capture (example_cell None 2) 0 1, example_heap).
Proof. apply (get_qk_without_slice (example_cell None 2)). reflexivity. Defined.

(** ** The attention logits *)

Section LogitsFacts.
Context {R : Type} `{Scalar R}.

Lemma shaped4_spec B Hd L S (t : tensor4 R) :
  shaped4 B Hd L S t = true ->
  length t = B /\
  forall t3, t3 ∈ t -> length t3 = Hd /\
  forall m, m ∈ t3 -> length m = L /\
  forall r, r ∈ m -> length r = S.
Proof.
  unfold shaped4. rewrite andb_true_iff, Nat.eqb_eq, forallb_forall.
  intros [Hlen Hsh]. split; [done|].
  intros t3 Ht3. apply list_elem_of_In, Hsh in Ht3.
  rewrite andb_true_iff, Nat.eqb_eq, forallb_forall in Ht3.
  destruct Ht3 as [H3 Hm]. split; [done|].
  intros m Hm'. apply list_elem_of_In, Hm in Hm'.
  rewrite andb_true_iff, Nat.eqb_eq, forallb_forall in Hm'.
  destruct Hm' as [Hl Hr]. split; [done|].
  intros r Hr'. apply list_elem_of_In, Hr in Hr'. by apply Nat.eqb_eq.
Qed.

Lemma shaped4_intro B Hd L S (t : tensor4 R) :
  length t = B ->
  (forall t3, t3 ∈ t -> length t3 = Hd /\
   forall m, m ∈ t3 -> length m = L /\
   forall r, r ∈ m -> length r = S) ->
  shaped4 B Hd L S t = true.
Proof.
  intros Hlen Hsh. unfold shaped4.
  rewrite andb_true_iff, Nat.eqb_eq, forallb_forall. split; [done|].
  intros t3 Ht3. apply list_elem_of_In, Hsh in Ht3 as [H3 Hm].
  rewrite andb_true_iff, Nat.eqb_eq, forallb_forall. split; [done|].
  intros m Hm'. apply list_elem_of_In, Hm in Hm' as [Hl Hr].
  rewrite andb_true_iff, Nat.eqb_eq, forallb_forall. split; [done|].
  intros r Hr'. apply list_elem_of_In, Hr in Hr'. by apply Nat.eqb_eq.
Qed.

Lemma bget_lookup (v : list R) (i : nat) (x : R) :
  v !! i = Some x -> bget v i = x.
Proof.
  intros Hi. unfold bget.
  destruct v as [|y [|z v]].
  - done.
  - destruct i; simpl in Hi; [by simplify_eq | done].
  - by apply nth_lookup_Some with (d := rzero) in Hi.
Qed.

Lemma shaped4_sizes B Hd L S (t : tensor4 R) :
  0 < B -> 0 < Hd -> 0 < L -> shaped4 B Hd L S t = true ->
  size_m3 t = Hd /\ size_m2 t = L /\ size_m1 t = S.
Proof.
  intros HB HH HL (Hlen & Hsh)%shaped4_spec.
  unfold size_m3, size_m2, size_m1.
  destruct t as [|t3 t]; [simpl in Hlen; lia|]. simpl.
  destruct (Hsh t3) as (H3 & Hm); [left|].
  destruct t3 as [|m t3]; [simpl in H3; lia|]. simpl.
  destruct (Hm m) as (Hl & Hr); [left|].
  destruct m as [|r m]; [simpl in Hl; lia|]. simpl.
  split_and!; [done..|]. apply Hr. left.
Qed.

Lemma blend_row_lookup (k1row d_l : list R) (S s : nat) x y :
  length k1row = S -> length d_l = S ->
  k1row !! s = Some x -> d_l !! s = Some y ->
  blend_row k1row d_l S S !! s = Some (rmul x y).
Proof.
  intros Hk Hd Hx Hy. unfold blend_row.
  assert (s < S) as Hs by (rewrite <- Hk; by eapply lookup_lt_Some).
  change (map ?f ?l) with (f <$> l).
  rewrite list_lookup_fmap, lookup_seq_lt by done. simpl. f_equal.
  apply bget_lookup.
  rewrite list_lookup_fmap, lookup_seq_lt by done. simpl.
  by rewrite (bget_lookup _ _ _ Hx), (bget_lookup _ _ _ Hy).
Qed.


Lemma blend_head_lookup (S : nat) (d_l : list R) (w k : list (list R)) (l : nat) :
  blend_head S S d_l w k !! l =
  if l =? 0 then (fun _ => blend_row (hd [] k) d_l S S) <$> w !! 0 else w !! l.
Proof.
  unfold blend_head. destruct w as [|w0 w]; destruct l; done.
Qed.

Lemma blend_heads_lookup (S : nat) (d_l : list R) (w k : list (list (list R))) (h : nat) :
  length w = length k ->
  blend_heads S S d_l w k !! h =
  if h <? length d_l
  then match w !! h, k !! h with
       | Some wm, Some km => Some (blend_head S S d_l wm km)
       | _, _ => None
       end
  else w !! h.
Proof.
  intros Hlen. unfold blend_heads. cbv zeta.
  destruct (h <? length d_l) eqn:Hh.
  - apply Nat.ltb_lt in Hh.
    destruct (decide (h < length w)) as [Hw|Hw].
    + rewrite lookup_app_l by (rewrite length_zip_with, !length_take; lia).
      rewrite lookup_zip_with, !lookup_take_lt by done.
      destruct (w !! h); simpl; [|done]. by destruct (k !! h).
    + rewrite lookup_ge_None_2.
      * rewrite (lookup_ge_None_2 w) by lia. done.
      * rewrite length_app, length_zip_with, !length_take, length_drop. lia.
  - apply Nat.ltb_ge in Hh.
    destruct (decide (length d_l <= length w)) as [Hw|Hw].
    + rewrite lookup_app_r by (rewrite length_zip_with, !length_take; lia).
      rewrite length_zip_with, !length_take, lookup_drop. f_equal. lia.
    + rewrite lookup_ge_None_2.
      * rewrite (lookup_ge_None_2 w) by lia. done.
      * rewrite length_app, length_zip_with, !length_take, length_drop. lia.
Qed.


Lemma shaped4_lookup B Hd L S (t : list (list (list (list R)))) b h l :
  shaped4 B Hd L S t = true -> b < B -> h < Hd -> l < L ->
  exists t3 m r, t !! b = Some t3 /\ t3 !! h = Some m /\ m !! l = Some r /\
                 length t3 = Hd /\ length m = L /\ length r = S.
Proof.
  intros (Hlen & Hsh)%shaped4_spec Hb Hh Hl.
  destruct (lookup_lt_is_Some_2 t b) as [t3 Ht3]; [lia|].
  destruct (Hsh t3) as (H3 & Hm); [by eapply list_elem_of_lookup_2|].
  destruct (lookup_lt_is_Some_2 t3 h) as [m Hm']; [lia|].
  destruct (Hm m) as (Hml & Hr); [by eapply list_elem_of_lookup_2|].
  destruct (lookup_lt_is_Some_2 m l) as [r Hr']; [lia|].
  exists t3, m, r. split_and!; try done.
  apply Hr. by eapply list_elem_of_lookup_2.
Qed.

Lemma assign_blend_entries B Hd L S (W K : list (list (list (list R)))) (d_l : list R) :
  0 < B -> 0 < Hd -> 0 < L ->
  shaped4 B Hd L S W = true -> shaped4 B Hd L S K = true ->
  length d_l = S ->
  exists W',
    assign_blend W K d_l = Ok W' /\
    forall b h l s, b < B -> h < Hd -> l < L -> s < S ->
      entry4 W' b h l s =
      if (h <? S) && (l =? 0)
      then match entry4 K b h 0 s, d_l !! s with
           | Some x, Some y => Some (rmul x y)
           | _, _ => None
           end
      else entry4 W b h l s.
Proof.
  intros HB HH HL HW HK Hdl.
  destruct (shaped4_sizes B Hd L S W) as (W3 & W2 & W1); [done..|].
  destruct (shaped4_sizes B Hd L S K) as (K3 & K2 & K1); [done..|].
  unfold assign_blend. rewrite W3, W2, W1, K3, K2, K1, Hdl.
  assert ((L =? 0) = false) as -> by (apply Nat.eqb_neq; lia).
  unfold broadcast, expandable. rewrite ?Nat.eqb_refl. simpl. rewrite ?Nat.eqb_refl. simpl.
  eexists. split; [done|].
  intros b h l s Hb Hh Hl Hs.
  destruct (shaped4_lookup B Hd L S W b h l HW) as (w3 & wm & wr & Hw3 & Hwm & Hwr & Lw3 & Lwm & Lwr); [done..|].
  destruct (shaped4_lookup B Hd L S K b h 0 HK) as (k3 & km & kr & Hk3 & Hkm & Hkr & Lk3 & Lkm & Lkr); [done..|].
  unfold entry4 at 1.
  rewrite lookup_zip_with, Hw3, Hk3. simpl.
  rewrite blend_heads_lookup by lia. rewrite Hdl.
  unfold entry4. rewrite Hw3, Hk3, Hwm, Hkm, Hkr, Hwr.
  destruct (h <? S) eqn:HhS; simpl; [|by rewrite Hwr].
  rewrite blend_head_lookup.
  destruct (l =? 0) eqn:Hl0; [|by rewrite Hwr].
  destruct (lookup_lt_is_Some_2 wm 0) as [w0 Hw0]; [lia|].
  rewrite Hw0. simpl.
  destruct (lookup_lt_is_Some_2 kr s) as [x Hx]; [lia|].
  destruct (lookup_lt_is_Some_2 d_l s) as [y Hy]; [lia|].
  rewrite Hx, Hy.
  apply blend_row_lookup; try done.
  - destruct km as [|k0 km']; [simpl in Lkm; lia|]. simpl in *. by simplify_eq.
  - destruct km as [|k0 km']; [simpl in Lkm; lia|]. simpl in *. by simplify_eq.
Qed.

Lemma shaped4_similarity B Hd L S D (q k : list (list (list (list R)))) :
  shaped4 B Hd L D q = true -> shaped4 B Hd S D k = true ->
  shaped4 B Hd L S (similarity q k) = true.
Proof.
  intros (Hq & Hqs)%shaped4_spec (Hk & Hks)%shaped4_spec.
  unfold similarity. apply shaped4_intro.
  - rewrite length_zip_with. lia.
  - intros t3 Ht3. apply elem_of_zip_with in Ht3 as (q3 & k3 & -> & Hq3 & Hk3).
    destruct (Hqs q3 Hq3) as (Lq3 & Hqm). destruct (Hks k3 Hk3) as (Lk3 & Hkm).
    split; [rewrite length_zip_with; lia|].
    intros m Hm. apply elem_of_zip_with in Hm as (qm & km & -> & Hqm' & Hkm').
    destruct (Hqm qm Hqm') as (Lqm & _). destruct (Hkm km Hkm') as (Lkm & _).
    unfold matmul_T. split; [by rewrite length_map|].
    intros r Hr. apply list_elem_of_fmap in Hr as (qi & -> & _).
    by rewrite length_map.
Qed.

Lemma entry4_scale_by (sf : R) (t : list (list (list (list R)))) b h l s :
  entry4 (scale_by sf t) b h l s = (fun v => rmul v sf) <$> entry4 t b h l s.
Proof.
  unfold entry4, scale_by.
  change (map ?f ?l) with (f <$> l).
  rewrite list_lookup_fmap. destruct (t !! b) as [t3|]; simpl; [|done].
  change (map ?f ?l) with (f <$> l).
  rewrite list_lookup_fmap. destruct (t3 !! h) as [m|]; simpl; [|done].
  change (map ?f ?l) with (f <$> l).
  rewrite list_lookup_fmap. destruct (m !! l) as [r|]; simpl; [|done].
  change (map ?f ?l) with (f <$> l).
  by rewrite list_lookup_fmap.
Qed.

(** What the code computes on the rank-4 operands of the call site, of
    shapes (B, Hd, L, D) for the query and (B, Hd, S, D) for the two keys,
    with [len(d_l) = S]: the logit of head [h], query position [l] and key
    position [s] is the scaled secondary similarity of query position 0
    times [d_l[s]] when [h < len(d_l)] and [l = 0], and the scaled primary
    similarity otherwise. *)
Theorem attn_logits_entries B Hd L S D (query key k1 : list (list (list (list R))))
    (d_l : list R) (sf : R) :
  0 < B -> 0 < Hd -> 0 < L ->
  shaped4 B Hd L D query = true -> shaped4 B Hd S D key = true ->
  shaped4 B Hd S D k1 = true ->
  length d_l = S ->
  exists w,
    attn_logits query key (Some k1) (Some d_l) sf = Ok w /\
    forall b h l s, b < B -> h < Hd -> l < L -> s < S ->
      entry4 w b h l s =
      (fun v => rmul v sf) <$>
        (if (h <? S) && (l =? 0)
         then match entry4 (similarity query k1) b h 0 s, d_l !! s with
              | Some x, Some y => Some (rmul x y)
              | _, _ => None
              end
         else entry4 (similarity query key) b h l s).
Proof.
  intros HB HH HL Hq Hk Hk1 Hdl. unfold attn_logits.
  destruct (assign_blend_entries B Hd L S (similarity query key)
              (similarity query k1) d_l) as (W' & -> & Hent); try done.
  - by eapply shaped4_similarity.
  - by eapply shaped4_similarity.
  - simpl. eexists. split; [done|].
    intros b h l s Hb Hh Hl Hs. rewrite entry4_scale_by. f_equal. by apply Hent.
Qed.
End LogitsFacts.

(** ** The flag toggles *)

Section NetworkFacts.
Context {R : Type} `{Scalar R}.
Implicit Types (unet : network R) (ps : list (processor R)).

Lemma visit_other selected f ps nm p :
  (forall name, nm = (name, AttentionModule p) -> selected name = false) ->
  visit selected f ps nm !! p = ps !! p.
Proof.
  intros Hsel. destruct nm as [name [q|c]]; unfold visit; simpl; [|done].
  destruct (selected name) eqn:Hs; [|done].
  destruct (decide (q = p)) as [->|Hne].
  - specialize (Hsel name eq_refl). congruence.
  - by apply list_lookup_alter_ne.
Qed.

Lemma foldl_visit_other selected f ms ps p :
  ~ held selected ms p ->
  foldl (visit selected f) ps ms !! p = ps !! p.
Proof.
  revert ps. induction ms as [|nm ms IH]; intros ps Hsel; [done|].
  simpl. rewrite IH.
  - apply visit_other. intros name ->.
    destruct (selected name) eqn:Hs; [|done].
    destruct Hsel. exists name. split; [left | done].
  - intros (name & Hin & Hs). apply Hsel. exists name. split; [by right | done].
Qed.

Lemma visit_cases selected f ps nm p :
  visit selected f ps nm !! p = ps !! p \/
  visit selected f ps nm !! p = f <$> ps !! p.
Proof.
  destruct nm as [name [q|c]]; unfold visit; simpl; [|by left].
  destruct (selected name); [|by left].
  destruct (decide (q = p)) as [->|Hne].
  - right. apply list_lookup_alter_eq.
  - left. by apply list_lookup_alter_ne.
Qed.

Lemma foldl_visit_cases selected f ms ps p :
  (forall x, f (f x) = f x) ->
  foldl (visit selected f) ps ms !! p = ps !! p \/
  foldl (visit selected f) ps ms !! p = f <$> ps !! p.
Proof.
  intros Hidem. revert ps. induction ms as [|nm ms IH]; intros ps; [by left|].
  simpl. destruct (IH (visit selected f ps nm)) as [-> | ->];
    destruct (visit_cases selected f ps nm p) as [-> | ->]; auto.
  right. destruct (ps !! p); simpl; [by rewrite Hidem | done].
Qed.

(** A processor held by a selected module ends up updated. *)
Lemma foldl_visit_held selected f ms ps p :
  (forall x, f (f x) = f x) ->
  held selected ms p ->
  foldl (visit selected f) ps ms !! p = f <$> ps !! p.
Proof.
  intros Hidem (name & Hin & Hs). revert ps.
  induction ms as [|nm ms IH]; intros ps; [by apply elem_of_nil in Hin|].
  simpl. apply elem_of_cons in Hin as [<- | Hin].
  - unfold visit at 2. simpl. rewrite Hs.
    destruct (foldl_visit_cases selected f ms (alter f p ps) p Hidem) as [-> | ->];
      rewrite list_lookup_alter_eq; [done|].
    destruct (ps !! p); simpl; [by rewrite Hidem | done].
  - rewrite (IH Hin).
    destruct (visit_cases selected f ps nm p) as [-> | ->]; [done|].
    destruct (ps !! p); simpl; [by rewrite Hidem | done].
Qed.

Lemma elem_of_processor_refs ms name p :
  (name, AttentionModule p) ∈ ms -> p ∈ processor_refs ms.
Proof.
  intros Hin. unfold processor_refs. apply list_elem_of_omap.
  by exists (name, AttentionModule p).
Qed.

(** When every [Attention] module has a processor object of its own, a
    processor is held under one name only. *)
Lemma own_processor_one_name ms name name' p :
  NoDup (processor_refs ms) ->
  (name, AttentionModule p) ∈ ms -> (name', AttentionModule p) ∈ ms ->
  name = name'.
Proof.
  induction ms as [|[n [q|c]] ms IH]; intros Hnd H1 H2.
  - by apply elem_of_nil in H1.
  - unfold processor_refs in Hnd. simpl in Hnd.
    apply NoDup_cons in Hnd as [Hq Hnd].
    apply elem_of_cons in H1 as [H1|H1]; apply elem_of_cons in H2 as [H2|H2].
    + congruence.
    + simplify_eq. destruct Hq. by eapply elem_of_processor_refs.
    + simplify_eq. destruct Hq. by eapply elem_of_processor_refs.
    + by apply IH.
  - unfold processor_refs in Hnd. simpl in Hnd.
    apply elem_of_cons in H1 as [H1|H1]; [discriminate|].
    apply elem_of_cons in H2 as [H2|H2]; [discriminate|].
    by apply IH.
Qed.

Lemma set_use_idem (b : bool) (x : processor R) :
  set_use b (set_use b x) = set_use b x.
Proof. done. Qed.

Lemma set_save_idem (b : bool) (x : processor R) :
  set_save b (set_save b x) = set_save b x.
Proof. done. Qed.

(** What [init_attention_func] installs: fresh processor objects, one per
    [Attention] module. *)
Lemma install_refs ms ps ms' ps' :
  install ms ps = (ms', ps') ->
  length ps <= length ps' /\
  NoDup (processor_refs ms') /\
  forall p, p ∈ processor_refs ms' -> length ps <= p < length ps'.
Proof.
  revert ps ms' ps'. induction ms as [|[n [q|c]] ms IH]; intros ps ms' ps' Hi.
  - simpl in Hi. simplify_eq. split_and!; [done | constructor |].
    intros p Hp. by apply elem_of_nil in Hp.
  - simpl in Hi. destruct (install ms (ps ++ [fresh_processor])) as [ms'' ps'']
      eqn:Hrec. simplify_eq.
    apply IH in Hrec as (Hlen & Hnd & Hrange).
    rewrite length_app in Hlen. simpl in Hlen.
    split_and!; [lia | |].
    + unfold processor_refs. simpl. apply NoDup_cons. split; [|done].
      intros Hin. apply Hrange in Hin. rewrite length_app in Hin. simpl in Hin. lia.
    + intros p Hp. unfold processor_refs in Hp. simpl in Hp.
      apply elem_of_cons in Hp as [-> | Hp]; [lia|].
      apply Hrange in Hp. rewrite length_app in Hp. simpl in Hp. lia.
  - simpl in Hi. destruct (install ms ps) as [ms'' ps''] eqn:Hrec. simplify_eq.
    apply IH in Hrec as (Hlen & Hnd & Hrange). done.
Qed.

(** After [init_attention_func] no two [Attention] modules share a
    processor object: each got a [AttnProcessor2_0()] of its own. *)
Lemma init_attention_func_own_processors unet :
  NoDup (processor_refs (named_modules (init_attention_func unet))).
Proof.
  unfold init_attention_func.
  destruct (install (named_modules unet) (processors unet)) as [ms ps] eqn:Hi.
  simpl. by apply install_refs in Hi as (_ & Hnd & _).
Qed.

(** C10. In a network whose [Attention] modules each have a processor
    object of their own (as [init_attention_func] leaves it), take an
    [Attention] module that is not identified as self-attention (its name
    does not contain "attn1"): after [use_last_self_attention] and after
    [save_last_self_attention] its processor is exactly what it was.  The
    two calls change nothing but processors: the modules and the tensors
    are the same, and every processor is either as before or as before
    with the one flag set to the argument. *)
Theorem flag_toggles_spare_cross_attention unet (b : bool) name p :
  NoDup (processor_refs (named_modules unet)) ->
  (name, AttentionModule p) ∈ named_modules unet ->
  contains "attn1" name = false ->
  processors (use_last_self_attention unet b) !! p = processors unet !! p /\
  processors (save_last_self_attention unet b) !! p = processors unet !! p /\
  named_modules (use_last_self_attention unet b) = named_modules unet /\
  named_modules (save_last_self_attention unet b) = named_modules unet /\
  tensors (use_last_self_attention unet b) = tensors unet /\
  tensors (save_last_self_attention unet b) = tensors unet /\
  (forall q,
     processors (use_last_self_attention unet b) !! q = processors unet !! q \/
     processors (use_last_self_attention unet b) !! q
       = set_use b <$> processors unet !! q) /\
  (forall q,
     processors (save_last_self_attention unet b) !! q = processors unet !! q \/
     processors (save_last_self_attention unet b) !! q
       = set_save b <$> processors unet !! q).
Proof.
  intros Hown Hin Hname.
  assert (~ held (contains "attn1") (named_modules unet) p) as Hfree.
  { intros (name' & Hin' & Hs).
    rewrite (own_processor_one_name _ _ _ _ Hown Hin Hin') in Hname. congruence. }
  unfold use_last_self_attention, save_last_self_attention, update_processors.
  simpl. split_and!; try done.
  - by apply foldl_visit_other.
  - by apply foldl_visit_other.
  - intros q. apply foldl_visit_cases, set_use_idem.
  - intros q. apply foldl_visit_cases, set_save_idem.
Qed.

(** The self-attention modules do get their flag. *)
Lemma flag_toggles_reach_self_attention unet (b : bool) name p :
  (name, AttentionModule p) ∈ named_modules unet ->
  contains "attn1" name = true ->
  processors (use_last_self_attention unet b) !! p
    = set_use b <$> processors unet !! p /\
  processors (save_last_self_attention unet b) !! p
    = set_save b <$> processors unet !! p.
Proof.
  intros Hin Hname.
  unfold use_last_self_attention, save_last_self_attention, update_processors.
  simpl. split.
  - apply foldl_visit_held; [apply set_use_idem | by exists name].
  - apply foldl_visit_held; [apply set_save_idem | by exists name].
Qed.

End NetworkFacts.

Lemma flag_toggles_spare_cross_attention_witness :
  processors (use_last_self_attention (init_attention_func stub_network) true) !! 4
    = processors (init_attention_func stub_network) !! 4 /\
  processors (save_last_self_attention (init_attention_func stub_network) true) !! 4
    = processors (init_attention_func stub_network) !! 4.
Proof.
  assert (NoDup (processor_refs (named_modules (init_attention_func stub_network))))
    as Hown by (apply (bool_decide_unpack _); vm_compute; exact I).
  pose proof (flag_toggles_spare_cross_attention
                (init_attention_func stub_network) true
                "down_blocks.0.attentions.0.transformer_blocks.0.attn2" 4
                Hown) as Hspare.
  destruct Hspare as (Hu & Hs & _).
  - vm_compute. right. right. left.
  - reflexivity.
  - exact (conj Hu Hs).
Defined.

(** ** Latents *)

Section LatentFacts.
Context {Slab : Type}.
Implicit Types x y z : latent Slab.

Lemma same_dims_spec x y :
  same_dims x y = true <->
  l_batch x = l_batch y /\ l_chan x = l_chan y /\ l_dim3 x = l_dim3 y /\ l_dim4 x = l_dim4 y.
Proof.
  unfold same_dims. rewrite !andb_true_iff, !Nat.eqb_eq. tauto.
Qed.

Lemma same_shape_spec x y :
  same_shape x y = true <-> same_dims x y = true /\ n_frames x = n_frames y.
Proof. unfold same_shape. by rewrite andb_true_iff, Nat.eqb_eq. Qed.

Lemma same_shape_sym x y : same_shape x y = true -> same_shape y x = true.
Proof.
  rewrite !same_shape_spec, !same_dims_spec. intuition congruence.
Qed.

Lemma same_shape_trans x y z :
  same_shape x y = true -> same_shape y z = true -> same_shape x z = true.
Proof.
  rewrite !same_shape_spec, !same_dims_spec. intuition congruence.
Qed.
End LatentFacts.

(** ** The step driver, the optimizer and the sampling loop *)

Section PipelineFacts.
Context {R Slab Timestep Cond Prompt Opt Out : Type}.
Context `{Scalar R} `{!Collaborators R Slab Timestep Cond Prompt Opt Out}.
Implicit Types (w : world R Slab Timestep Prompt) (x y : latent Slab).

Ltac run :=
  unfold mbind, M_bind, mret, M_ret, forward, on_unet, lift, emit, raise; simpl.

Lemma guide_ok (u c : latent Slab) (s : R) :
  same_shape u c = true ->
  exists g, guide u s c = Ok g /\ same_shape g u = true.
Proof.
  intros Hs. unfold guide. rewrite Hs. eexists. split; [done|].
  apply same_shape_spec in Hs as [Hd Hn].
  apply same_shape_spec. split.
  - apply same_dims_spec. done.
  - unfold n_frames in *. simpl. rewrite length_zip_with. lia.
Qed.

(** With shape-preserving collaborators the step driver returns, and the
    inversion branch keeps its frame count. *)
Lemma call_network_ok neg pos (lat inv : latent Slab) (t : Timestep) i null
    cfg (gs : R) w :
  shape_preserving_unet -> shape_preserving_scaling ->
  positive_dims inv -> 0 < n_frames inv ->
  exists out w',
    call_network neg pos lat inv t i null cfg gs w = (Ok out, w') /\
    n_frames (out_inv_latents out) = n_frames inv /\
    positive_dims (out_inv_latents out) /\
    w_forward_calls w < w_forward_calls w'.
Proof.
  intros Hunet Hscale Hpos Hn.
  assert (forall net x c,
            same_shape (unet_forward net (scale_model_input x t) t c).1 x = true)
    as Hpred.
  { intros net x c. eapply same_shape_trans; [apply Hunet | apply Hscale]. }
  assert ((l_batch inv * n_frames inv * l_chan inv * l_dim4 inv * l_dim3 inv =? 0)
          = false) as Hnumel.
  { destruct Hpos as (Hb & Hch & H3 & H4). apply Nat.eqb_neq.
    repeat (apply Nat.neq_mul_0; split); lia. }
  assert (l_batch inv * n_frames inv * l_chan inv / (l_batch inv * n_frames inv)
          = l_chan inv) as Hchan.
  { destruct Hpos as (Hb & Hch & H3 & H4).
    rewrite (Nat.mul_comm _ (l_chan inv)), Nat.div_mul; [done|].
    apply Nat.neq_mul_0; split; lia. }
  unfold call_network, merge_like, unmerge_inferred. run.
  destruct cfg; simpl.
  - pose proof (Hpred (w_unet w) lat neg) as Hu.
    destruct (unet_forward (w_unet w) _ t neg) as [u net1]. simpl in *.
    pose proof (Hpred net1 inv neg) as Hv.
    destruct (unet_forward net1 _ t neg) as [v net2]. simpl in *.
    destruct (i <=? TAU_2); simpl.
    + pose proof (Hpred (save_last_self_attention net2 true) inv null) as Hc.
      destruct (unet_forward (save_last_self_attention net2 true) _ t null)
        as [c net3]. simpl in *.
      destruct (guide_ok v c gs) as (g & -> & Hg).
      { eapply same_shape_trans; [done | by apply same_shape_sym]. }
      simpl.
      assert (same_shape g inv = true) as Hgi by (by eapply same_shape_trans).
      rewrite Hgi. simpl. rewrite Hnumel. simpl.
      pose proof (Hpred (use_last_self_attention net3 true) lat pos) as Hp.
      destruct (unet_forward (use_last_self_attention net3 true) _ t pos)
        as [p net4]. simpl in *.
      destruct (guide_ok u p gs) as (g' & -> & Hg').
      { eapply same_shape_trans; [done | by apply same_shape_sym]. }
      simpl.
      assert (same_shape g' lat = true) as -> by (by eapply same_shape_trans).
      simpl. eexists _, _. split; [done|]. simpl. split_and!.
      * unfold n_frames. simpl. rewrite length_zip_with.
        apply same_shape_spec in Hgi as [_ Hgi]. unfold n_frames in Hgi. lia.
      * unfold positive_dims. simpl. rewrite Hchan. unfold positive_dims in Hpos.
        tauto.
      * lia.
    + pose proof (Hpred net2 lat pos) as Hp.
      destruct (unet_forward net2 _ t pos) as [p net4]. simpl in *.
      destruct (guide_ok u p gs) as (g' & -> & Hg').
      { eapply same_shape_trans; [done | by apply same_shape_sym]. }
      simpl.
      assert (same_shape g' lat = true) as -> by (by eapply same_shape_trans).
      simpl. eexists _, _. split; [done|]. simpl. split_and!; [done..|lia].
  - destruct (i <=? TAU_2); simpl.
    + pose proof (Hpred (save_last_self_attention (w_unet w) true) inv null) as Hc.
      destruct (unet_forward (save_last_self_attention (w_unet w) true) _ t null)
        as [c net3]. simpl in *.
      rewrite Hc. simpl. rewrite Hnumel. simpl.
      pose proof (Hpred (use_last_self_attention net3 true) lat pos) as Hp.
      destruct (unet_forward (use_last_self_attention net3 true) _ t pos)
        as [p net4]. simpl in *.
      rewrite Hp. simpl. eexists _, _. split; [done|]. simpl. split_and!.
      * unfold n_frames. simpl. rewrite length_zip_with.
        apply same_shape_spec in Hc as [_ Hc]. unfold n_frames in Hc. lia.
      * unfold positive_dims. simpl. rewrite Hchan. unfold positive_dims in Hpos.
        tauto.
      * lia.
    + pose proof (Hpred (w_unet w) lat pos) as Hp.
      destruct (unet_forward (w_unet w) _ t pos) as [p net4]. simpl in *.
      rewrite Hp. simpl. eexists _, _. split; [done|]. simpl.
      split_and!; [done..|lia].
Qed.

Lemma not_altered (i : nat) : bool_decide (Z.of_nat i ∈ iters_to_alter) = false.
Proof.
  apply bool_decide_eq_false. unfold iters_to_alter.
  rewrite list_elem_of_singleton. lia.
Qed.

Lemma n_frames_frames_to (b : nat) x : n_frames (frames_to b x) = min b (n_frames x).
Proof. unfold n_frames, frames_to. simpl. apply length_take. Qed.

Lemma loop_body_ok (a : call_args R Slab Cond Prompt) pe ne nl cfg n_ts warm i
    (t : Timestep) lat inv w :
  shape_preserving_unet -> shape_preserving_scaling ->
  0 < scheduler_order -> (callback a = true -> 0 < callback_steps a) ->
  positive_dims inv -> max 1 (a_num_frames a - i) <= n_frames inv ->
  exists lat' inv' w',
    loop_body a pe ne nl cfg n_ts warm i t (lat, inv) w = (Ok (lat', inv'), w') /\
    n_frames inv' = max 1 (a_num_frames a - i) /\ positive_dims inv' /\
    w_forward_calls w < w_forward_calls w'.
Proof.
  intros Hunet Hscale Hord Hcb Hpos Hn.
  unfold loop_body. rewrite not_altered.
  unfold mbind at 1. unfold M_bind at 1. unfold mret at 1. unfold M_ret at 1.
  unfold mbind at 1. unfold M_bind at 1.
  destruct (call_network_ok ne pe lat
              (frames_to (max 1 (a_num_frames a - i)) inv)
              t i nl cfg (guidance_scale a) w Hunet Hscale)
    as (out & w1 & -> & Hfr & Hpos' & Hcalls).
  { done. }
  { rewrite n_frames_frames_to. lia. }
  rewrite n_frames_frames_to in Hfr.
  assert (n_frames (out_inv_latents out) = max 1 (a_num_frames a - i)) as Hfr'
    by lia.
  run. unfold modulo, floordiv.
  assert ((scheduler_order =? 0) = false) as -> by (apply Nat.eqb_neq; lia).
  destruct (callback a) eqn:Hc.
  - assert ((callback_steps a =? 0) = false) as ->
      by (apply Nat.eqb_neq; specialize (Hcb eq_refl); lia).
    destruct (i =? n_ts - 1); simpl.
    + destruct (_ =? 0); simpl; by eauto 10.
    + destruct (warm <? _)%Z; simpl; [|by eauto 10].
      destruct (_ =? 0); simpl; [|by eauto 10].
      destruct (_ =? 0); simpl; by eauto 10.
  - destruct (i =? n_ts - 1); simpl; [by eauto 10|].
    destruct (warm <? _)%Z; simpl; [|by eauto 10].
    destruct (_ =? 0); simpl; by eauto 10.
Qed.

Lemma denoise_loop_cons (a : call_args R Slab Cond Prompt) pe ne nl cfg n_ts warm i (t : Timestep) ts st w :
  denoise_loop a pe ne nl cfg n_ts warm i (t :: ts) st w =
  match loop_body a pe ne nl cfg n_ts warm i t st w with
  | (Ok st', w') => denoise_loop a pe ne nl cfg n_ts warm (S i) ts st' w'
  | (Raise e, w') => (Raise e, w')
  end.
Proof. reflexivity. Qed.

Lemma denoise_loop_ok (a : call_args R Slab Cond Prompt) pe ne nl cfg n_ts warm
    (ts : list Timestep) :
  shape_preserving_unet -> shape_preserving_scaling ->
  0 < scheduler_order -> (callback a = true -> 0 < callback_steps a) ->
  forall i lat inv w,
  positive_dims inv -> max 1 (a_num_frames a - i) <= n_frames inv ->
  exists lat' inv' w',
    denoise_loop a pe ne nl cfg n_ts warm i ts (lat, inv) w
      = (Ok (lat', inv'), w') /\
    positive_dims inv' /\
    max 1 (a_num_frames a - (i + length ts)) <= n_frames inv' /\
    (ts <> [] -> n_frames inv' = max 1 (a_num_frames a - (i + length ts - 1))) /\
    length ts + w_forward_calls w <= w_forward_calls w'.
Proof.
  intros Hunet Hscale Hord Hcb.
  induction ts as [|t ts IH]; intros i lat inv w Hpos Hn.
  - simpl. exists lat, inv, w. split_and!; [done..| |done|done].
    by rewrite Nat.add_0_r.
  - rewrite denoise_loop_cons.
    destruct (loop_body_ok a pe ne nl cfg n_ts warm i t lat inv w)
      as (lat1 & inv1 & w1 & -> & Hfr & Hpos1 & Hcalls1); [done..|].
    destruct (IH (S i) lat1 inv1 w1 Hpos1)
      as (lat' & inv' & w' & Hrun & Hpos' & Hle & Hlast & Hcalls).
    { lia. }
    exists lat', inv', w'. cbn [length]. split_and!; [done | done | | | lia].
    + replace (i + S (length ts)) with (S i + length ts) by lia. done.
    + intros _. replace (i + S (length ts) - 1) with (i + length ts) by lia.
      destruct ts as [|t' ts'].
      * simpl in Hrun. unfold mret, M_ret in Hrun. simplify_eq. rewrite Hfr.
        cbn [length]. by rewrite Nat.add_0_r.
      * rewrite Hlast by done. cbn [length]. do 2 f_equal. lia.
Qed.

Lemma frame0_ok x : 0 < n_frames x -> exists s, frame0 x = Ok s.
Proof.
  unfold n_frames, frame0. destruct (l_frames x); simpl; [lia | eauto].
Qed.

Lemma optimize_iteration_ok (inv : latent Slab) (t : Timestep) i pe nnp j lt (opt : Opt) w :
  shape_preserving_unet -> shape_preserving_scaling ->
  same_dims inv lt = true -> 0 < n_frames inv -> 0 < n_frames nnp ->
  exists lt' opt' lin loss w',
    optimize_iteration inv t i pe nnp j lt opt w = (Ok (lt', opt', lin), w') /\
    same_dims inv lt' = true /\ n_frames lt' = n_frames lt /\
    same_dims lin inv = true /\
    l_frames lin = take 1 (l_frames inv) ++ l_frames lt /\
    w_forward_calls w' = S (w_forward_calls w) /\
    w_log w' = PrintIteration i j loss :: w_log w.
Proof.
  intros Hunet Hscale Hd Hn Hnnp.
  unfold optimize_iteration, cat_frames.
  assert (same_dims (detach (frames_range 0 1 inv)) lt = true) as -> by done.
  run.
  set (lin := with_frames (detach (frames_range 0 1 inv)) _ _).
  assert (same_shape (unet_forward (w_unet w) (scale_model_input lin t) t pe).1 lin = true) as Hp.
  { eapply same_shape_trans; [apply Hunet | apply Hscale]. }
  destruct (unet_forward (w_unet w) (scale_model_input lin t) t pe) as [p net1].
  simpl in Hp.
  destruct (frame0_ok p) as (s & ->).
  { apply same_shape_spec in Hp as [_ ->]. unfold n_frames, lin. simpl.
    rewrite length_app, length_take, length_drop. unfold n_frames in Hn. lia. }
  destruct (frame0_ok nnp Hnnp) as (s' & ->). simpl.
  eexists _, _, _, _, _. split; [reflexivity|]. simpl.
  split_and!; try done.
  - unfold n_frames. simpl. by rewrite length_imap.
  - apply same_dims_spec. done.
Qed.

Lemma optimize_loop_cons (inv : latent Slab) (t : Timestep) i pe nnp j js lt
    (opt : Opt) lin0 w :
  optimize_loop inv t i pe nnp (j :: js) lt opt lin0 w =
  match optimize_iteration inv t i pe nnp j lt opt w with
  | (Ok (lt', opt', lin), w') =>
      optimize_loop inv t i pe nnp js lt' opt' (Some lin) w'
  | (Raise e, w') => (Raise e, w')
  end.
Proof.
  simpl. unfold mbind, M_bind.
  by destruct (optimize_iteration inv t i pe nnp j lt opt w)
    as [[[[lt' opt'] lin]|e] w'].
Qed.

Lemma optimize_loop_app (inv : latent Slab) (t : Timestep) i pe nnp js1 js2 lt
    (opt : Opt) lin0 w :
  optimize_loop inv t i pe nnp (js1 ++ js2) lt opt lin0 w =
  match optimize_loop inv t i pe nnp js1 lt opt lin0 w with
  | (Ok (lt', opt', lin), w') => optimize_loop inv t i pe nnp js2 lt' opt' lin w'
  | (Raise e, w') => (Raise e, w')
  end.
Proof.
  revert lt opt lin0 w. induction js1 as [|j js1 IH]; intros lt opt lin0 w.
  - done.
  - rewrite <- app_comm_cons, !optimize_loop_cons.
    destruct (optimize_iteration inv t i pe nnp j lt opt w)
      as [[[[lt' opt'] lin]|e] w']; [apply IH | done].
Qed.

(** The loop runs every iteration; the trained frames keep their shape, and
    [latent_in] is the concatenation made at the start of the last
    iteration. *)
Lemma optimize_loop_ok (inv : latent Slab) (t : Timestep) i pe nnp js :
  shape_preserving_unet -> shape_preserving_scaling ->
  0 < n_frames inv -> 0 < n_frames nnp ->
  forall lt (opt : Opt) lin0 w,
  same_dims inv lt = true ->
  exists lt' opt' res w' losses,
    optimize_loop inv t i pe nnp js lt opt lin0 w = (Ok (lt', opt', res), w') /\
    same_dims inv lt' = true /\ n_frames lt' = n_frames lt /\
    w_forward_calls w' = length js + w_forward_calls w /\
    length losses = length js /\
    w_log w' = rev (zip_with (PrintIteration i) js losses) ++ w_log w /\
    match js with
    | [] => res = lin0
    | _ :: _ =>
        exists lin rest,
          res = Some lin /\ same_dims lin inv = true /\
          l_frames lin = take 1 (l_frames inv) ++ rest /\
          length rest = n_frames lt
    end.
Proof.
  intros Hunet Hscale Hn Hnnp.
  induction js as [|j js IH]; intros lt opt lin0 w Hd.
  - exists lt, opt, lin0, w, []. done.
  - rewrite optimize_loop_cons.
    destruct (optimize_iteration_ok inv t i pe nnp j lt opt w)
      as (lt1 & opt1 & lin & loss & w1 & -> & Hd1 & Hfr & Hdl & Hl & Hcalls & Hlog);
      [done..|].
    destruct (IH lt1 opt1 (Some lin) w1 Hd1)
      as (lt' & opt' & res & w' & losses & -> & Hd' & Hfr' & Hcalls' & Hlen
          & Hlog' & Hres).
    exists lt', opt', res, w', (loss :: losses).
    split_and!; [done | done | congruence | | | |].
    + cbn [length]. lia.
    + cbn [length]. lia.
    + rewrite Hlog', Hlog. cbn [zip_with rev]. by rewrite <- app_assoc.
    + destruct js as [|j' js'].
      * subst res. exists lin, (l_frames lt). done.
      * destruct Hres as (lin' & rest & -> & ? & ? & ?).
        exists lin', rest. split_and!; [done..|]. congruence.
Qed.


(** The result is the concatenation made at the start of the tenth
    iteration: after frame 0 it holds the trained frames as nine optimizer
    steps left them; the tenth step does not reach the result. *)
Theorem optimize_latents_returns_ninth (latents inv : latent Slab) (t : Timestep) i null pe w :
  shape_preserving_unet -> shape_preserving_scaling ->
  same_dims inv latents = true -> 0 < n_frames inv ->
  let target := unet_forward (w_unet w) (frames_range 0 1 (scale_model_input inv t)) t null in
  let w1 := {| w_unet := target.2; w_forward_calls := S (w_forward_calls w); w_log := w_log w |} in
  let lt0 := requires_grad_ (detach (frames_from 1 latents)) in
  exists lt9 opt9 lin w9 out w',
    optimize_loop inv t i pe target.1 (seq 0 9) lt0 (adam_init learning_rate lt0) None w1
      = (Ok (lt9, opt9, lin), w9) /\
    optimize_latents latents inv t i null pe w = (Ok out, w') /\
    l_frames out = take 1 (l_frames inv) ++ l_frames lt9.
Proof.
  intros Hunet Hscale Hd Hn. cbv zeta.
  unfold optimize_latents.
  unfold mbind at 1. unfold M_bind at 1. unfold forward at 1.
  pose proof (Hunet (w_unet w) (frames_range 0 1 (scale_model_input inv t)) t null)
    as Hp.
  destruct (unet_forward (w_unet w) _ t null) as [nnp net1]. cbn [fst snd] in *.
  set (w1 := {| w_unet := net1; w_forward_calls := S (w_forward_calls w);
                w_log := w_log w |}).
  set (lt0 := requires_grad_ (detach (frames_from 1 latents))).
  assert (0 < n_frames nnp) as Hnnp.
  { apply same_shape_spec in Hp as [_ ->]. unfold n_frames, frames_range. simpl.
    rewrite length_take, length_drop.
    pose proof (Hscale inv t) as Hs. apply same_shape_spec in Hs as [_ Hs].
    unfold n_frames in *. lia. }
  assert (same_dims inv lt0 = true) as Hd0.
  { apply same_dims_spec in Hd. apply same_dims_spec. done. }
  destruct (optimize_loop_ok inv t i pe nnp (seq 0 9) Hunet Hscale Hn Hnnp lt0
              (adam_init learning_rate lt0) None w1 Hd0)
    as (lt9 & opt9 & lin & w9 & losses & Hrun & Hd9 & _).
  destruct (optimize_iteration_ok inv t i pe nnp 9 lt9 opt9 w9)
    as (lt10 & opt10 & lin9 & loss & w10 & Hit & _ & _ & _ & Hl & _); [done..|].
  exists lt9, opt9, lin, w9, (detach lin9), w10. split_and!; [done | | done].
  unfold mbind, M_bind.
  change (seq 0 10) with (seq 0 9 ++ [9]).
  rewrite optimize_loop_app, Hrun, optimize_loop_cons, Hit. done.
Qed.

Lemma call_network_generation_only neg pos (lat inv : latent Slab)
    (t : Timestep) i null cfg (gs : R) w :
  TAU_2 < i ->
  call_network neg pos lat inv t i null cfg gs w
  = generation_only_step neg pos lat inv t cfg gs w.
Proof.
  intros Hi. unfold call_network, generation_only_step.
  assert ((i <=? TAU_2) = false) as -> by (apply Nat.leb_gt; lia).
  run.
  destruct cfg; simpl.
  - destruct (unet_forward (w_unet w) _ t neg) as [u net1]. simpl.
    destruct (unet_forward net1 _ t neg) as [v net2]. simpl.
    destruct (unet_forward net2 _ t pos) as [c net3]. simpl.
    destruct (guide u gs c) as [g|e]; simpl; [|done].
    destruct (merge_like _ _ lat g) as [n|e]; simpl; done.
  - destruct (unet_forward (w_unet w) _ t pos) as [c net3]. simpl.
    destruct (merge_like _ _ lat c) as [n|e]; simpl; done.
Qed.

(** C5. For every timestep index above [TAU_2] = 15 the step driver does
    what the generation-only step does: the generation branch is denoised,
    guided and advanced one scheduler step; whenever it returns, the
    inversion latents come back exactly as received and the inversion-branch
    noise prediction is [None].  The forward passes are the generation
    pass, and with guidance the two unconditional ones. *)
Theorem call_network_skips_inversion neg pos (lat inv : latent Slab)
    (t : Timestep) i null cfg (gs : R) w :
  TAU_2 < i ->
  call_network neg pos lat inv t i null cfg gs w
    = generation_only_step neg pos lat inv t cfg gs w /\
  forall out w',
    call_network neg pos lat inv t i null cfg gs w = (Ok out, w') ->
    out_inv_latents out = inv /\
    out_noise_null_pred out = None /\
    w_forward_calls w' = (if cfg then 3 else 1) + w_forward_calls w.
Proof.
  intros Hi. split; [by apply call_network_generation_only|].
  intros out w'. rewrite call_network_generation_only by done.
  unfold generation_only_step.
  destruct cfg.
  - destruct (unet_forward (w_unet w) _ t neg) as [u net1].
    destruct (unet_forward net1 _ t neg) as [v net2].
    destruct (unet_forward net2 _ t pos) as [c net3].
    destruct (guide u gs c) as [g|e]; [|discriminate].
    destruct (merge_like _ _ lat g) as [n|e]; [|discriminate].
    intros Heq. by simplify_eq/=.
  - destruct (unet_forward (w_unet w) _ t pos) as [c net3].
    destruct (merge_like _ _ lat c) as [n|e]; [|discriminate].
    intros Heq. by simplify_eq/=.
Qed.


(** C4. Run the sampling loop over the timesteps [ts] with [F] =
    [num_frames] at least 1, from inversion latents of at least [F] frames
    (the caller's frames repeated [F] times).  For every step [i] the loop
    reaches step [i], the inversion latents handed to the step driver
    during step [i] have [max(1, F - i)] frames, and so have the inversion
    latents the step leaves behind.  Asked of the collaborators: network
    and scaling preserve shapes, the scheduler's order and a supplied
    callback's period are positive; the inversion latents have no empty
    axis. *)
Theorem inversion_window_shrinks (a : call_args R Slab Cond Prompt)
    pe ne nl cfg n_ts warm (ts : list Timestep) lat inv w i :
  shape_preserving_unet -> shape_preserving_scaling ->
  0 < scheduler_order -> (callback a = true -> 0 < callback_steps a) ->
  positive_dims inv ->
  1 <= a_num_frames a -> a_num_frames a <= n_frames inv ->
  i < length ts ->
  exists lat_i inv_i w_i,
    denoise_loop a pe ne nl cfg n_ts warm 0 (take i ts) (lat, inv) w
      = (Ok (lat_i, inv_i), w_i) /\
    n_frames (frames_to (max 1 (a_num_frames a - i)) inv_i)
      = max 1 (a_num_frames a - i) /\
    exists lat' inv' w',
      denoise_loop a pe ne nl cfg n_ts warm 0 (take (S i) ts) (lat, inv) w
        = (Ok (lat', inv'), w') /\
      n_frames inv' = max 1 (a_num_frames a - i).
Proof.
  intros Hunet Hscale Hord Hcb Hpos HF Hinv Hi.
  destruct (denoise_loop_ok a pe ne nl cfg n_ts warm (take i ts)
              Hunet Hscale Hord Hcb 0 lat inv w Hpos)
    as (lat_i & inv_i & w_i & Hrun & _ & Hle & _ & _); [lia|].
  destruct (denoise_loop_ok a pe ne nl cfg n_ts warm (take (S i) ts)
              Hunet Hscale Hord Hcb 0 lat inv w Hpos)
    as (lat' & inv' & w' & Hrun' & _ & _ & Hlast & _); [lia|].
  rewrite length_take in Hle. rewrite length_take in Hlast.
  exists lat_i, inv_i, w_i. split_and!; [done | |].
  - rewrite n_frames_frames_to. replace (0 + i `min` length ts) with i in Hle by lia.
    lia.
  - exists lat', inv', w'. split; [done|].
    rewrite Hlast.
    + do 2 f_equal. lia.
    + destruct ts; simpl in *; [lia | done].
Qed.

Lemma prepare_latents_supplied draw b c f hh ww (x y : latent Slab) :
  prepare_latents draw b c f hh ww (Some x) = Ok y -> l_batch y = l_batch x.
Proof.
  unfold prepare_latents. intros Hp.
  destruct generator_len as [n|]; simpl in Hp.
  - destruct (n =? b); simpl in Hp; [|discriminate]. by simplify_eq.
  - by simplify_eq.
Qed.

Variable check : call_args R Slab Cond Prompt -> nat -> nat -> result unit.

(** C9. When the caller's generation latents and inversion latents differ
    in batch size, the pipeline call raises, and it does so before any
    forward pass of the network: no denoising step has run, and the call
    yields no output. *)
Theorem pipeline_call_batch_mismatch (a : call_args R Slab Cond Prompt)
    (l v : latent Slab) w :
  latents a = Some l -> inv_latents a = Some v -> l_batch l <> l_batch v ->
  exists e w',
    pipeline_call check a w = (Raise e, w') /\
    w_forward_calls w' = w_forward_calls w.
Proof.
  intros Hl Hv Hne. unfold pipeline_call. rewrite Hl, Hv. run.
  destruct (check _ _ _) as [[]|e]; simpl; [|by eauto].
  destruct (encode_prompt _ _ _ _ _) as [pe ne].
  destruct (encode_prompt _ _ _ _ _) as [nl ne'].
  destruct (prepare_latents 0 _ _ _ _ _ (Some l)) as [x|e] eqn:Hx; simpl;
    [|by eauto].
  destruct (prepare_latents 1 _ _ _ _ _ (Some v)) as [y|e] eqn:Hy; simpl;
    [|by eauto].
  apply prepare_latents_supplied in Hx, Hy.
  destruct (n_frames x =? 0); simpl; [by eauto|].
  destruct (l_batch x =? l_batch y) eqn:Hb; simpl; [|by eauto].
  apply Nat.eqb_eq in Hb. congruence.
Qed.

(** Without inversion latents the call raises where the batch size is read
    off them, or earlier in [check_inputs]; the world is left as it was. *)
Lemma pipeline_call_needs_inv_latents (a : call_args R Slab Cond Prompt) w :
  inv_latents a = None ->
  exists e, pipeline_call check a w = (Raise e, w) /\
            (is_ok (check a (or_default (height a) (sample_size * vae_scale_factor))
                            (or_default (width a) (sample_size * vae_scale_factor)))
             = true -> e = AttributeError).
Proof.
  intros Hv. unfold pipeline_call. rewrite Hv. run.
  destruct (check _ _ _) as [[]|e]; simpl; eauto.
  exists e. split; [done | discriminate].
Qed.



End PipelineFacts.

(** ** The stub collaborators meet the contracts *)

Lemma same_shape_refl {Slab} (x : latent Slab) : same_shape x x = true.
Proof. apply same_shape_spec. split; [by apply same_dims_spec | done]. Qed.

Lemma stub_shape_preserving_unet : shape_preserving_unet (Slab := Q).
Proof.
  intros net x t c. apply same_shape_spec. split.
  - by apply same_dims_spec.
  - unfold n_frames. simpl. apply length_map.
Qed.

Lemma stub_shape_preserving_scaling : shape_preserving_scaling (Slab := Q).
Proof. intros x t. apply same_shape_refl. Qed.

Lemma stub_latent_positive (fs : list Q) : positive_dims (stub_latent 1 fs).
Proof. unfold positive_dims. simpl. lia. Qed.

(** ** The claims on concrete inputs *)


Lemma call_network_skips_inversion_witness :
  call_network 0 1 (stub_latent 1 [1; 2; 3]%Q) (stub_latent 1 [5; 6]%Q)
    7 16 2 true 9%Q stub_world
  = generation_only_step 0 1 (stub_latent 1 [1; 2; 3]%Q)
      (stub_latent 1 [5; 6]%Q) 7 true 9%Q stub_world /\
  forall out w',
    call_network 0 1 (stub_latent 1 [1; 2; 3]%Q) (stub_latent 1 [5; 6]%Q)
      7 16 2 true 9%Q stub_world = (Ok out, w') ->
    out_inv_latents out = stub_latent 1 [5; 6]%Q /\
    out_noise_null_pred out = None /\
    w_forward_calls w' = 3 + w_forward_calls stub_world.
Proof.
  exact (call_network_skips_inversion 0 1
           (stub_latent 1 [1; 2; 3]%Q) (stub_latent 1 [5; 6]%Q)
           7 16 2 true 9%Q stub_world (le_n 16)).
Defined.

(** On the stub the step after the cutoff does return. *)
Lemma call_network_after_cutoff_returns :
  is_ok (call_network 0 1 (stub_latent 1 [1; 2; 3]%Q) (stub_latent 1 [5; 6]%Q)
           7 16 2 true 9%Q stub_world).1 = true.
Proof. vm_compute. reflexivity. Qed.

Lemma inversion_window_shrinks_witness :
  exists lat_i inv_i w_i,
    denoise_loop (stub_args None (Some (stub_latent 1 [5]%Q))) 1 0 1 true 4 0%Z
      0 (take 2 [3; 2; 1; 0]) (stub_latent 1 [1; 2; 3]%Q,
                               stub_latent 1 [5; 5; 5]%Q) stub_world
      = (Ok (lat_i, inv_i), w_i) /\
    n_frames (frames_to (max 1 (3 - 2)) inv_i) = max 1 (3 - 2) /\
    exists lat' inv' w',
      denoise_loop (stub_args None (Some (stub_latent 1 [5]%Q))) 1 0 1 true 4 0%Z
        0 (take 3 [3; 2; 1; 0]) (stub_latent 1 [1; 2; 3]%Q,
                                 stub_latent 1 [5; 5; 5]%Q) stub_world
        = (Ok (lat', inv'), w') /\
      n_frames inv' = max 1 (3 - 2).
Proof.
  apply (inversion_window_shrinks
           (stub_args None (Some (stub_latent 1 [5]%Q))) 1 0 1 true 4 0%Z
           [3; 2; 1; 0] (stub_latent 1 [1; 2; 3]%Q) (stub_latent 1 [5; 5; 5]%Q)
           stub_world 2 stub_shape_preserving_unet stub_shape_preserving_scaling).
  - vm_compute. lia.
  - discriminate.
  - apply stub_latent_positive.
  - vm_compute. lia.
  - vm_compute. lia.
  - vm_compute. lia.
Defined.

Lemma pipeline_call_batch_mismatch_witness :
  exists e w',
    pipeline_call stub_check
      (stub_args (Some (stub_latent 2 [1; 2; 3]%Q)) (Some (stub_latent 1 [5]%Q)))
      stub_world = (Raise e, w') /\
    w_forward_calls w' = w_forward_calls stub_world.
Proof.
  apply (pipeline_call_batch_mismatch stub_check
           (stub_args (Some (stub_latent 2 [1; 2; 3]%Q)) (Some (stub_latent 1 [5]%Q)))
           (stub_latent 2 [1; 2; 3]%Q) (stub_latent 1 [5]%Q) stub_world).
  - reflexivity.
  - reflexivity.
  - vm_compute. lia.
Defined.

(** The mismatch is caught by the assertion. *)
Lemma pipeline_call_batch_mismatch_assertion :
  (pipeline_call stub_check
     (stub_args (Some (stub_latent 2 [1; 2; 3]%Q)) (Some (stub_latent 1 [5]%Q)))
     stub_world).1 = Raise AssertionError.
Proof. vm_compute. reflexivity. Qed.


(** The generation latents alone may be omitted: they are drawn at random
    and the call runs through the sampling loop. *)
Lemma pipeline_call_without_latents :
  is_ok (pipeline_call stub_check
           (stub_args None (Some (stub_latent 1 [5]%Q))) stub_world).1 = true /\
  w_forward_calls
    (pipeline_call stub_check
       (stub_args None (Some (stub_latent 1 [5]%Q))) stub_world).2 = 8.
Proof. vm_compute. done. Qed.

(** C1. On the rank-4 scores the call site produces, the statement
    [attn_weight[:, :len(d_l), 0] = attn_k1[:, :len(d_l), 0] * d_l] replaces
    the scores of query position 0 against every key position [s] by the
    secondary scores times [d_l[s]], in the heads below [len(d_l)]; it does
    not replace, for each frame [i], the score against key position 0 by
    the secondary one times [d_l[i]].  With one head and two frames the
    logits differ from the specified ones in three of four entries. *)
Theorem attn_logits_blend_axes :
  attn_logits example_query example_key (Some example_k1) (Some example_d_l) 1%Q
    = Ok [[[[7; 10]; [6; 10]]]]%Q /\
  spec_logits example_query example_key example_k1 example_d_l 1%Q
    = [[[[7; 5]; [28; 10]]]]%Q /\
  attn_logits example_query example_key (Some example_k1) (Some example_d_l) 1%Q
    <> Ok (spec_logits example_query example_key example_k1 example_d_l 1%Q).
Proof.
  split_and!; [vm_compute; reflexivity.. |].
  vm_compute. discriminate.
Qed.

(** ** Further properties on concrete inputs *)

Lemma attn_logits_entries_witness :
  exists w,
    attn_logits example_query example_key (Some example_k1)
      (Some example_d_l) 1%Q = Ok w /\
    forall b h l s, b < 1 -> h < 1 -> l < 2 -> s < 2 ->
      entry4 w b h l s =
      (fun v => v * 1)%Q <$>
        (if (h <? 2) && (l =? 0)
         then match entry4 (similarity example_query example_k1) b h 0 s,
                    example_d_l !! s with
              | Some x, Some y => Some (x * y)%Q
              | _, _ => None
              end
         else entry4 (similarity example_query example_key) b h l s).
Proof.
  exact (attn_logits_entries 1 1 2 2 1 example_query example_key example_k1
           example_d_l 1%Q (le_n 1) (le_n 1) (le_S 1 1 (le_n 1))
           eq_refl eq_refl eq_refl eq_refl).
Defined.

Lemma get_qk_case_A_witness :
  get_qk (example_cell (Some (2, 3)) 2) example_heap 0 1 =
    Ok ((0, 1, Some (dynamic_lambda_of (1 # 2)%Q 2),
         Some (mkTensor3 (1, 2, 2) [[[50; 60]; [7; 8]]]%Q)),
        capture (example_cell (Some (2, 3)) 2) 0 1, example_heap).
Proof.
  apply (get_qk_case_A (example_cell (Some (2, 3)) 2) example_heap 0 1 2 3 2);
    reflexivity.
Defined.

Lemma flag_toggles_reach_self_attention_witness :
  processors (use_last_self_attention (init_attention_func stub_network) true) !! 3
    = set_use true <$> processors (init_attention_func stub_network) !! 3 /\
  processors (save_last_self_attention (init_attention_func stub_network) true) !! 3
    = set_save true <$> processors (init_attention_func stub_network) !! 3.
Proof.
  apply (flag_toggles_reach_self_attention (init_attention_func stub_network)
           true "down_blocks.0.attentions.0.transformer_blocks.0.attn1" 3).
  - vm_compute. left.
  - reflexivity.
Defined.

Lemma pipeline_call_needs_inv_latents_witness :
  exists e,
    pipeline_call stub_check (stub_args (Some (stub_latent 1 [1; 2; 3]%Q)) None)
      stub_world = (Raise e, stub_world) /\
    (is_ok (stub_check (stub_args (Some (stub_latent 1 [1; 2; 3]%Q)) None)
              (or_default None (2 * 1)) (or_default None (2 * 1))) = true ->
     e = AttributeError).
Proof.
  apply (pipeline_call_needs_inv_latents stub_check
           (stub_args (Some (stub_latent 1 [1; 2; 3]%Q)) None) stub_world).
  reflexivity.
Defined.

Lemma optimize_latents_returns_ninth_witness :
  exists lt9 opt9 lin w9 out w',
    optimize_loop (stub_latent 1 [5; 6]%Q) 7 0 1
      (stub_unet stub_network (stub_latent 1 [5]%Q) 7 2).1 (seq 0 9)
      (requires_grad_ (detach (frames_from 1 (stub_latent 1 [1; 2; 3]%Q))))
      (adam_init (learning_rate (R := Q))
         (requires_grad_ (detach (frames_from 1 (stub_latent 1 [1; 2; 3]%Q)))))
      None
      {| w_unet := stub_network; w_forward_calls := 1; w_log := [] |}
      = (Ok (lt9, opt9, lin), w9) /\
    optimize_latents (stub_latent 1 [1; 2; 3]%Q) (stub_latent 1 [5; 6]%Q)
      7 0 2 1 stub_world = (Ok out, w') /\
    l_frames out = take 1 [5; 6]%Q ++ l_frames lt9.
Proof.
  apply (optimize_latents_returns_ninth
           (stub_latent 1 [1; 2; 3]%Q) (stub_latent 1 [5; 6]%Q) 7 0 2 1
           stub_world stub_shape_preserving_unet stub_shape_preserving_scaling).
  - reflexivity.
  - vm_compute. lia.
Defined.


(** * Further properties *)

(** ** The injection function: what it writes and what it leaves *)

Section InjectionFrame.
Context {R : Type} `{Scalar R}.
Implicit Types (self : processor R) (h : heap R).

Lemma setitem_shape (dst : Tensor3 R) b0 b1 n1 n2 src r :
  setitem dst b0 b1 n1 n2 src = Ok r -> t_shape r = t_shape dst.
Proof.
  unfold setitem. destruct (_ && _); [|discriminate].
  intros [= <-]. done.
Qed.

Lemma setitem_entry (dst : Tensor3 R) b0 b1 n1 n2 src r b s d :
  setitem dst b0 b1 n1 n2 src = Ok r ->
  entry3 r b s d =
    (fun x => if (b0 <=? b) && (b <? b1) && (s <? n1) && (d <? n2)
              then src_at src (b - b0) s d x else x) <$> entry3 dst b s d.
Proof.
  unfold setitem. destruct (_ && _); [|discriminate].
  intros [= <-]. unfold entry3. simpl.
  rewrite list_lookup_imap.
  destruct (t_data dst !! b) as [m|]; simpl; [|done].
  destruct ((b0 <=? b) && (b <? b1)); simpl.
  - rewrite list_lookup_imap. destruct (m !! s) as [r|]; simpl; [|done].
    destruct (s <? n1); simpl.
    + rewrite list_lookup_imap. by destruct (r !! d).
    + by destruct (r !! d).
  - destruct (m !! s) as [r|]; simpl; [|done]. by destruct (r !! d).
Qed.

Lemma inject_query_frame remaining : forall i all_dim batch_dim ql query h h',
  inject_query remaining i all_dim batch_dim ql query h = Ok h' ->
  length h' = length h /\
  (forall l, l <> query -> h' !! l = h !! l) /\
  t_shape (h' !!! query) = t_shape (h !!! query).
Proof.
  induction remaining as [|n IH]; intros i ad bd ql query h h' Hrun.
  - simpl in Hrun. by simplify_eq.
  - simpl in Hrun. apply bind_Ok in Hrun as (q & Hset & Hrun).
    apply IH in Hrun as (Hlen & Hother & Hshape).
    unfold heap, loc in *. rewrite length_insert in Hlen. split_and!; [done | |].
    + intros l Hl. rewrite Hother by done. by rewrite list_lookup_insert_ne.
    + rewrite Hshape. apply setitem_shape in Hset.
      destruct (decide (query < length h)) as [Hin|Hout].
      * by rewrite list_lookup_total_insert_eq.
      * rewrite list_insert_ge by lia. done.
Qed.

(** A query and a key of different shapes, as in cross-attention, are
    handed back untouched, whatever the flags and the cached slice: both
    injections ask for equal shapes. *)
Theorem get_qk_shapes_differ self h query key :
  shape_eqb (h !!! query) (h !!! key) = false ->
  get_qk self h query key =
    Ok ((query, key, None, None), capture self query key, h).
Proof.
  intros Hne. unfold get_qk. rewrite Hne, andb_false_r. simpl.
  destruct (use_last_attn_slice self); [|done].
  by destruct (last_attn_slice self) as [[ql kl]|].
Qed.

(** The only tensor a returning call can write is the query it was given:
    the store keeps its size, every other tensor (the key and the cached
    pair among them, unless it is the query itself) is as before, and the
    query keeps its shape.  Of the cell only the cached slice and the save
    flag can change. *)
Theorem get_qk_writes_query_only self h query key out self' h' :
  get_qk self h query key = Ok (out, self', h') ->
  length h' = length h /\
  (forall l, l <> query -> h' !! l = h !! l) /\
  t_shape (h' !!! query) = t_shape (h !!! query) /\
  use_last_attn_slice self' = use_last_attn_slice self /\
  LAMBDA self' = LAMBDA self /\
  num_frames self' = num_frames self /\
  bs self' = bs self.
Proof.
  intros Hrun.
  assert (self' = capture self query key) as ->
    by (by apply get_qk_returns in Hrun as (_ & _ & ?)).
  assert (length h' = length h /\
          (forall l, l <> query -> h' !! l = h !! l) /\
          t_shape (h' !!! query) = t_shape (h !!! query)) as (Hlen & Hother & Hsh).
  { unfold get_qk in Hrun.
    apply bind_Ok in Hrun as ([[d k1] h1] & Hinj & Hret).
    assert (h1 = h') as -> by by simplify_eq/=. clear Hret.
    destruct (use_last_attn_slice self); [|by simplify_eq].
    destruct (last_attn_slice self) as [[ql kl]|]; [|by simplify_eq].
    apply bind_Ok in Hinj as ([d1 k2] & _ & HB).
    destruct (shape_eqb _ _ && _) in HB; [|by simplify_eq].
    apply bind_Ok in HB as (bd & _ & HB). apply bind_Ok in HB as (ad & _ & HB).
    apply bind_Ok in HB as (h2 & Hloop & HB).
    assert (h2 = h') as -> by by simplify_eq/=.
    by apply inject_query_frame in Hloop. }
  split_and!; try done; unfold capture; by destruct (save_last_attn_slice self).
Qed.

(** The two injections exclude each other: a call that returns blend
    weights or a secondary key returns both, has found [num_frames]
    positions in the query, and has written no tensor; the secondary key
    has the shape of the key. *)
Theorem get_qk_blend_excludes_write self h query key out self' h' :
  get_qk self h query key = Ok (out, self', h') ->
  is_Some out.1.2 \/ is_Some out.2 ->
  h' = h /\
  exists d key1,
    out = (query, key, Some d, Some key1) /\
    t_shape key1 = t_shape (h !!! key) /\
    eq_num_frames (shape1 (h !!! query)) (num_frames self) = true.
Proof.
  unfold get_qk. intros Hrun Hsome.
  apply bind_Ok in Hrun as ([[d0 k1] h1] & Hinj & Hret).
  assert (out = (query, key, d0, k1) /\ h1 = h') as [-> ->] by by simplify_eq/=.
  clear Hret. simpl in Hsome.
  destruct (use_last_attn_slice self);
    [|simplify_eq; destruct Hsome as [[? [=]]|[? [=]]]].
  destruct (last_attn_slice self) as [[ql kl]|];
    [|simplify_eq; destruct Hsome as [[? [=]]|[? [=]]]].
  apply bind_Ok in Hinj as ([d1 k2] & HA & HB).
  destruct (eq_num_frames _ _) eqn:Hnf; simpl in *.
  - rewrite andb_false_r in HB.
    destruct (shape_eqb (h !!! query) (h !!! key)) eqn:Hqk; simpl in *.
    + apply bind_Ok in HA as (key1 & Hset & HA). simplify_eq.
      split; [done|]. eexists _, _. split_and!; [done | | done].
      by apply setitem_shape in Hset.
    + simplify_eq. destruct Hsome as [[? [=]]|[? [=]]].
  - assert (d1 = None /\ k2 = None) as [-> ->] by by simplify_eq.
    assert (d0 = None /\ k1 = None) as [-> ->].
    { destruct (shape_eqb _ _ && true) in HB; [|by simplify_eq].
      apply bind_Ok in HB as (? & _ & HB). apply bind_Ok in HB as (? & _ & HB).
      apply bind_Ok in HB as (? & _ & HB). by simplify_eq. }
    destruct Hsome as [[? [=]]|[? [=]]].
Qed.

(** The capture is single-shot: after any returning call the save flag
    is off, and a further call, with whatever query and key, leaves the
    cell as it is. *)
Theorem get_qk_capture_is_single_shot self h query key out self' h'
    query2 key2 out2 self'' h'' :
  get_qk self h query key = Ok (out, self', h') ->
  get_qk self' h' query2 key2 = Ok (out2, self'', h'') ->
  save_last_attn_slice self' = false /\ self'' = self'.
Proof.
  intros H1 H2.
  apply get_qk_returns in H1 as (_ & _ & ->).
  apply get_qk_returns in H2 as (_ & _ & ->).
  assert (save_last_attn_slice (capture self query key) = false) as Hoff.
  { unfold capture. by destruct (save_last_attn_slice self) eqn:Hs. }
  split; [done|]. by apply capture_unset.
Qed.

(** Case B divides by [self.bs]: on a cell whose [bs] is still the 0 that
    [init_attention_func] wrote, with the use flag set and a slice cached,
    a query with the shape of the key and not [num_frames] positions makes
    the call raise [ZeroDivisionError]. *)
Theorem get_qk_case_B_needs_bs self h query key ql kl :
  use_last_attn_slice self = true ->
  last_attn_slice self = Some (ql, kl) ->
  shape_eqb (h !!! query) (h !!! key) = true ->
  eq_num_frames (shape1 (h !!! query)) (num_frames self) = false ->
  bs self = 0 ->
  get_qk self h query key = Raise ZeroDivisionError.
Proof.
  intros Hu Hs Hqk Hnf Hbs. unfold get_qk.
  rewrite Hu, Hs, Hqk, Hnf, Hbs. done.
Qed.

End InjectionFrame.

(** ** The injection function: the entries it writes *)

Section InjectionEntries.
Context {R : Type} `{Scalar R}.
Implicit Types (self : processor R) (h : heap R).

Lemma well_shaped_entry (t : Tensor3 R) b s d :
  well_shaped t = true -> b < shape0 t -> s < shape1 t -> d < shape2 t ->
  is_Some (entry3 t b s d).
Proof.
  unfold well_shaped, entry3. intros Hw Hb Hs Hd.
  apply andb_prop in Hw as [Hlen Hrows].
  apply Nat.eqb_eq in Hlen. rewrite forallb_forall in Hrows.
  destruct (lookup_lt_is_Some_2 (t_data t) b) as [m Hm]; [lia|].
  rewrite Hm.
  specialize (Hrows m (proj1 (list_elem_of_In _ _) (list_elem_of_lookup_2 _ _ _ Hm))).
  apply andb_prop in Hrows as [Hlm Hcols].
  apply Nat.eqb_eq in Hlm. rewrite forallb_forall in Hcols.
  destruct (lookup_lt_is_Some_2 m s) as [r Hr]; [lia|].
  rewrite Hr.
  specialize (Hcols r (proj1 (list_elem_of_In _ _) (list_elem_of_lookup_2 _ _ _ Hr))).
  apply Nat.eqb_eq in Hcols.
  apply lookup_lt_is_Some_2. lia.
Qed.

Lemma pick_lt size i : i < size -> pick size i = i.
Proof.
  unfold pick. intros Hi. destruct (size =? 1) eqn:Hs; [|done].
  apply Nat.eqb_eq in Hs. lia.
Qed.

Lemma src_at_entry (src : Tensor3 R) i j k x :
  i < shape0 src -> j < shape1 src -> k < shape2 src ->
  src_at src i j k x = default x (entry3 src i j k).
Proof.
  intros Hi Hj Hk. unfold src_at, entry3.
  rewrite !pick_lt by done.
  destruct (t_data src !! i) as [m|]; [|done].
  by destruct (m !! j).
Qed.

Lemma entry3_slice0 (t : Tensor3 R) a b r s d :
  r < b - a -> entry3 (slice0 a b t) r s d = entry3 t (a + r) s d.
Proof.
  intros Hr. unfold entry3, slice0. simpl.
  by rewrite lookup_take_lt, lookup_drop.
Qed.

Lemma entry3_slice1 (t : Tensor3 R) n b s d :
  s < n -> entry3 (slice1 n t) b s d = entry3 t b s d.
Proof.
  intros Hs. unfold entry3, slice1. simpl.
  change (map ?f ?l) with (f <$> l). rewrite list_lookup_fmap.
  destruct (t_data t !! b) as [m|]; simpl; [|done].
  by rewrite lookup_take_lt.
Qed.

Lemma fmap_unless {A} (c : bool) (f : A -> A) (o : option A) :
  c = false -> (fun x => if c then f x else x) <$> o = o.
Proof. intros ->. by destruct o. Qed.

Lemma expandable_refl n : expandable n n = true.
Proof. unfold expandable. by rewrite Nat.eqb_refl. Qed.

(** The loop of Case B writes block after block. *)
Lemma inject_query_blocks (h0 : heap R) (query ql : loc) (n ad bd : nat) :
  ql <> query -> query < length h0 -> bd <= ad ->
  n * bd <= shape0 (h0 !!! ql) -> n * ad <= shape0 (h0 !!! query) ->
  shape1 (h0 !!! ql) <= shape1 (h0 !!! query) ->
  shape2 (h0 !!! ql) <= shape2 (h0 !!! query) ->
  well_shaped (h0 !!! query) = true -> well_shaped (h0 !!! ql) = true ->
  forall remaining k T,
  k + remaining <= n ->
  t_shape T = t_shape (h0 !!! query) ->
  (forall i r s d, i < k -> r < bd ->
     s < shape1 (h0 !!! ql) -> d < shape2 (h0 !!! ql) ->
     entry3 T (i * ad + r) s d = entry3 (h0 !!! ql) (i * bd + r) s d) ->
  (forall b s d,
     (forall i, i < k -> ~ (i * ad <= b < i * ad + bd))
     \/ shape1 (h0 !!! ql) <= s \/ shape2 (h0 !!! ql) <= d ->
     entry3 T b s d = entry3 (h0 !!! query) b s d) ->
  exists T',
    inject_query remaining k ad bd ql query (<[query := T]> h0)
      = Ok (<[query := T']> h0) /\
    t_shape T' = t_shape (h0 !!! query) /\
    (forall i r s d, i < k + remaining -> r < bd ->
       s < shape1 (h0 !!! ql) -> d < shape2 (h0 !!! ql) ->
       entry3 T' (i * ad + r) s d = entry3 (h0 !!! ql) (i * bd + r) s d) /\
    (forall b s d,
       (forall i, i < k + remaining -> ~ (i * ad <= b < i * ad + bd))
       \/ shape1 (h0 !!! ql) <= s \/ shape2 (h0 !!! ql) <= d ->
       entry3 T' b s d = entry3 (h0 !!! query) b s d).
Proof.
  intros Hneq Hin Hbd HQL0 HQ0 H1 H2 HwQ HwQL.
  unfold heap, loc in *.
  induction remaining as [|rem IH]; intros k T Hk Hshape Hblocks Hrest.
  - exists T. simpl. rewrite Nat.add_0_r. done.
  - cbn [inject_query]. unfold heap, loc.
    rewrite (list_lookup_total_insert_ne h0 query ql) by congruence.
    rewrite list_lookup_total_insert_eq by done.
    set (QL := h0 !!! ql) in *. set (Q := h0 !!! query) in *.
    assert (shape0 T = shape0 Q /\ shape1 T = shape1 Q /\ shape2 T = shape2 Q)
      as (HT0 & HT1 & HT2) by (unfold shape0, shape1, shape2; by rewrite Hshape).
    assert ((k + 1) * bd <= shape0 QL) as HbQL by nia.
    assert (k * ad + bd <= shape0 Q) as HbQ by nia.
    destruct (setitem T (k * ad) (k * ad + bd) (shape1 QL) (shape2 QL)
                (slice0 (k * bd) ((k + 1) * bd) QL)) as [T1|e] eqn:Hset.
    2:{ exfalso. unfold setitem in Hset.
        replace (shape0 (slice0 (k * bd) ((k + 1) * bd) QL)) with bd in Hset
          by (unfold slice0, shape0 at 1; simpl; nia).
        replace (Init.Nat.min (k * ad + bd) (shape0 T) - Init.Nat.min (k * ad) (shape0 T))
          with bd in Hset by lia.
        replace (shape1 (slice0 (k * bd) ((k + 1) * bd) QL)) with (shape1 QL)
          in Hset by done.
        replace (shape2 (slice0 (k * bd) ((k + 1) * bd) QL)) with (shape2 QL)
          in Hset by done.
        replace (Init.Nat.min (shape1 QL) (shape1 T)) with (shape1 QL) in Hset by lia.
        replace (Init.Nat.min (shape2 QL) (shape2 T)) with (shape2 QL) in Hset by lia.
        rewrite !expandable_refl in Hset. discriminate. }
    cbn [mbind result_bind]. rewrite list_insert_insert_eq.
    destruct (IH (S k) T1) as (T' & Hrun & Hsh' & Hbl' & Hre').
    + lia.
    + apply setitem_shape in Hset. by rewrite Hset.
    + intros i r s d Hi Hr Hs Hd.
      rewrite (setitem_entry _ _ _ _ _ _ _ _ _ _ Hset).
      destruct (decide (i = k)) as [->|Hik].
      * assert (entry3 T (k * ad + r) s d = entry3 Q (k * ad + r) s d) as ->.
        { apply Hrest. left. intros i Hi' Hblock. nia. }
        destruct (well_shaped_entry Q (k * ad + r) s d) as [x ->]; [done|lia..|].
        simpl.
        replace ((k * ad <=? k * ad + r) && (k * ad + r <? k * ad + bd)
                 && (s <? shape1 QL) && (d <? shape2 QL)) with true.
        2:{ symmetry. rewrite !andb_true_iff, Nat.leb_le, !Nat.ltb_lt. lia. }
        rewrite src_at_entry.
        -- replace (k * ad + r - k * ad) with r by lia.
           rewrite entry3_slice0 by nia.
           destruct (well_shaped_entry QL (k * bd + r) s d) as [v ->];
             [done|nia|done..].
        -- unfold slice0, shape0 at 1; simpl. fold (shape0 QL). nia.
        -- done.
        -- done.
      * rewrite fmap_unless; [apply Hblocks; [lia|done..]|].
        assert ((k * ad <=? i * ad + r) = false) as ->; [|done].
        apply Nat.leb_gt. nia.
    + intros b s d Hcase.
      rewrite (setitem_entry _ _ _ _ _ _ _ _ _ _ Hset).
      rewrite fmap_unless.
      * apply Hrest. destruct Hcase as [Hb|Hsd]; [left|by right].
        intros i Hi. apply Hb. lia.
      * destruct Hcase as [Hb|[Hs|Hd]].
        -- specialize (Hb k (Nat.lt_succ_diag_r k)).
           destruct (k * ad <=? b) eqn:H1b; [|done].
           destruct (b <? k * ad + bd) eqn:H2b; [|done].
           apply Nat.leb_le in H1b. apply Nat.ltb_lt in H2b. lia.
        -- assert ((s <? shape1 QL) = false) as -> by (apply Nat.ltb_ge; lia).
           by rewrite andb_false_r.
        -- assert ((d <? shape2 QL) = false) as -> by (apply Nat.ltb_ge; lia).
           by rewrite andb_false_r.
    + exists T'. replace (k + S rem) with (S k + rem) by lia. done.
Qed.


(** Case B: the rows [i * all_dim .. i * all_dim + batch_dim) of the query
    are overwritten, for every [i < bs], with the rows
    [i * batch_dim .. (i + 1) * batch_dim) of the cached query; every other
    entry of the query is kept, and no secondary key is made. *)
Theorem get_qk_case_B_entries self h query key ql kl :
  use_last_attn_slice self = true ->
  last_attn_slice self = Some (ql, kl) ->
  ql <> query -> query < length h ->
  shape_eqb (h !!! query) (h !!! key) = true ->
  eq_num_frames (shape1 (h !!! query)) (num_frames self) = false ->
  0 < bs self ->
  shape0 (h !!! ql) / bs self <= shape0 (h !!! query) / bs self ->
  shape1 (h !!! ql) <= shape1 (h !!! query) ->
  shape2 (h !!! ql) <= shape2 (h !!! query) ->
  well_shaped (h !!! query) = true -> well_shaped (h !!! ql) = true ->
  let batch_dim := shape0 (h !!! ql) / bs self in
  let all_dim := shape0 (h !!! query) / bs self in
  exists q',
    get_qk self h query key
      = Ok ((query, key, None, None), capture self query key,
            <[query := q']> h) /\
    t_shape q' = t_shape (h !!! query) /\
    (forall i r s d, i < bs self -> r < batch_dim ->
       s < shape1 (h !!! ql) -> d < shape2 (h !!! ql) ->
       entry3 q' (i * all_dim + r) s d
       = entry3 (h !!! ql) (i * batch_dim + r) s d) /\
    (forall b s d,
       (forall i, i < bs self -> ~ (i * all_dim <= b < i * all_dim + batch_dim))
       \/ shape1 (h !!! ql) <= s \/ shape2 (h !!! ql) <= d ->
       entry3 q' b s d = entry3 (h !!! query) b s d).
Proof.
  intros Hu Hs Hneq Hin Hqk Hnf Hbs Hbd H1 H2 HwQ HwQL batch_dim all_dim.
  destruct (inject_query_blocks h query ql (bs self) all_dim batch_dim
              Hneq Hin Hbd) with (remaining := bs self) (k := 0)
              (T := h !!! query) as (q' & Hrun & Hshape & Hblocks & Hrest);
    try done.
  - apply Nat.Div0.mul_div_le.
  - apply Nat.Div0.mul_div_le.
  - intros; lia.
  - exists q'. split; [|done].
    unfold heap, loc in *.
    rewrite (list_insert_id h query (h !!! query)) in Hrun
      by by apply list_lookup_lookup_total_lt.
    unfold get_qk. unfold heap, loc in *. rewrite Hu, Hs, Hnf, Hqk. simpl.
    unfold floordiv.
    assert ((bs self =? 0) = false) as -> by (apply Nat.eqb_neq; lia).
    simpl. fold batch_dim all_dim. unfold heap, loc in *. by rewrite Hrun.
Qed.

(** Case A: the secondary key is the key with the row of sequence
    position 0 taken from the cached key. *)
Theorem get_qk_case_A_secondary_key self h query key ql kl n :
  use_last_attn_slice self = true ->
  last_attn_slice self = Some (ql, kl) ->
  num_frames self = Some n ->
  shape1 (h !!! query) = n ->
  shape_eqb (h !!! query) (h !!! key) = true ->
  shape0 (h !!! kl) = shape0 (h !!! key) ->
  0 < shape1 (h !!! kl) -> 0 < shape1 (h !!! key) ->
  shape2 (h !!! kl) <= shape2 (h !!! key) ->
  well_shaped (h !!! key) = true -> well_shaped (h !!! kl) = true ->
  exists key1,
    get_qk self h query key
      = Ok ((query, key, Some (dynamic_lambda_of (LAMBDA self) n), Some key1),
            capture self query key, h) /\
    t_shape key1 = t_shape (h !!! key) /\
    (forall b d, b < shape0 (h !!! key) -> d < shape2 (h !!! kl) ->
       entry3 key1 b 0 d = entry3 (h !!! kl) b 0 d) /\
    (forall b s d, 0 < s \/ shape2 (h !!! kl) <= d ->
       entry3 key1 b s d = entry3 (h !!! key) b s d).
Proof.
  intros Hu Hs Hn Hq Hqk H0 H1kl H1k H2 HwK HwKL.
  unfold get_qk. unfold heap, loc in *.
  set (K := h !!! key) in *. set (KL := h !!! kl) in *.
  destruct (setitem K 0 (shape0 K) 1 (shape2 KL) (slice1 1 KL))
    as [key1|e] eqn:Hset.
  2:{ exfalso. unfold setitem in Hset.
      replace (shape0 (slice1 1 KL)) with (shape0 K) in Hset by done.
      replace (shape1 (slice1 1 KL)) with 1 in Hset
        by (unfold slice1, shape1 in *; cbn [t_shape fst snd]; lia).
      replace (shape2 (slice1 1 KL)) with (shape2 KL) in Hset by done.
      replace (Init.Nat.min (shape0 K) (shape0 K) - Init.Nat.min 0 (shape0 K))
        with (shape0 K) in Hset by lia.
      replace (Init.Nat.min 1 (shape1 K)) with 1 in Hset by lia.
      replace (Init.Nat.min (shape2 KL) (shape2 K)) with (shape2 KL) in Hset by lia.
      rewrite !expandable_refl in Hset. discriminate. }
  exists key1. split_and!.
  - subst K KL. rewrite Hu, Hs, Hn, Hqk, Hset. simpl.
    by rewrite Hq, Nat.eqb_refl.
  - by apply setitem_shape in Hset.
  - intros b d Hb Hd.
    rewrite (setitem_entry _ _ _ _ _ _ _ _ _ _ Hset).
    destruct (well_shaped_entry K b 0 d) as [x ->]; [done|lia..|].
    simpl.
    replace ((b <? shape0 K) && (0 <? 1) && (d <? shape2 KL)) with true.
    2:{ symmetry. rewrite !andb_true_iff, !Nat.ltb_lt. lia. }
    rewrite src_at_entry.
    + rewrite Nat.sub_0_r, entry3_slice1 by lia.
      destruct (well_shaped_entry KL b 0 d) as [v ->]; [done|lia..|done].
    + unfold slice1, shape0 at 1; simpl. fold (shape0 KL). lia.
    + unfold slice1, shape1 in *; cbn [t_shape fst snd]. lia.
    + done.
  - intros b s d Hcase.
    rewrite (setitem_entry _ _ _ _ _ _ _ _ _ _ Hset).
    apply fmap_unless.
    destruct Hcase as [Hs0|Hd].
    + assert ((s <? 1) = false) as -> by (apply Nat.ltb_ge; lia).
      by rewrite andb_false_r.
    + assert ((d <? shape2 KL) = false) as -> by (apply Nat.ltb_ge; lia).
      by rewrite andb_false_r.
Qed.

End InjectionEntries.

(** ** Set-up of the processors and composition of the toggles *)

Section NetworkSetup.
Context {R : Type} `{Scalar R}.

Lemma held_dec (selected : string -> bool) (ms : list (string * module)) p :
  held selected ms p \/ ~ held selected ms p.
Proof.
  induction ms as [|[name m] ms IH].
  - right. intros (name & Hin & _). by apply elem_of_nil in Hin.
  - destruct IH as [(name' & Hin & Hsel)|Hno].
    + left. exists name'. split; [by apply elem_of_cons; right|done].
    + destruct m as [q|c].
      * destruct (decide (q = p)) as [->|Hqp].
        -- destruct (selected name) eqn:Hsel.
           ++ left. exists name. split; [by apply elem_of_cons; left|done].
           ++ right. intros (name' & Hin & Hsel').
              apply elem_of_cons in Hin as [Heq|Hin].
              ** simplify_eq. congruence.
              ** apply Hno. by exists name'.
        -- right. intros (name' & Hin & Hsel').
           apply elem_of_cons in Hin as [Heq|Hin]; [by simplify_eq|].
           apply Hno. by exists name'.
      * right. intros (name' & Hin & Hsel').
        apply elem_of_cons in Hin as [Heq|Hin]; [by simplify_eq|].
        apply Hno. by exists name'.
Qed.

Lemma set_params_idem nf (lam : R) b (x : processor R) :
  set_params nf lam b (set_params nf lam b x) = set_params nf lam b x.
Proof. done. Qed.

Lemma install_spec (ms : list (string * module)) :
  forall (ps : list (processor R)) ms' ps',
  install ms ps = (ms', ps') ->
  ms'.*1 = ms.*1 /\
  ps' = ps ++ replicate (length (processor_refs ms)) fresh_processor /\
  processor_refs ms' = seq (length ps) (length (processor_refs ms)).
Proof.
  induction ms as [|[name [q|c]] ms IH]; intros ps ms' ps' Hi.
  - simpl in Hi. simplify_eq. simpl. by rewrite app_nil_r.
  - simpl in Hi.
    destruct (install ms (ps ++ [fresh_processor])) as [ms'' ps''] eqn:Hrec.
    simplify_eq. apply IH in Hrec as (Hnames & Hps & Hrefs).
    rewrite length_app in Hrefs. simpl in Hrefs.
    unfold processor_refs in *. csimpl. split_and!.
    + by rewrite Hnames.
    + by rewrite Hps, <- app_assoc.
    + rewrite Hrefs. f_equal. f_equal. lia.
  - simpl in Hi. destruct (install ms ps) as [ms'' ps''] eqn:Hrec.
    simplify_eq. apply IH in Hrec as (Hnames & Hps & Hrefs).
    unfold processor_refs in *. csimpl. split_and!; [by rewrite Hnames|done..].
Qed.

(** [init_attention_func] keeps the modules' names and the tensors, leaves
    the processor objects that existed as they were, and gives every
    [Attention] module a new processor with no cached slice, both flags
    off, [LAMBDA] 0, [num_frames] [None] and [bs] 0. *)
Theorem init_attention_func_resets (unet : network R) :
  (named_modules (init_attention_func unet)).*1 = (named_modules unet).*1 /\
  tensors (init_attention_func unet) = tensors unet /\
  processors (init_attention_func unet)
    = processors unet
      ++ replicate (length (processor_refs (named_modules unet))) fresh_processor /\
  forall name p,
    (name, AttentionModule p) ∈ named_modules (init_attention_func unet) ->
    processors (init_attention_func unet) !! p = Some fresh_processor.
Proof.
  unfold init_attention_func.
  destruct (install (named_modules unet) (processors unet)) as [ms ps] eqn:Hi.
  apply install_spec in Hi as (Hnames & Hps & Hrefs). simpl.
  split_and!; [done..|].
  intros name p Hin. apply elem_of_processor_refs in Hin.
  rewrite Hrefs in Hin. apply elem_of_seq in Hin.
  rewrite Hps, lookup_app_r by lia.
  apply lookup_replicate_2. lia.
Qed.

(** [init_attention_params] writes [LAMBDA], [bs] and [num_frames] on the
    processor of every [Attention] module, self-attention or not, and
    nothing else. *)
Theorem init_attention_params_reaches_all (unet : network R) nf (lam : R) b :
  named_modules (init_attention_params unet nf lam b) = named_modules unet /\
  tensors (init_attention_params unet nf lam b) = tensors unet /\
  (forall name p,
     (name, AttentionModule p) ∈ named_modules unet ->
     processors (init_attention_params unet nf lam b) !! p
     = set_params nf lam b <$> processors unet !! p) /\
  (forall q,
     q ∉ processor_refs (named_modules unet) ->
     processors (init_attention_params unet nf lam b) !! q
     = processors unet !! q).
Proof.
  unfold init_attention_params, update_processors. simpl.
  split_and!; [done..| |].
  - intros name p Hin. apply foldl_visit_held.
    + apply set_params_idem.
    + by exists name.
  - intros q Hq. apply foldl_visit_other.
    intros (name & Hin & _). apply Hq. by eapply elem_of_processor_refs.
Qed.

(** The set-up of a run, [init_attention_func] then
    [init_attention_params]: every [Attention] module holds a processor
    with no cached slice, both flags off, and the run's parameters. *)
Theorem attention_setup_state (unet : network R) nf (lam : R) b name p :
  (name, AttentionModule p)
    ∈ named_modules (init_attention_params (init_attention_func unet) nf lam b) ->
  processors (init_attention_params (init_attention_func unet) nf lam b) !! p
  = Some {| last_attn_slice := None;
            use_last_attn_slice := false;
            save_last_attn_slice := false;
            LAMBDA := lam;
            num_frames := Some nf;
            bs := b |}.
Proof.
  intros Hin.
  assert ((name, AttentionModule p) ∈ named_modules (init_attention_func unet))
    as Hin' by done.
  unfold init_attention_params, update_processors. simpl.
  rewrite (foldl_visit_held _ _ _ _ p (set_params_idem nf lam b)).
  - unfold init_attention_func in *.
    destruct (install (named_modules unet) (processors unet)) as [ms ps] eqn:Hi.
    apply install_spec in Hi as (Hnames & Hps & Hrefs). simpl in *.
    apply elem_of_processor_refs in Hin'.
    rewrite Hrefs in Hin'. apply elem_of_seq in Hin'.
    rewrite Hps, lookup_app_r by lia.
    rewrite (lookup_replicate_2 _ fresh_processor) by lia. done.
  - by exists name.
Qed.

Lemma update_processors_lookup (selected : string -> bool)
    (f : processor R -> processor R) (unet : network R) p :
  (forall x, f (f x) = f x) ->
  (held selected (named_modules unet) p /\
   processors (update_processors selected f unet) !! p
   = f <$> processors unet !! p) \/
  (~ held selected (named_modules unet) p /\
   processors (update_processors selected f unet) !! p
   = processors unet !! p).
Proof.
  intros Hf. destruct (held_dec selected (named_modules unet) p) as [Hh|Hn].
  - left. split; [done|]. by apply foldl_visit_held.
  - right. split; [done|]. by apply foldl_visit_other.
Qed.

Lemma update_processors_compose (selected : string -> bool)
    (f g fg : processor R -> processor R) (unet : network R) :
  (forall x, f (f x) = f x) -> (forall x, g (g x) = g x) ->
  (forall x, fg (fg x) = fg x) -> (forall x, f (g x) = fg x) ->
  update_processors selected f (update_processors selected g unet)
  = update_processors selected fg unet.
Proof.
  intros Hf Hg Hfg Hcomp.
  assert (processors (update_processors selected f
                        (update_processors selected g unet))
          = processors (update_processors selected fg unet)) as Hps.
  { apply list_eq. intros p.
    destruct (update_processors_lookup selected f
                (update_processors selected g unet) p Hf) as [[Hh ->]|[Hn ->]];
      destruct (update_processors_lookup selected g unet p Hg)
        as [[Hh' ->]|[Hn' ->]];
      destruct (update_processors_lookup selected fg unet p Hfg)
        as [[Hh'' ->]|[Hn'' ->]];
      simpl in *; try done.
    rewrite <- option_fmap_compose. apply option_fmap_ext. intros x. apply Hcomp. }
  unfold update_processors in *. simpl in *. by rewrite Hps.
Qed.

(** The toggles compose: of two settings of the same flag the later one
    stands, and setting one flag commutes with setting the other. *)
Theorem flag_toggles_compose (unet : network R) (a b : bool) :
  use_last_self_attention (use_last_self_attention unet a) b
    = use_last_self_attention unet b /\
  save_last_self_attention (save_last_self_attention unet a) b
    = save_last_self_attention unet b /\
  use_last_self_attention (save_last_self_attention unet a) b
    = save_last_self_attention (use_last_self_attention unet b) a.
Proof.
  unfold use_last_self_attention, save_last_self_attention. split_and!.
  - by apply update_processors_compose.
  - by apply update_processors_compose.
  - rewrite (update_processors_compose _ (set_use b) (set_save a)
               (fun x => set_use b (set_save a x))) by done.
    by rewrite (update_processors_compose _ (set_save a) (set_use b)
                  (fun x => set_use b (set_save a x))).
Qed.

End NetworkSetup.

(** ** Grouped-query repetition *)

Section AttentionFacts.
Context {R : Type} `{Scalar R}.
Variable inv_sqrt : nat -> R.
Variable neg_inf : R.
Variable softmax : row R -> row R.
Variable dropout : R -> tensor4 R -> tensor4 R.

Lemma repeat_interleave_1 (t : tensor4 R) : repeat_interleave 1 t = t.
Proof.
  unfold repeat_interleave.
  rewrite <- (map_id t) at 2. apply map_ext. intros heads.
  induction heads as [|x heads IH]; [done|].
  change (mjoin (map (replicate 1) (x :: heads)))
    with (x :: mjoin (map (replicate 1) heads)).
  by rewrite IH.
Qed.

Lemma floordiv_same n : 0 < n -> floordiv n n = Ok 1.
Proof.
  intros Hn. unfold floordiv.
  assert ((n =? 0) = false) as -> by (apply Nat.eqb_neq; lia).
  by rewrite Nat.div_same by lia.
Qed.

(** With as many key and value heads as query heads, [enable_gqa] changes
    nothing: every repetition factor is 1. *)
Theorem gqa_with_equal_heads (query key value : tensor4 R) attn_mask dropout_p
    is_causal scale (k1 : option (tensor4 R)) d_l :
  0 < size_m3 query ->
  size_m3 key = size_m3 query -> size_m3 value = size_m3 query ->
  (forall k, k1 = Some k -> size_m3 k = size_m3 query) ->
  scaled_dot_product_attention inv_sqrt neg_inf softmax dropout
    query key value attn_mask dropout_p is_causal scale true k1 d_l
  = scaled_dot_product_attention inv_sqrt neg_inf softmax dropout
      query key value attn_mask dropout_p is_causal scale false k1 d_l.
Proof.
  intros Hq Hk Hv Hk1. unfold scaled_dot_product_attention.
  destruct (attn_bias_of _ _ _ _ _) as [bias|e]; [|done]. simpl.
  rewrite Hk, Hv, !floordiv_same by done. simpl.
  destruct k1 as [k|]; [|by rewrite !repeat_interleave_1].
  destruct d_l as [d|]; [|by rewrite !repeat_interleave_1].
  rewrite (Hk1 k eq_refl), floordiv_same by done. simpl.
  by rewrite !repeat_interleave_1.
Qed.

End AttentionFacts.

(** ** Shape of the attention output *)

Section AttentionShape.
Context {R : Type} `{Scalar R}.
Variable inv_sqrt : nat -> R.
Variable neg_inf : R.
Variable softmax : row R -> row R.
Variable dropout : R -> tensor4 R -> tensor4 R.








Hypothesis softmax_length : forall r, length (softmax r) = length r.
Hypothesis dropout_shape : forall p B Hd L S t,
  shaped4 B Hd L S t = true -> shaped4 B Hd L S (dropout p t) = true.


End AttentionShape.

(** ** Postprocessing of the video and the processor's call of the attention *)

Section Tensor2Vid.
Context {R Slab Timestep Cond Prompt Opt Out : Type}.
Context `{Scalar R} `{!Collaborators R Slab Timestep Cond Prompt Opt Out}.

(** [tensor2vid] returns for the output types "np", "pt" and "pil" only,
    and then with one postprocessed video per batch entry, in order; "np"
    and "pt" need a batch entry to stack, and any other output type is
    refused with [ValueError] after the videos have been postprocessed. *)
Theorem tensor2vid_outputs (v : latent Slab) (output_type : string) :
  (forall r, tensor2vid v output_type = Ok r ->
     exists outs,
       (output_type = "np" /\ r = NpStack outs /\ 0 < l_batch v \/
        output_type = "pt" /\ r = PtStack outs /\ 0 < l_batch v \/
        output_type = "pil" /\ r = PilList outs) /\
       length outs = l_batch v /\
       forall b, b < l_batch v -> outs !! b = Some (postprocess v b output_type)) /\
  (output_type <> "np" -> output_type <> "pt" -> output_type <> "pil" ->
   tensor2vid v output_type = Raise ValueError) /\
  (l_batch v = 0 ->
   tensor2vid v "np" = Raise ValueError /\
   tensor2vid v "pt" = Raise RuntimeError /\
   tensor2vid v "pil" = Ok (PilList [])).
Proof.
  assert (forall ty,
            length (map (fun b => postprocess v b ty) (seq 0 (l_batch v)))
            = l_batch v) as Hlen by (by intros; rewrite length_map, length_seq).
  assert (forall ty b, b < l_batch v ->
            map (fun b => postprocess v b ty) (seq 0 (l_batch v)) !! b
            = Some (postprocess v b ty)) as Hlook.
  { intros ty b Hb. change (map ?f ?l) with (f <$> l).
    by rewrite list_lookup_fmap, lookup_seq_lt. }
  split_and!.
  - intros r Hr. unfold tensor2vid in Hr.
    destruct (String.eqb output_type "np") eqn:Hnp.
    { apply String.eqb_eq in Hnp.
      destruct (map _ _) as [|o outs] eqn:Houts; [discriminate|].
      simplify_eq. exists (o :: outs). rewrite <- Houts. split_and!; [|apply Hlen|apply Hlook].
      left. split_and!; [done..|]. specialize (Hlen "np"). rewrite Houts in Hlen.
      simpl in Hlen. lia. }
    destruct (String.eqb output_type "pt") eqn:Hpt.
    { apply String.eqb_eq in Hpt.
      destruct (map _ _) as [|o outs] eqn:Houts; [discriminate|].
      simplify_eq. exists (o :: outs). rewrite <- Houts. split_and!; [|apply Hlen|apply Hlook].
      right; left. split_and!; [done..|]. specialize (Hlen "pt").
      rewrite Houts in Hlen. simpl in Hlen. lia. }
    destruct (String.eqb output_type "pil") eqn:Hpil; [|discriminate].
    apply String.eqb_eq in Hpil. simpl in Hr. simplify_eq.
    eexists. split_and!; [|apply Hlen|apply Hlook]. right; right. done.
  - intros Hnp Hpt Hpil. unfold tensor2vid.
    apply String.eqb_neq in Hnp, Hpt, Hpil. by rewrite Hnp, Hpt, Hpil.
  - intros Hb. unfold tensor2vid. rewrite Hb. done.
Qed.

End Tensor2Vid.

Section ProcessorFacts.
Context {R : Type} `{Scalar R}.
Variable inv_sqrt : nat -> R.
Variable neg_inf : R.
Variable softmax : row R -> row R.
Variable dropout : R -> tensor4 R -> tensor4 R.

(** With the use flag off, with no cached slice, or with a query and key
    of different shapes (cross-attention), the processor computes plain
    attention: no secondary key and no blend weights reach
    [scaled_dot_product_attention], and no tensor is written. *)
Theorem attention_without_injection (self : processor R) (h : heap R)
    heads batch_size query key (value : Tensor3 R) attention_mask :
  use_last_attn_slice self = false \/ last_attn_slice self = None
  \/ shape_eqb (h !!! query) (h !!! key) = false ->
  attention inv_sqrt neg_inf softmax dropout self h heads batch_size
    query key value attention_mask
  = (head_dim ← floordiv (shape2 (h !!! key)) heads;
     q ← split_heads batch_size heads head_dim (h !!! query);
     k ← split_heads batch_size heads head_dim (h !!! key);
     v ← split_heads batch_size heads head_dim value;
     hidden_states ←
       scaled_dot_product_attention inv_sqrt neg_inf softmax dropout
         q k v attention_mask rzero false None false None None;
     Ok (hidden_states, capture self query key, h)).
Proof.
  intros Hcase.
  assert (get_qk self h query key
          = Ok ((query, key, None, None), capture self query key, h)) as Hqk.
  { destruct Hcase as [Hu|[Hs|Hne]].
    - by apply get_qk_capture_only.
    - unfold get_qk. rewrite Hs. by destruct (use_last_attn_slice self).
    - unfold get_qk. rewrite Hne, andb_false_r. simpl.
      destruct (use_last_attn_slice self); [|done].
      by destruct (last_attn_slice self) as [[ql kl]|]. }
  unfold attention. rewrite Hqk.
  destruct (floordiv _ _) as [head_dim|]; simpl; [|done].
  destruct (split_heads _ _ _ (h !!! query)) as [q|]; simpl; [|done].
  destruct (split_heads _ _ _ (h !!! key)) as [k|]; simpl; [|done].
  destruct (split_heads _ _ _ value) as [v|]; simpl; [|done].
  by destruct (scaled_dot_product_attention _ _ _ _ _ _ _ _ _ _ _ _ _ _).
Qed.

End ProcessorFacts.

(** ** The step driver and the sampling loop *)

Section StepFacts.
Context {R Slab Timestep Cond Prompt Opt Out : Type}.
Context `{Scalar R} `{!Collaborators R Slab Timestep Cond Prompt Opt Out}.

Ltac close_step :=
  split_and!;
  try done; try lia; try (by eexists); try (apply same_dims_spec; done);
  try (unfold n_frames in *; simpl; lia).

Ltac run_in H :=
  unfold mbind, M_bind, mret, M_ret, forward, on_unet, lift, emit, raise in H;
  simpl in H.

Lemma guide_frames (u c g : latent Slab) (s : R) :
  guide u s c = Ok g ->
  same_shape g u = true /\ same_shape u c = true.
Proof.
  unfold guide. destruct (same_shape u c) eqn:Hs; [|discriminate].
  intros [= <-]. split; [|done].
  apply same_shape_spec in Hs as [Hd Hn].
  apply same_shape_spec. split.
  - by apply same_dims_spec.
  - unfold n_frames in *. simpl. rewrite length_zip_with. lia.
Qed.

(** What a returning call of the step driver has done. *)
Lemma call_network_returns neg pos (lat inv : latent Slab) (t : Timestep) i null
    cfg (gs : R) w out w' :
  call_network neg pos lat inv t i null cfg gs w = (Ok out, w') ->
  w_forward_calls w'
    = (if cfg then 2 else 0) + (if i <=? TAU_2 then 1 else 0) + 1
      + w_forward_calls w /\
  w_log w' = w_log w /\
  (exists net, w_unet w' = use_last_self_attention net false) /\
  (same_dims (out_latents out) lat = true /\
   l_attached (out_latents out) = false /\
   length (s_items (out_noise_pred out)) = n_frames lat /\
   l_frames (out_latents out)
   = zip_with (scheduler_step t) (s_items (out_noise_pred out)) (l_frames lat)) /\
  (if i <=? TAU_2 then
     exists noise,
       out_noise_null_pred out = Some noise /\
       length (s_items noise) = n_frames inv /\
       l_frames (out_inv_latents out)
       = zip_with (scheduler_step t) (s_items noise) (l_frames inv) /\
       l_batch (out_inv_latents out) = l_batch inv /\
       l_chan (out_inv_latents out)
       = l_batch inv * n_frames inv * l_chan inv / (l_batch inv * n_frames inv) /\
       l_dim3 (out_inv_latents out) = l_dim4 inv /\
       l_dim4 (out_inv_latents out) = l_dim3 inv /\
       l_attached (out_inv_latents out) = false
   else out_inv_latents out = inv /\ out_noise_null_pred out = None).
Proof.
  intros Hrun. unfold call_network, merge_like, unmerge_inferred in Hrun.
  run_in Hrun.
  destruct cfg; simpl in Hrun.
  - destruct (unet_forward (w_unet w) _ t neg) as [u net1]. simpl in Hrun.
    destruct (unet_forward net1 _ t neg) as [v net2]. simpl in Hrun.
    destruct (i <=? TAU_2); simpl in Hrun.
    + destruct (unet_forward (save_last_self_attention net2 true) _ t null)
        as [c net3]. simpl in Hrun.
      destruct (guide v gs c) as [g|] eqn:Hg; simpl in Hrun; [|by simplify_eq].
      destruct (same_shape g inv) eqn:Hgi; simpl in Hrun; [|by simplify_eq].
      destruct (_ =? 0) in Hrun; simpl in Hrun; [by simplify_eq|].
      destruct (unet_forward (use_last_self_attention net3 true) _ t pos)
        as [p net4]. simpl in Hrun.
      destruct (guide u gs p) as [g'|] eqn:Hg'; simpl in Hrun; [|by simplify_eq].
      destruct (same_shape g' lat) eqn:Hgl; simpl in Hrun; [|by simplify_eq].
      simplify_eq. simpl.
      apply same_shape_spec in Hgi as [_ Hgi]. apply same_shape_spec in Hgl as [_ Hgl].
      close_step.
    + destruct (unet_forward net2 _ t pos) as [p net4]. simpl in Hrun.
      destruct (guide u gs p) as [g'|] eqn:Hg'; simpl in Hrun; [|by simplify_eq].
      destruct (same_shape g' lat) eqn:Hgl; simpl in Hrun; [|by simplify_eq].
      simplify_eq. simpl. apply same_shape_spec in Hgl as [_ Hgl].
      close_step.
  - destruct (i <=? TAU_2); simpl in Hrun.
    + destruct (unet_forward (save_last_self_attention (w_unet w) true) _ t null)
        as [c net3]. simpl in Hrun.
      destruct (same_shape c inv) eqn:Hgi; simpl in Hrun; [|by simplify_eq].
      destruct (_ =? 0) in Hrun; simpl in Hrun; [by simplify_eq|].
      destruct (unet_forward (use_last_self_attention net3 true) _ t pos)
        as [p net4]. simpl in Hrun.
      destruct (same_shape p lat) eqn:Hgl; simpl in Hrun; [|by simplify_eq].
      simplify_eq. simpl.
      apply same_shape_spec in Hgi as [_ Hgi]. apply same_shape_spec in Hgl as [_ Hgl].
      close_step.
    + destruct (unet_forward (w_unet w) _ t pos) as [p net4]. simpl in Hrun.
      destruct (same_shape p lat) eqn:Hgl; simpl in Hrun; [|by simplify_eq].
      simplify_eq. simpl. apply same_shape_spec in Hgl as [_ Hgl].
      close_step.
Qed.


(** For [i <= TAU_2] the inversion branch is denoised and advanced one
    scheduler step, frame by frame; the latents handed back have the batch,
    channel and frame sizes they had and the sizes of the last two axes
    exchanged (the reshape names them [width, height] and lays them out as
    [height, width]).  The network is evaluated four times with guidance
    and twice without. *)
Theorem call_network_inversion_step neg pos (lat inv : latent Slab)
    (t : Timestep) i null cfg (gs : R) w :
  shape_preserving_unet -> shape_preserving_scaling ->
  positive_dims inv -> 0 < n_frames inv -> i <= TAU_2 ->
  exists out w' noise,
    call_network neg pos lat inv t i null cfg gs w = (Ok out, w') /\
    out_noise_null_pred out = Some noise /\
    l_frames (out_inv_latents out)
      = zip_with (scheduler_step t) (s_items noise) (l_frames inv) /\
    n_frames (out_inv_latents out) = n_frames inv /\
    l_batch (out_inv_latents out) = l_batch inv /\
    l_chan (out_inv_latents out) = l_chan inv /\
    l_dim3 (out_inv_latents out) = l_dim4 inv /\
    l_dim4 (out_inv_latents out) = l_dim3 inv /\
    w_forward_calls w' = (if cfg then 4 else 2) + w_forward_calls w.
Proof.
  intros Hunet Hscale Hpos Hn Hi.
  destruct (call_network_ok neg pos lat inv t i null cfg gs w Hunet Hscale Hpos Hn)
    as (out & w' & Hrun & Hframes & _ & _).
  destruct (call_network_returns _ _ _ _ _ _ _ _ _ _ _ _ Hrun)
    as (Hcalls & _ & _ & _ & Hinv).
  assert ((i <=? TAU_2) = true) as Hle by by apply Nat.leb_le.
  rewrite Hle in Hcalls, Hinv.
  destruct Hinv as (noise & Hnoise & _ & Hfr & Hb & Hc & H3 & H4 & _).
  exists out, w', noise. split_and!; try done.
  - rewrite Hc. destruct Hpos as (Hpb & Hpc & _).
    rewrite (Nat.mul_comm _ (l_chan inv)), Nat.div_mul; [done|].
    apply Nat.neq_mul_0; split; lia.
  - rewrite Hcalls. destruct cfg; lia.
Qed.

(** Whatever the step, a returning call of the step driver leaves the use
    flag off on the processor of every self-attention module: injection is
    armed only between the inversion pass and the generation pass. *)
Theorem call_network_leaves_injection_off neg pos (lat inv : latent Slab)
    (t : Timestep) i null cfg (gs : R) w out w' name p c :
  call_network neg pos lat inv t i null cfg gs w = (Ok out, w') ->
  (name, AttentionModule p) ∈ named_modules (w_unet w') ->
  contains "attn1" name = true ->
  processors (w_unet w') !! p = Some c ->
  use_last_attn_slice c = false.
Proof.
  intros Hrun Hin Hname Hc.
  destruct (call_network_returns _ _ _ _ _ _ _ _ _ _ _ _ Hrun)
    as (_ & _ & (net & Hnet) & _).
  rewrite Hnet in Hin, Hc.
  unfold use_last_self_attention, update_processors in Hin, Hc. simpl in Hin, Hc.
  rewrite (foldl_visit_held _ _ _ _ p (set_use_idem false)) in Hc
    by by exists name.
  destruct (processors net !! p) as [c0|]; by simplify_eq/=.
Qed.

Lemma call_network_generation_shape neg pos (lat inv : latent Slab)
    (t : Timestep) i null cfg (gs : R) w out w' :
  call_network neg pos lat inv t i null cfg gs w = (Ok out, w') ->
  same_shape (out_latents out) lat = true /\ l_attached (out_latents out) = false.
Proof.
  intros Hrun.
  destruct (call_network_returns _ _ _ _ _ _ _ _ _ _ _ _ Hrun)
    as (_ & _ & _ & (Hdims & Hatt & Hlen & Hfr) & _).
  split; [|done].
  apply same_shape_spec. split; [done|].
  unfold n_frames in *. rewrite Hfr, length_zip_with. lia.
Qed.

(** At every step the generation latents keep their sizes and are
    advanced one scheduler step, frame by frame, with the noise prediction
    the call returns; the call prints nothing and calls no callback. *)
Theorem call_network_generation_update neg pos (lat inv : latent Slab)
    (t : Timestep) i null cfg (gs : R) w out w' :
  call_network neg pos lat inv t i null cfg gs w = (Ok out, w') ->
  same_shape (out_latents out) lat = true /\
  l_frames (out_latents out)
    = zip_with (scheduler_step t) (s_items (out_noise_pred out)) (l_frames lat) /\
  w_log w' = w_log w.
Proof.
  intros Hrun.
  destruct (call_network_generation_shape _ _ _ _ _ _ _ _ _ _ _ _ Hrun)
    as [Hshape Hatt].
  destruct (call_network_returns _ _ _ _ _ _ _ _ _ _ _ _ Hrun)
    as (_ & Hlog & _ & (_ & _ & _ & Hfr) & _).
  done.
Qed.

Lemma loop_body_returns (a : call_args R Slab Cond Prompt) pe ne nl cfg n_ts warm i
    (t : Timestep) lat inv w lat' inv' w' :
  loop_body a pe ne nl cfg n_ts warm i t (lat, inv) w = (Ok (lat', inv'), w') ->
  exists out w1,
    call_network ne pe lat (frames_to (max 1 (a_num_frames a - i)) inv) t i nl
      cfg (guidance_scale a) w = (Ok out, w1) /\
    lat' = out_latents out /\ inv' = out_inv_latents out /\
    w_unet w' = w_unet w1 /\
    w_forward_calls w' = w_forward_calls w1 /\
    (callback a = false -> w_log w' = w_log w1).
Proof.
  unfold loop_body. rewrite not_altered. intros Hrun.
  unfold mbind at 1 2, M_bind at 1 2, mret at 1, M_ret at 1 in Hrun.
  destruct (call_network ne pe lat _ t i nl cfg (guidance_scale a) w)
    as [[out|e] w1]; [|discriminate].
  exists out, w1. split; [done|].
  run_in Hrun.
  destruct (i =? n_ts - 1); simpl in Hrun.
  - destruct (callback a); simpl in Hrun.
    + unfold modulo, floordiv in Hrun.
      destruct (callback_steps a =? 0); simpl in Hrun; [discriminate|].
      destruct (_ =? 0) in Hrun; simpl in Hrun.
      * destruct (scheduler_order =? 0); simpl in Hrun; [discriminate|].
        simplify_eq. split_and!; done.
      * simplify_eq. split_and!; done.
    + simplify_eq. split_and!; done.
  - destruct (warm <? _)%Z; simpl in Hrun.
    + unfold modulo at 1 in Hrun.
      destruct (scheduler_order =? 0) eqn:Ho; simpl in Hrun; [discriminate|].
      destruct (_ =? 0) in Hrun; simpl in Hrun.
      * destruct (callback a); simpl in Hrun.
        -- unfold modulo, floordiv in Hrun.
           destruct (callback_steps a =? 0); simpl in Hrun; [discriminate|].
           destruct (_ =? 0) in Hrun; simpl in Hrun.
           ++ rewrite Ho in Hrun. simpl in Hrun. simplify_eq. split_and!; done.
           ++ simplify_eq. split_and!; done.
        -- simplify_eq. split_and!; done.
      * simplify_eq. split_and!; done.
    + simplify_eq. split_and!; done.
Qed.

Lemma denoise_loop_counts (a : call_args R Slab Cond Prompt)
    pe ne nl cfg n_ts warm (ts : list Timestep) :
  forall i lat inv w lat' inv' w',
  denoise_loop a pe ne nl cfg n_ts warm i ts (lat, inv) w
    = (Ok (lat', inv'), w') ->
  w_forward_calls w'
    = (if cfg then 3 else 1) * length ts
      + (min (i + length ts) (S TAU_2) - min i (S TAU_2))
      + w_forward_calls w /\
  (callback a = false -> w_log w' = w_log w).
Proof.
  induction ts as [|t ts IH]; intros i lat inv w lat' inv' w' Hrun.
  - simpl in Hrun. unfold mret, M_ret in Hrun. simplify_eq.
    simpl. rewrite Nat.add_0_r. split; [lia|done].
  - rewrite denoise_loop_cons in Hrun.
    destruct (loop_body a pe ne nl cfg n_ts warm i t (lat, inv) w)
      as [[[lat1 inv1]|e] w1] eqn:Hbody; [|discriminate].
    apply loop_body_returns in Hbody
      as (out & w0 & Hstep & _ & _ & _ & Hcalls & Hlog).
    apply call_network_returns in Hstep as (Hcalls0 & Hlog0 & _).
    apply IH in Hrun as [Hrest Hlogs].
    split.
    + rewrite Hrest, Hcalls, Hcalls0. simpl length. unfold TAU_2.
      destruct (i <=? 15) eqn:Hi;
        [apply Nat.leb_le in Hi | apply Nat.leb_gt in Hi];
        destruct cfg; lia.
    + intros Hcb. by rewrite Hlogs, Hlog, Hlog0.
Qed.

(** The sampling loop never runs the latent optimizer.  A returning run
    over the timesteps [ts] has evaluated the network three times per step
    with guidance (once without), and once more at each of the first
    [TAU_2 + 1] steps; without a callback the log of printed lines and
    callback calls is as it was (the progress bar is not part of it). *)
Theorem denoise_loop_forward_passes (a : call_args R Slab Cond Prompt)
    pe ne nl cfg n_ts warm (ts : list Timestep) lat inv w lat' inv' w' :
  denoise_loop a pe ne nl cfg n_ts warm 0 ts (lat, inv) w
    = (Ok (lat', inv'), w') ->
  w_forward_calls w'
    = (if cfg then 3 else 1) * length ts + min (length ts) (S TAU_2)
      + w_forward_calls w /\
  (callback a = false -> w_log w' = w_log w).
Proof.
  intros Hrun. apply denoise_loop_counts in Hrun as [Hcalls Hlog].
  split; [|done]. rewrite Hcalls. simpl. lia.
Qed.

(** Through a returning run of the sampling loop the generation latents
    keep their shape; after a step they are outside the autograd graph
    (the loop runs under [torch.no_grad]). *)
Theorem denoise_loop_keeps_generation_shape (a : call_args R Slab Cond Prompt)
    pe ne nl cfg n_ts warm (ts : list Timestep) :
  forall i lat inv w lat' inv' w',
  denoise_loop a pe ne nl cfg n_ts warm i ts (lat, inv) w
    = (Ok (lat', inv'), w') ->
  same_shape lat' lat = true /\
  (ts <> [] -> l_attached lat' = false).
Proof.
  induction ts as [|t ts IH]; intros i lat inv w lat' inv' w' Hrun.
  - simpl in Hrun. unfold mret, M_ret in Hrun. simplify_eq.
    split; [apply same_shape_refl|done].
  - rewrite denoise_loop_cons in Hrun.
    destruct (loop_body a pe ne nl cfg n_ts warm i t (lat, inv) w)
      as [[[lat1 inv1]|e] w1] eqn:Hbody; [|discriminate].
    apply loop_body_returns in Hbody as (out & w0 & Hstep & -> & -> & _).
    apply call_network_generation_shape in Hstep as (Hshape & Hatt).
    destruct ts as [|t' ts].
    + simpl in Hrun. unfold mret, M_ret in Hrun. by simplify_eq.
    + apply IH in Hrun as [Hrest Hdet].
      split; [by eapply same_shape_trans|]. intros _. by apply Hdet.
Qed.

End StepFacts.

(** ** Heads and callbacks *)

Section SplitHeads.
Context {R : Type} `{Scalar R}.

(** [view(batch_size, -1, heads, head_dim).transpose(1, 2)] on a tensor
    (B, L, heads * head_dim): the result is (B, heads, L, head_dim), and
    head [h] holds, for every sequence position, the entries
    [h * head_dim .. (h + 1) * head_dim) of the inner axis. *)
Theorem split_heads_entries B heads head_dim (t : Tensor3 R) :
  0 < B -> 0 < heads -> 0 < head_dim ->
  well_shaped t = true ->
  shape0 t = B -> shape2 t = heads * head_dim ->
  exists q,
    split_heads B heads head_dim t = Ok q /\
    shaped4 B heads (shape1 t) head_dim q = true /\
    forall b h l d, h < heads -> d < head_dim ->
      entry4 q b h l d = entry3 t b l (h * head_dim + d).
Proof.
  intros _ _ _ Hw HB HD. unfold split_heads.
  rewrite HB, HD, !Nat.eqb_refl. simpl. eexists. split; [done|].
  unfold well_shaped in Hw. apply andb_prop in Hw as [Hlen Hrows].
  apply Nat.eqb_eq in Hlen. rewrite forallb_forall in Hrows. split.
  - apply shaped4_intro; [rewrite length_map; lia|].
    intros t3 Hin. change (map ?f ?l) with (f <$> l) in Hin.
    apply list_elem_of_fmap in Hin as (m & -> & Hm).
    apply list_elem_of_In in Hm. apply Hrows in Hm.
    apply andb_prop in Hm as [Hlm Hcols]. apply Nat.eqb_eq in Hlm.
    rewrite forallb_forall in Hcols.
    split; [by rewrite length_map, length_seq|].
    intros m' Hin. change (map ?f ?l) with (f <$> l) in Hin.
    apply list_elem_of_fmap in Hin as (h & -> & Hh). apply elem_of_seq in Hh.
    split; [by rewrite length_map|].
    intros r' Hin. change (map ?f ?l) with (f <$> l) in Hin.
    apply list_elem_of_fmap in Hin as (r & -> & Hr).
    apply list_elem_of_In in Hr. apply Hcols in Hr. apply Nat.eqb_eq in Hr.
    rewrite length_take, length_drop, Hr, HD. nia.
  - intros b h l d Hh Hd. unfold entry4, entry3.
    change (map ?f ?l) with (f <$> l). rewrite list_lookup_fmap.
    destruct (t_data t !! b) as [m|]; simpl; [|done].
    change (map ?f ?l) with (f <$> l). rewrite list_lookup_fmap.
    rewrite lookup_seq_lt by done. simpl.
    change (map ?f ?l) with (f <$> l). rewrite list_lookup_fmap.
    destruct (m !! l) as [r|]; simpl; [|done].
    by rewrite lookup_take_lt, lookup_drop.
Qed.

End SplitHeads.

Section CallbackFacts.
Context {R Slab Timestep Cond Prompt Opt Out : Type}.
Context `{Scalar R} `{!Collaborators R Slab Timestep Cond Prompt Opt Out}.

(** With a scheduler of order 1 and past the warm-up, a step of the
    sampling loop calls the callback exactly when the step index is a
    multiple of [callback_steps], with the step index, the timestep and
    the generation latents the step produced. *)
Theorem loop_body_callback (a : call_args R Slab Cond Prompt) pe ne nl cfg n_ts
    warm i (t : Timestep) lat inv w lat' inv' w' :
  callback a = true -> scheduler_order = 1 -> (warm < Z.of_nat (i + 1))%Z ->
  loop_body a pe ne nl cfg n_ts warm i t (lat, inv) w = (Ok (lat', inv'), w') ->
  0 < callback_steps a /\
  w_log w'
  = (if i mod callback_steps a =? 0 then [CallbackCall i t lat'] else [])
    ++ w_log w.
Proof.
  intros Hcb Hord Hwarm. unfold loop_body. rewrite not_altered. intros Hrun.
  unfold mbind at 1 2, M_bind at 1 2, mret at 1, M_ret at 1 in Hrun.
  destruct (call_network ne pe lat _ t i nl cfg (guidance_scale a) w)
    as [[out|e] w1] eqn:Hstep; [|discriminate].
  apply call_network_returns in Hstep as (_ & Hlog & _).
  unfold mbind, M_bind, mret, M_ret, lift, emit in Hrun. simpl in Hrun.
  rewrite Hcb, Hord in Hrun.
  assert ((warm <? Z.of_nat (i + 1))%Z = true) as Hw by by apply Z.ltb_lt.
  rewrite Hw in Hrun.
  unfold modulo, floordiv in Hrun. simpl in Hrun.
  change (Nat.divmod i 0 0 0).1 with (i / 1) in Hrun.
  rewrite Nat.div_1_r in Hrun.
  destruct (i =? n_ts - 1); simpl in Hrun.
  - destruct (callback_steps a =? 0) eqn:Hcs; simpl in Hrun; [discriminate|].
    apply Nat.eqb_neq in Hcs. split; [lia|].
    destruct (i mod callback_steps a =? 0); simpl in Hrun; simplify_eq/=;
      by rewrite Hlog.
  - destruct (callback_steps a =? 0) eqn:Hcs; simpl in Hrun; [discriminate|].
    apply Nat.eqb_neq in Hcs. split; [lia|].
    destruct (i mod callback_steps a =? 0); simpl in Hrun; simplify_eq/=;
      by rewrite Hlog.
Qed.

End CallbackFacts.

(** ** A whole run *)

Section RunFacts.
Context {R Slab Timestep Cond Prompt Opt Out : Type}.
Context `{Scalar R} `{!Collaborators R Slab Timestep Cond Prompt Opt Out}.
Variable check : call_args R Slab Cond Prompt -> nat -> nat -> result unit.

Lemma postprocessing_world (a : call_args R Slab Cond Prompt) lat w r w' :
  postprocessing a lat w = (r, w') -> w' = w.
Proof.
  unfold postprocessing, mbind, M_bind, mret, M_ret, lift. intros Hrun.
  destruct (String.eqb (output_type a) "latent"); simpl in Hrun.
  - destruct (negb (return_dict a)); by simplify_eq.
  - destruct (tensor2vid _ _); simpl in Hrun; [|by simplify_eq].
    destruct (negb (return_dict a)); by simplify_eq.
Qed.

(** A returning call of the pipeline has evaluated the network three
    times per timestep with guidance (once without) and once more at each
    of the first [TAU_2 + 1] timesteps; without a callback it has printed
    the six lines of the set-up and nothing else, the batch size being that
    of the inversion latents. *)
Theorem pipeline_call_forward_passes (a : call_args R Slab Cond Prompt) w r w' :
  pipeline_call check a w = (Ok r, w') ->
  let T := length (timesteps_of (num_inference_steps a)) in
  w_forward_calls w'
    = (if rltb rone (guidance_scale a) then 3 else 1) * T + min T (S TAU_2)
      + w_forward_calls w /\
  (callback a = false ->
   exists v F,
     inv_latents a = Some v /\
     w_log w'
     = [PrintLambda (lambda_ a); PrintFrames F; PrintBatch (l_batch v);
        PrintPrompt (prompt a); PrintText "----------------------";
        PrintText "Setup for Current Run"] ++ w_log w).
Proof.
  intros Hrun T. unfold pipeline_call in Hrun.
  unfold mbind at 1, M_bind at 1, lift at 1 in Hrun.
  destruct (check a _ _) as [[]|e]; [|discriminate].
  unfold mbind at 1, M_bind at 1 in Hrun.
  destruct (inv_latents a) as [v|] eqn:Hv; [|discriminate].
  unfold mret at 1, M_ret at 1 in Hrun.
  destruct (encode_prompt _ _ _ (prompt_embeds a) _) as [pe ne0].
  destruct (encode_prompt _ _ _ None _) as [nl ne].
  unfold mbind at 1, M_bind at 1, lift at 1 in Hrun.
  destruct (prepare_latents 0 _ _ _ _ _ _) as [lat0|e]; [|discriminate].
  unfold mbind at 1, M_bind at 1, lift at 1 in Hrun.
  destruct (prepare_latents 1 _ _ _ _ _ _) as [inv0|e]; [|discriminate].
  unfold mbind, M_bind, mret, M_ret, on_unet, emit, raise, lift in Hrun.
  simpl in Hrun.
  destruct (n_frames lat0 =? 0); simpl in Hrun; [discriminate|].
  destruct (l_batch lat0 =? l_batch inv0); simpl in Hrun; [|discriminate].
  destruct (seed _ lat0) as [lat1|e]; simpl in Hrun; [|discriminate].
  match type of Hrun with
  | context [denoise_loop ?a ?pe ?ne ?nl ?cfg ?n ?wm ?i ?ts ?st ?w0] =>
      destruct (denoise_loop a pe ne nl cfg n wm i ts st w0)
        as [[[lat' inv']|e] wT] eqn:Hloop; [|discriminate]
  end.
  apply postprocessing_world in Hrun as ->.
  apply denoise_loop_counts in Hloop as [Hcalls Hlog].
  simpl in Hcalls, Hlog. fold T in Hcalls. split.
  - rewrite Hcalls. lia.
  - intros Hcb. exists v, (n_frames lat0). split; [done|]. by rewrite Hlog.
Qed.

End RunFacts.

(** ** The further properties on concrete inputs *)

Lemma get_qk_shapes_differ_witness :
  get_qk (example_cell (Some (2, 3)) 2) example_cross_heap 0 1
  = Ok ((0, 1, None, None), capture (example_cell (Some (2, 3)) 2) 0 1,
        example_cross_heap).
Proof.
  apply (get_qk_shapes_differ (example_cell (Some (2, 3)) 2)
           example_cross_heap 0 1).
  reflexivity.
Defined.

Lemma get_qk_writes_query_only_witness :
  exists out self' h',
    get_qk (example_cell (Some (2, 3)) 5) example_heap 0 1
      = Ok (out, self', h') /\
    length h' = length example_heap /\
    (forall l, l <> 0 -> h' !! l = example_heap !! l) /\
    t_shape (h' !!! 0) = t_shape (example_heap !!! 0).
Proof.
  assert (get_qk (example_cell (Some (2, 3)) 5) example_heap 0 1
          = Ok ((0, 1, None, None),
                capture (example_cell (Some (2, 3)) 5) 0 1,
                <[0 := mkTensor3 (1, 2, 2) [[[10; 20]; [30; 40]]]%Q]> example_heap))
    as Hrun by (vm_compute; reflexivity).
  eexists _, _, _. split; [exact Hrun|].
  pose proof (get_qk_writes_query_only _ _ _ _ _ _ _ Hrun)
    as (Hlen & Hother & Hshape & _).
  exact (conj Hlen (conj Hother Hshape)).
Defined.

Lemma get_qk_blend_excludes_write_witness :
  exists d key1,
    (0, 1, Some (dynamic_lambda_of (1 # 2)%Q 2),
     Some (mkTensor3 (1, 2, 2) [[[50; 60]; [7; 8]]]%Q))
    = (0, 1, Some d, Some key1) /\
    t_shape key1 = t_shape (example_heap !!! 1) /\
    eq_num_frames (shape1 (example_heap !!! 0))
      (num_frames (example_cell (Some (2, 3)) 2)) = true.
Proof.
  assert (get_qk (example_cell (Some (2, 3)) 2) example_heap 0 1
          = Ok ((0, 1, Some (dynamic_lambda_of (1 # 2)%Q 2),
                 Some (mkTensor3 (1, 2, 2) [[[50; 60]; [7; 8]]]%Q)),
                capture (example_cell (Some (2, 3)) 2) 0 1, example_heap))
    as Hrun by (vm_compute; reflexivity).
  exact (proj2 (get_qk_blend_excludes_write _ _ _ _ _ _ _ Hrun
                  (or_introl (ex_intro _ _ eq_refl)))).
Defined.

Lemma get_qk_capture_is_single_shot_witness :
  save_last_attn_slice (capture (example_cell (Some (2, 3)) 2) 0 1) = false /\
  capture (capture (example_cell (Some (2, 3)) 2) 0 1) 1 0
  = capture (example_cell (Some (2, 3)) 2) 0 1.
Proof.
  assert (get_qk (example_cell (Some (2, 3)) 2) example_heap 0 1
          = Ok ((0, 1, Some (dynamic_lambda_of (1 # 2)%Q 2),
                 Some (mkTensor3 (1, 2, 2) [[[50; 60]; [7; 8]]]%Q)),
                capture (example_cell (Some (2, 3)) 2) 0 1, example_heap))
    as Hrun1 by (vm_compute; reflexivity).
  assert (get_qk (capture (example_cell (Some (2, 3)) 2) 0 1) example_heap 1 0
          = Ok ((1, 0, Some (dynamic_lambda_of (1 # 2)%Q 2),
                 Some (mkTensor3 (1, 2, 2) [[[5; 6]; [3; 4]]]%Q)),
                capture (capture (example_cell (Some (2, 3)) 2) 0 1) 1 0,
                example_heap))
    as Hrun2 by (vm_compute; reflexivity).
  exact (get_qk_capture_is_single_shot _ _ _ _ _ _ _ _ _ _ _ _ Hrun1 Hrun2).
Defined.

Lemma get_qk_case_B_needs_bs_witness :
  get_qk example_unset_cell example_heap 0 1 = Raise ZeroDivisionError.
Proof.
  apply (get_qk_case_B_needs_bs example_unset_cell example_heap 0 1 2 3);
    reflexivity.
Defined.

Lemma get_qk_case_B_entries_witness :
  exists q',
    get_qk (example_cell (Some (2, 3)) 5) example_heap 0 1
      = Ok ((0, 1, None, None), capture (example_cell (Some (2, 3)) 5) 0 1,
            <[0 := q']> example_heap) /\
    t_shape q' = t_shape (example_heap !!! 0) /\
    (forall i r s d, i < 1 -> r < 1 / 1 -> s < 2 -> d < 2 ->
       entry3 q' (i * (1 / 1) + r) s d
       = entry3 (example_heap !!! 2) (i * (1 / 1) + r) s d) /\
    (forall b s d,
       (forall i, i < 1 -> ~ (i * (1 / 1) <= b < i * (1 / 1) + 1 / 1))
       \/ 2 <= s \/ 2 <= d ->
       entry3 q' b s d = entry3 (example_heap !!! 0) b s d).
Proof.
  apply (get_qk_case_B_entries (example_cell (Some (2, 3)) 5) example_heap
           0 1 2 3).
  - reflexivity.
  - reflexivity.
  - discriminate.
  - vm_compute. lia.
  - reflexivity.
  - reflexivity.
  - vm_compute. lia.
  - vm_compute. lia.
  - vm_compute. lia.
  - vm_compute. lia.
  - reflexivity.
  - reflexivity.
Defined.

Lemma get_qk_case_A_secondary_key_witness :
  exists key1,
    get_qk (example_cell (Some (2, 3)) 2) example_heap 0 1
      = Ok ((0, 1, Some (dynamic_lambda_of (1 # 2)%Q 2), Some key1),
            capture (example_cell (Some (2, 3)) 2) 0 1, example_heap) /\
    t_shape key1 = t_shape (example_heap !!! 1) /\
    (forall b d, b < 1 -> d < 2 ->
       entry3 key1 b 0 d = entry3 (example_heap !!! 3) b 0 d) /\
    (forall b s d, 0 < s \/ 2 <= d ->
       entry3 key1 b s d = entry3 (example_heap !!! 1) b s d).
Proof.
  apply (get_qk_case_A_secondary_key (example_cell (Some (2, 3)) 2)
           example_heap 0 1 2 3 2).
  - reflexivity.
  - reflexivity.
  - reflexivity.
  - reflexivity.
  - reflexivity.
  - reflexivity.
  - vm_compute. lia.
  - vm_compute. lia.
  - vm_compute. lia.
  - reflexivity.
  - reflexivity.
Defined.

Lemma attention_setup_state_witness :
  processors
    (init_attention_params (init_attention_func stub_network) 3 (1 # 2)%Q 1) !! 4
  = Some {| last_attn_slice := None;
            use_last_attn_slice := false;
            save_last_attn_slice := false;
            LAMBDA := (1 # 2)%Q;
            num_frames := Some 3;
            bs := 1 |}.
Proof.
  apply (attention_setup_state stub_network 3 (1 # 2)%Q 1
           "down_blocks.0.attentions.0.transformer_blocks.0.attn2" 4).
  vm_compute. right. right. left.
Defined.

Lemma gqa_with_equal_heads_witness :
  scaled_dot_product_attention stub_inv_sqrt stub_neg_inf stub_softmax
    stub_dropout example_query example_key example_value None 0%Q false None
    true (Some example_k1) (Some example_d_l)
  = scaled_dot_product_attention stub_inv_sqrt stub_neg_inf stub_softmax
      stub_dropout example_query example_key example_value None 0%Q false None
      false (Some example_k1) (Some example_d_l).
Proof.
  apply (gqa_with_equal_heads stub_inv_sqrt stub_neg_inf stub_softmax
           stub_dropout example_query example_key example_value None 0%Q
           false None (Some example_k1) (Some example_d_l)).
  - vm_compute. lia.
  - reflexivity.
  - reflexivity.
  - intros k [= <-]. reflexivity.
Defined.


Lemma attention_without_injection_witness :
  attention stub_inv_sqrt stub_neg_inf stub_softmax stub_dropout
    (example_cell (Some (2, 3)) 2) example_cross_heap 1 1 0 1
    (example_cross_heap !!! 1) None
  = (head_dim ← floordiv (shape2 (example_cross_heap !!! 1)) 1;
     q ← split_heads 1 1 head_dim (example_cross_heap !!! 0);
     k ← split_heads 1 1 head_dim (example_cross_heap !!! 1);
     v ← split_heads 1 1 head_dim (example_cross_heap !!! 1);
     hidden_states ←
       scaled_dot_product_attention stub_inv_sqrt stub_neg_inf stub_softmax
         stub_dropout q k v None rzero false None false None None;
     Ok (hidden_states, capture (example_cell (Some (2, 3)) 2) 0 1,
         example_cross_heap)).
Proof.
  apply (attention_without_injection stub_inv_sqrt stub_neg_inf stub_softmax
           stub_dropout (example_cell (Some (2, 3)) 2) example_cross_heap
           1 1 0 1 (example_cross_heap !!! 1) None).
  right. right. reflexivity.
Defined.

Lemma call_network_inversion_step_witness :
  exists out w' noise,
    call_network 0 1 (stub_latent 1 [1; 2; 3]%Q) (stub_latent 1 [5; 6]%Q)
      7 0 2 true 9%Q stub_world = (Ok out, w') /\
    out_noise_null_pred out = Some noise /\
    l_frames (out_inv_latents out)
      = zip_with (scheduler_step 7) (s_items noise) [5; 6]%Q /\
    n_frames (out_inv_latents out) = 2 /\
    l_batch (out_inv_latents out) = 1 /\
    l_chan (out_inv_latents out) = 4 /\
    l_dim3 (out_inv_latents out) = 2 /\
    l_dim4 (out_inv_latents out) = 2 /\
    w_forward_calls w' = 4 + 0.
Proof.
  apply (call_network_inversion_step 0 1 (stub_latent 1 [1; 2; 3]%Q)
           (stub_latent 1 [5; 6]%Q) 7 0 2 true 9%Q stub_world
           stub_shape_preserving_unet stub_shape_preserving_scaling).
  - apply stub_latent_positive.
  - vm_compute. lia.
  - vm_compute. lia.
Defined.

Lemma call_network_leaves_injection_off_witness :
  exists out w',
    call_network 0 1 (stub_latent 1 [1; 2; 3]%Q) (stub_latent 1 [5; 6]%Q)
      7 0 2 true 9%Q stub_world = (Ok out, w') /\
    forall c, processors (w_unet w') !! 0 = Some c ->
              use_last_attn_slice c = false.
Proof.
  assert (is_ok (call_network 0 1 (stub_latent 1 [1; 2; 3]%Q)
                   (stub_latent 1 [5; 6]%Q) 7 0 2 true 9%Q stub_world).1
          = true) as Hok by (vm_compute; reflexivity).
  destruct (call_network 0 1 (stub_latent 1 [1; 2; 3]%Q)
              (stub_latent 1 [5; 6]%Q) 7 0 2 true 9%Q stub_world)
    as [[out|e] w'] eqn:Hrun; [|discriminate Hok].
  exists out, w'. split; [reflexivity|]. intros c Hc.
  apply (call_network_leaves_injection_off _ _ _ _ _ _ _ _ _ _ _ _
           "down_blocks.0.attentions.0.transformer_blocks.0.attn1" 0 c Hrun);
    [|reflexivity|exact Hc].
  pose proof Hrun as Hrun'. vm_compute in Hrun'.
  injection Hrun' as _ <-. vm_compute. left.
Defined.

Lemma call_network_generation_update_witness :
  exists out w',
    call_network 0 1 (stub_latent 1 [1; 2; 3]%Q) (stub_latent 1 [5; 6]%Q)
      7 0 2 true 9%Q stub_world = (Ok out, w') /\
    same_shape (out_latents out) (stub_latent 1 [1; 2; 3]%Q) = true /\
    l_frames (out_latents out)
      = zip_with (scheduler_step 7) (s_items (out_noise_pred out)) [1; 2; 3]%Q /\
    w_log w' = w_log stub_world.
Proof.
  assert (is_ok (call_network 0 1 (stub_latent 1 [1; 2; 3]%Q)
                   (stub_latent 1 [5; 6]%Q) 7 0 2 true 9%Q stub_world).1
          = true) as Hok by (vm_compute; reflexivity).
  destruct (call_network 0 1 (stub_latent 1 [1; 2; 3]%Q)
              (stub_latent 1 [5; 6]%Q) 7 0 2 true 9%Q stub_world)
    as [[out|e] w'] eqn:Hrun; [|discriminate Hok].
  exists out, w'. split; [reflexivity|].
  exact (call_network_generation_update _ _ _ _ _ _ _ _ _ _ _ _ Hrun).
Defined.

Lemma denoise_loop_forward_passes_witness :
  exists lat' inv' w',
    denoise_loop (stub_args None (Some (stub_latent 1 [5]%Q))) 1 0 1 true 2 0%Z
      0 [1; 0] (stub_latent 1 [1; 2; 3]%Q, stub_latent 1 [5; 5; 5]%Q) stub_world
      = (Ok (lat', inv'), w') /\
    w_forward_calls w' = 3 * 2 + min 2 16 + 0 /\
    (false = false -> w_log w' = w_log stub_world).
Proof.
  assert (is_ok (denoise_loop (stub_args None (Some (stub_latent 1 [5]%Q)))
                   1 0 1 true 2 0%Z 0 [1; 0]
                   (stub_latent 1 [1; 2; 3]%Q, stub_latent 1 [5; 5; 5]%Q)
                   stub_world).1 = true) as Hok by (vm_compute; reflexivity).
  destruct (denoise_loop (stub_args None (Some (stub_latent 1 [5]%Q)))
              1 0 1 true 2 0%Z 0 [1; 0]
              (stub_latent 1 [1; 2; 3]%Q, stub_latent 1 [5; 5; 5]%Q)
              stub_world) as [[[lat' inv']|e] w'] eqn:Hrun; [|discriminate Hok].
  exists lat', inv', w'. split; [reflexivity|].
  exact (denoise_loop_forward_passes _ _ _ _ _ _ _ _ _ _ _ _ _ _ Hrun).
Defined.

Lemma denoise_loop_keeps_generation_shape_witness :
  exists lat' inv' w',
    denoise_loop (stub_args None (Some (stub_latent 1 [5]%Q))) 1 0 1 true 2 0%Z
      0 [1; 0] (stub_latent 1 [1; 2; 3]%Q, stub_latent 1 [5; 5; 5]%Q) stub_world
      = (Ok (lat', inv'), w') /\
    same_shape lat' (stub_latent 1 [1; 2; 3]%Q) = true /\
    ([1; 0] <> [] -> l_attached lat' = false).
Proof.
  assert (is_ok (denoise_loop (stub_args None (Some (stub_latent 1 [5]%Q)))
                   1 0 1 true 2 0%Z 0 [1; 0]
                   (stub_latent 1 [1; 2; 3]%Q, stub_latent 1 [5; 5; 5]%Q)
                   stub_world).1 = true) as Hok by (vm_compute; reflexivity).
  destruct (denoise_loop (stub_args None (Some (stub_latent 1 [5]%Q)))
              1 0 1 true 2 0%Z 0 [1; 0]
              (stub_latent 1 [1; 2; 3]%Q, stub_latent 1 [5; 5; 5]%Q)
              stub_world) as [[[lat' inv']|e] w'] eqn:Hrun; [|discriminate Hok].
  exists lat', inv', w'. split; [reflexivity|].
  exact (denoise_loop_keeps_generation_shape _ _ _ _ _ _ _ _ _ _ _ _ _ _ _ Hrun).
Defined.

Lemma split_heads_entries_witness :
  exists q,
    split_heads 1 2 1 (example_heap !!! 0) = Ok q /\
    shaped4 1 2 (shape1 (example_heap !!! 0)) 1 q = true /\
    forall b h l d, h < 2 -> d < 1 ->
      entry4 q b h l d = entry3 (example_heap !!! 0) b l (h * 1 + d).
Proof.
  apply (split_heads_entries (R := Q) 1 2 1 (example_heap !!! 0)).
  - lia.
  - lia.
  - lia.
  - reflexivity.
  - reflexivity.
  - reflexivity.
Defined.

Lemma loop_body_callback_witness :
  exists lat' inv' w',
    loop_body (stub_callback_args None (Some (stub_latent 1 [5]%Q)))
      1 0 1 true 2 0%Z 0 7
      (stub_latent 1 [1; 2; 3]%Q, stub_latent 1 [5; 5; 5]%Q) stub_world
      = (Ok (lat', inv'), w') /\
    0 < 2 /\
    w_log w' = (if 0 mod 2 =? 0 then [CallbackCall 0 7 lat'] else [])
               ++ w_log stub_world.
Proof.
  assert (is_ok (loop_body (stub_callback_args None (Some (stub_latent 1 [5]%Q)))
                   1 0 1 true 2 0%Z 0 7
                   (stub_latent 1 [1; 2; 3]%Q, stub_latent 1 [5; 5; 5]%Q)
                   stub_world).1 = true) as Hok by (vm_compute; reflexivity).
  destruct (loop_body (stub_callback_args None (Some (stub_latent 1 [5]%Q)))
              1 0 1 true 2 0%Z 0 7
              (stub_latent 1 [1; 2; 3]%Q, stub_latent 1 [5; 5; 5]%Q)
              stub_world) as [[[lat' inv']|e] w'] eqn:Hrun; [|discriminate Hok].
  exists lat', inv', w'. split; [reflexivity|].
  exact (loop_body_callback
           (stub_callback_args None (Some (stub_latent 1 [5]%Q)))
           1 0 1 true 2 0%Z 0 7 (stub_latent 1 [1; 2; 3]%Q)
           (stub_latent 1 [5; 5; 5]%Q) stub_world lat' inv' w'
           eq_refl eq_refl eq_refl Hrun).
Defined.

Lemma pipeline_call_forward_passes_witness :
  exists r w',
    pipeline_call stub_check (stub_args None (Some (stub_latent 1 [5]%Q)))
      stub_world = (Ok r, w') /\
    w_forward_calls w' = 3 * 2 + min 2 16 + 0 /\
    (false = false ->
     exists v F,
       Some (stub_latent 1 [5]%Q) = Some v /\
       w_log w'
       = [PrintLambda (1 # 2)%Q; PrintFrames F; PrintBatch (l_batch v);
          PrintPrompt "a cat"; PrintText "----------------------";
          PrintText "Setup for Current Run"] ++ []).
Proof.
  assert (is_ok (pipeline_call stub_check
                   (stub_args None (Some (stub_latent 1 [5]%Q))) stub_world).1
          = true) as Hok by (vm_compute; reflexivity).
  destruct (pipeline_call stub_check
              (stub_args None (Some (stub_latent 1 [5]%Q))) stub_world)
    as [[r|e] w'] eqn:Hrun; [|discriminate Hok].
  exists r, w'. split; [reflexivity|].
  exact (pipeline_call_forward_passes stub_check _ _ _ _ Hrun).
Defined.
